(** * NBocIDE: workspace confinement, tree listing and file content

    A shallow embedding of the server routes of the IDE
    ([routes/project.js], [routes/folders.js]) together with the parts of
    the Node.js runtime they call ([path] in its POSIX flavour, [fs], the
    UTF-8 codec, [Array.prototype.sort]), and the properties of the
    specification stated over it.

    Conventions.
    - File names, URL parameters and paths are 8-bit strings ([string]).
    - File content is a JavaScript string, that is a sequence of UTF-16
      code units ([list Z]); bytes on disk are [list Z] below 256.
    - The filesystem is a finite tree; every [fs] primitive records the
      call it performs in a log, so that "which path was touched, and
      when" can be stated.
    - The wall clock is an arbitrary function from ticks to timestamps. *)

From Stdlib Require Import ZArith List String Ascii Bool Lia.
From Stdlib Require Import Sorted Permutation.
Import ListNotations.
Open Scope string_scope.
Set Warnings "-register-all".

(** ** JavaScript string primitives used by the routes *)

Module JsString.

(** [s.startsWith(p)] *)
Definition startsWith (s p : string) : bool := String.prefix p s.

Definition chars (s : string) : list ascii := list_ascii_of_string s.
Definition ofChars (l : list ascii) : string := string_of_list_ascii l.

Definition code (c : ascii) : nat := nat_of_ascii c.

(** [s.split(c)] for a one-character separator. *)
Fixpoint split (c : ascii) (s : string) : list string :=
  match s with
  | EmptyString => [EmptyString]
  | String a s' =>
      if Ascii.eqb a c then EmptyString :: split c s'
      else match split c s' with
           | [] => [String a EmptyString]
           | x :: xs => String a x :: xs
           end
  end.

(** [s.replace(/\\/g, '/')] *)
Fixpoint backslashToSlash (s : string) : string :=
  match s with
  | EmptyString => EmptyString
  | String a s' =>
      String (if Ascii.eqb a "\"%char then "/"%char else a) (backslashToSlash s')
  end.

Fixpoint endsWithChar (c : ascii) (s : string) : bool :=
  match s with
  | EmptyString => false
  | String a EmptyString => Ascii.eqb a c
  | String _ s' => endsWithChar c s'
  end.

Definition startsWithChar (c : ascii) (s : string) : bool :=
  match s with
  | String a _ => Ascii.eqb a c
  | EmptyString => false
  end.

End JsString.

(** ** [path] (POSIX)

    Node's [path.posix], at the level of path segments: [normalizeString]
    scans the segments between separators, drops empty and [.] segments and
    lets [..] remove the segment before it. *)

Module Path.
Import JsString.

Definition isDots (seg : string) : bool := seg =? "..".

(** One step of [normalizeString]; [stack] holds the segments kept so
    far, last one first. *)
Definition pushSegment (allowAboveRoot : bool) (stack : list string)
           (seg : string) : list string :=
  if (seg =? "") || (seg =? ".") then stack
  else if isDots seg then
    match stack with
    | [] => if allowAboveRoot then [".."] else []
    | top :: rest =>
        if isDots top
        then (if allowAboveRoot then ".." :: stack else stack)
        else rest
    end
  else seg :: stack.

Definition normalizeSegments (allowAboveRoot : bool) (path : string)
  : list string :=
  rev (fold_left (pushSegment allowAboveRoot) (split "/" path) []).

Definition normalizeString (path : string) (allowAboveRoot : bool) : string :=
  String.concat "/" (normalizeSegments allowAboveRoot path).

Definition isAbsolute (path : string) : bool := startsWithChar "/" path.

Definition normalize (path : string) : string :=
  if path =? "" then "."
  else
    let abs := isAbsolute path in
    let trailingSeparator := endsWithChar "/" path in
    let p := normalizeString path (negb abs) in
    if p =? "" then
      (if abs then "/" else if trailingSeparator then "./" else ".")
    else
      let p := if trailingSeparator then p ++ "/" else p in
      if abs then "/" ++ p else p.

(** [path.join(...args)]: the non-empty arguments joined by [/], then
    normalized. *)
Definition join (args : list string) : string :=
  match filter (fun a => negb (a =? "")) args with
  | [] => "."
  | parts => normalize (String.concat "/" parts)
  end.

(** [path.resolve(p)] with one argument, in a process whose working
    directory is [cwd]. *)
Definition resolve (cwd : string) (p : string) : string :=
  let '(resolvedPath, resolvedAbsolute) :=
    if p =? "" then (cwd ++ "/", isAbsolute cwd)
    else if isAbsolute p then (p ++ "/", true)
    else if cwd =? "" then (p ++ "/", false)
    else (cwd ++ "/" ++ p ++ "/", isAbsolute cwd) in
  let r := normalizeString resolvedPath (negb resolvedAbsolute) in
  if resolvedAbsolute then "/" ++ r
  else if r =? "" then "." else r.

(** The last segment of a path, trailing separators ignored
    ([path.basename] without a suffix argument). *)
Definition basename (path : string) : string :=
  match filter (fun s => negb (s =? "")) (rev (split "/" path)) with
  | [] => ""
  | b :: _ => b
  end.

(** [path.dirname]: trailing separators are dropped, then the last
    segment and the separator before it. *)
Fixpoint dropTrailing (l : list ascii) : list ascii :=
  match l with
  | c :: l' => if Ascii.eqb c "/" then dropTrailing l' else l
  | [] => []
  end.

Fixpoint dropSegment (l : list ascii) : option (list ascii) :=
  match l with
  | [] => None
  | c :: l' => if Ascii.eqb c "/" then Some l' else dropSegment l'
  end.

Definition dirname (path : string) : string :=
  match chars path with
  | [] => "."
  | first :: rest =>
      let hasRoot := Ascii.eqb first "/" in
      (* the scan runs from the last character down to index 1 *)
      match dropSegment (dropTrailing (rev rest)) with
      | None => if hasRoot then "/" else "."
      | Some kept =>
          if hasRoot && match kept with [] => true | _ => false end
          then "//"
          else ofChars (first :: rev kept)
      end
  end.

(** Index-free rendering of [path.extname]: the part of the base name
    from its last dot on, empty when there is no dot, when the dot opens
    the base name, or when the base name is [..]. *)
Fixpoint afterLastDot (l : list ascii) (acc : list ascii)
  : option (list ascii * list ascii) :=
  (* [l] is the base name reversed; returns (extension, what precedes it) *)
  match l with
  | [] => None
  | c :: l' =>
      if Ascii.eqb c "." then Some (c :: acc, rev l')
      else afterLastDot l' (c :: acc)
  end.

Definition extname (path : string) : string :=
  let base := basename path in
  match afterLastDot (rev (chars base)) [] with
  | None => ""
  | Some (ext, before) =>
      match before with
      | [] => ""
      | _ => if base =? ".." then "" else ofChars ext
      end
  end.

End Path.


(** ** UTF-8 as [fs.readFile(p, 'utf8')] and [fs.writeFile(p, s, 'utf8')] use it

    A JavaScript string is a sequence of UTF-16 code units.  Writing pairs
    surrogates into code points (a lone surrogate is written as U+FFFD) and
    encodes them; reading decodes with replacement: a malformed sequence
    never raises, it yields U+FFFD. *)

Module Utf8.
Local Open Scope Z_scope.

Definition replacement : Z := 0xFFFD.

Definition isHigh (u : Z) : bool := (0xD800 <=? u) && (u <=? 0xDBFF).
Definition isLow (u : Z) : bool := (0xDC00 <=? u) && (u <=? 0xDFFF).

Fixpoint codePoints (s : list Z) : list Z :=
  match s with
  | [] => []
  | u :: s' =>
      if isHigh u then
        match s' with
        | l :: s'' =>
            if isLow l
            then (0x10000 + (u - 0xD800) * 1024 + (l - 0xDC00)) :: codePoints s''
            else replacement :: codePoints s'
        | [] => [replacement]
        end
      else if isLow u then replacement :: codePoints s'
      else u :: codePoints s'
  end.

Definition encodeCodePoint (c : Z) : list Z :=
  if c <? 0x80 then [c]
  else if c <? 0x800 then [0xC0 + c / 64; 0x80 + c mod 64]
  else if c <? 0x10000 then
    [0xE0 + c / 4096; 0x80 + (c / 64) mod 64; 0x80 + c mod 64]
  else
    [0xF0 + c / 262144; 0x80 + (c / 4096) mod 64;
     0x80 + (c / 64) mod 64; 0x80 + c mod 64].

Definition encode (s : list Z) : list Z :=
  flat_map encodeCodePoint (codePoints s).

(** Decoder state: the code point under construction, the number of
    continuation bytes still expected, and the range allowed for the
    next one. *)
Record State := mkState { cp : Z; needed : nat; lower : Z; upper : Z }.

Definition init : State := mkState 0 0 0x80 0xBF.

Definition between (lo hi b : Z) : bool := (lo <=? b) && (b <=? hi).

(** A byte met while no sequence is open. *)
Definition lead (b : Z) : list Z * State :=
  if between 0 0x7F b then ([b], init)
  else if between 0xC2 0xDF b then ([], mkState (b - 0xC0) 1 0x80 0xBF)
  else if between 0xE0 0xEF b then
    ([], mkState (b - 0xE0) 2
                 (if b =? 0xE0 then 0xA0 else 0x80)
                 (if b =? 0xED then 0x9F else 0xBF))
  else if between 0xF0 0xF4 b then
    ([], mkState (b - 0xF0) 3
                 (if b =? 0xF0 then 0x90 else 0x80)
                 (if b =? 0xF4 then 0x8F else 0xBF))
  else ([replacement], init).

Fixpoint decodeFrom (st : State) (bytes : list Z) : list Z :=
  match bytes with
  | [] => match needed st with O => [] | S _ => [replacement] end
  | b :: rest =>
      match needed st with
      | O => let (out, st') := lead b in out ++ decodeFrom st' rest
      | S n =>
          if between (lower st) (upper st) b then
            let c := cp st * 64 + (b - 0x80) in
            match n with
            | O => c :: decodeFrom init rest
            | S _ => decodeFrom (mkState c n 0x80 0xBF) rest
            end
          else
            let (out, st') := lead b in
            replacement :: out ++ decodeFrom st' rest
      end
  end.

Definition codeUnits (c : Z) : list Z :=
  if c <? 0x10000 then [c]
  else [0xD800 + (c - 0x10000) / 1024; 0xDC00 + (c - 0x10000) mod 1024].

Definition decode (bytes : list Z) : list Z :=
  flat_map codeUnits (decodeFrom init bytes).


End Utf8.


(** ** The filesystem behind [fs.promises]

    A finite tree of regular files and directories; symbolic links and
    special files (FIFOs, sockets, devices) are left out, and nothing
    here says what the routes do on them.  [size] is what [stat] reports
    for the entry;
    [statFails] and [readFails] stand for an entry whose [stat] (resp.
    read or listing) is refused by the system.  Entries of a directory are
    kept in the order [readdir] returns them. *)

Module Fs.
Import JsString.
Local Open Scope Z_scope.

Record Meta := mkMeta {
  birthtime : Z;
  mtime : Z;
  size : Z;
  statFails : bool;
  readFails : bool
}.

Inductive Node :=
| File (m : Meta) (data : list Z)
| Dir (m : Meta) (entries : list (string * Node)).

Definition meta (n : Node) : Meta :=
  match n with File m _ | Dir m _ => m end.

Definition isDir (n : Node) : bool :=
  match n with Dir _ _ => true | _ => false end.

Definition isFile (n : Node) : bool :=
  match n with File _ _ => true | _ => false end.

Inductive Errno :=
  ENOENT | ENOTDIR | EISDIR | EEXIST | EACCES | EINVAL | ENAMETOOLONG.

Inductive Call :=
| Stat (p : string)
| Access (p : string)
| Readdir (p : string)
| ReadFile (p : string)
| WriteFile (p : string)
| Mkdir (p : string)
| Rm (p : string).

(** The machine a request runs on: the tree under [/], the calls made so
    far (oldest first), and the clock. *)
Record World := mkWorld {
  root : Node;
  log : list Call;
  clock : nat -> Z;
  tick : nat
}.

Fixpoint assoc (k : string) (es : list (string * Node)) : option Node :=
  match es with
  | [] => None
  | (k', n) :: es' => if (k' =? k)%string then Some n else assoc k es'
  end.

Fixpoint update (k : string) (n : Node) (es : list (string * Node))
  : list (string * Node) :=
  match es with
  | [] => []
  | (k', n') :: es' =>
      if (k' =? k)%string then (k', n) :: es' else (k', n') :: update k n es'
  end.

Fixpoint remove (k : string) (es : list (string * Node))
  : list (string * Node) :=
  match es with
  | [] => []
  | (k', n') :: es' =>
      if (k' =? k)%string then es' else (k', n') :: remove k es'
  end.

Fixpoint lookup (n : Node) (p : list string) : option Node :=
  match p with
  | [] => Some n
  | c :: p' =>
      match n with
      | Dir _ es =>
          match assoc c es with
          | Some n' => lookup n' p'
          | None => None
          end
      | _ => None
      end
  end.

(** The walk the system does on a path: its segments from [/], and
    whether it ends in a separator (then only a directory matches). *)
Definition segments (path : string) : list string :=
  Path.normalizeSegments false path.

Definition trailing (path : string) : bool := endsWithChar "/" path.

(** The names the system takes.  A path is handed over in UTF-8, where
    a character from 128 on takes two bytes; Node refuses a path that
    holds a NUL character ([ERR_INVALID_ARG_VALUE]), and the system one
    with a component of more than [nameMax] bytes, or of [pathMax]
    bytes or more in all ([ENAMETOOLONG]). *)
Definition nameMax : nat := 255%nat.
Definition pathMax : nat := 4096%nat.

Definition charBytes (c : ascii) : nat :=
  if (code c <? 128)%nat then 1%nat else 2%nat.

Definition nameBytes (s : string) : nat :=
  fold_right (fun c n => (charBytes c + n)%nat) 0%nat (chars s).

Definition hasNul (s : string) : bool :=
  existsb (fun c => (code c =? 0)%nat) (chars s).

Definition tooLong (path : string) : bool :=
  existsb (fun seg => (nameMax <? nameBytes seg)%nat) (split "/" path)
  || (pathMax <=? nameBytes path)%nat.

Definition pathError (path : string) : option Errno :=
  if hasNul path then Some EINVAL
  else if tooLong path then Some ENAMETOOLONG
  else None.

Definition find (r : Node) (path : string) : Node + Errno :=
  match lookup r (segments path) with
  | None => inr ENOENT
  | Some n =>
      if trailing path && negb (isDir n) then inr ENOTDIR else inl n
  end.

Definition fresh (now sz : Z) : Meta := mkMeta now now sz false false.

Definition touch (now : Z) (m : Meta) : Meta :=
  mkMeta (birthtime m) now (size m) (statFails m) (readFails m).

(** Size reported for a directory that was just created. *)
Definition newDirSize : Z := 4096.

Fixpoint mkchain (now : Z) (p : list string) : Node :=
  Dir (fresh now newDirSize)
      match p with
      | [] => []
      | c :: p' => [(c, mkchain now p')]
      end.

(** [mkdir -p]: existing directories on the way are kept, missing ones
    are created; a non-directory on the way is an error. *)
Fixpoint mkdirp (now : Z) (n : Node) (p : list string) : option Node :=
  match p with
  | [] => if isDir n then Some n else None
  | c :: p' =>
      match n with
      | Dir m es =>
          match assoc c es with
          | Some n' =>
              match mkdirp now n' p' with
              | Some n'' => Some (Dir m (update c n'' es))
              | None => None
              end
          | None => Some (Dir (touch now m) (es ++ [(c, mkchain now p')]))
          end
      | _ => None
      end
  end.

(** [mkdir -p] goes down the path and makes what is missing as it
    goes.  A NUL character or a length of [pathMax] bytes or more is
    refused before anything is made; a component of more than
    [nameMax] bytes is found only when the walk comes to it, and the
    directories missing before it, the ones on the way to [reach],
    have been made by then. *)
Definition long (seg : string) : bool := (nameMax <? nameBytes seg)%nat.

Fixpoint reach (segs : list string) : list string :=
  match segs with
  | [] => []
  | c :: rest => if long c then [] else c :: reach rest
  end.

(** The tree a refused [mkdir -p] leaves. *)
Definition madeBefore (now : Z) (r : Node) (path : string) : Node :=
  if hasNul path || (pathMax <=? nameBytes path)%nat then r
  else match mkdirp now r (reach (segments path)) with
       | Some r' => r'
       | None => r
       end.

(** Writing a whole file: the parent must be a directory; an existing
    regular file is replaced, a missing one is created. *)
Fixpoint writeAt (now : Z) (data : list Z) (n : Node) (p : list string)
  : Node + Errno :=
  match p with
  | [] =>
      match n with
      | File m _ =>
          inl (File (mkMeta (birthtime m) now (Z.of_nat (List.length data))
                            (statFails m) (readFails m)) data)
      | Dir _ _ => inr EISDIR
      end
  | c :: p' =>
      match n with
      | Dir m es =>
          match assoc c es with
          | Some n' =>
              match writeAt now data n' p' with
              | inl n'' => inl (Dir m (update c n'' es))
              | inr e => inr e
              end
          | None =>
              match p' with
              | [] =>
                  inl (Dir (touch now m)
                           (es ++ [(c, File (fresh now (Z.of_nat (List.length data)))
                                             data)]))
              | _ :: _ => inr ENOENT
              end
          end
      | _ => inr ENOTDIR
      end
  end.

(** [rm -rf]: the entry and everything below it goes; a missing entry is
    not an error. *)
Fixpoint removeAt (now : Z) (n : Node) (p : list string) : Node :=
  match p with
  | [] => n
  | c :: p' =>
      match n with
      | Dir m es =>
          match assoc c es with
          | Some n' =>
              match p' with
              | [] => Dir (touch now m) (remove c es)
              | _ :: _ => Dir m (update c (removeAt now n' p') es)
              end
          | None => n
          end
      | _ => n
      end
  end.

End Fs.

(** ** Requests as computations over the machine

    An [async] route is a computation that runs its [fs] calls in order
    and either returns or throws. *)

Module Async.
Import Fs.

Definition M (A : Type) : Type := World -> (A + Errno) * World.

Definition ret {A} (a : A) : M A := fun w => (inl a, w).
Definition throw {A} (e : Errno) : M A := fun w => (inr e, w).

Definition bind {A B} (m : M A) (k : A -> M B) : M B :=
  fun w =>
    match m w with
    | (inl a, w') => k a w'
    | (inr e, w') => (inr e, w')
    end.

(** [try { m } catch (e) { h e }] *)
Definition tryCatch {A} (m : M A) (h : Errno -> M A) : M A :=
  fun w =>
    match m w with
    | (inl a, w') => (inl a, w')
    | (inr e, w') => h e w'
    end.

Definition record (c : Call) : M unit :=
  fun w => (inl tt, mkWorld (root w) (log w ++ [c]) (clock w) (tick w)).

(** [new Date()], and the time stamp the system puts on a change. *)
Definition now : M Z :=
  fun w => (inl (clock w (tick w)),
            mkWorld (root w) (log w) (clock w) (S (tick w))).

Definition getRoot : M Node := fun w => (inl (root w), w).

Definition setRoot (r : Node) : M unit :=
  fun w => (inl tt, mkWorld r (log w) (clock w) (tick w)).

Definition lift {A} (r : A + Errno) : M A :=
  match r with inl a => ret a | inr e => throw e end.

End Async.

Declare Scope async_scope.
Delimit Scope async_scope with async.
Notation "x <- m ;; k" := (Async.bind m (fun x => k))
  (at level 61, m at next level, right associativity) : async_scope.
Notation "m ;;; k" := (Async.bind m (fun _ => k))
  (at level 61, right associativity) : async_scope.

(** ** [fs.promises] *)

Module FsPromises.
Import JsString Fs Async.
Local Open Scope async_scope.
Local Open Scope Z_scope.

Record Stats := mkStats {
  isDirectory : bool;
  st_size : Z;
  st_mtime : Z;
  st_birthtime : Z
}.

Definition statsOf (n : Node) : Stats :=
  mkStats (isDir n) (size (meta n)) (mtime (meta n)) (birthtime (meta n)).

(** What [stat] answers once the walk has reached entry [n]. *)
Definition statNode (n : Node) : M Stats :=
  if statFails (meta n) then throw EACCES else ret (statsOf n).

Definition stat (p : string) : M Stats :=
  record (Stat p) ;;;
  r <- getRoot ;;
  n <- lift (find r p) ;;
  statNode n.

(** [access(p)] succeeds where [stat(p)] does. *)
Definition access (p : string) : M unit :=
  record (Access p) ;;;
  r <- getRoot ;;
  n <- lift (find r p) ;;
  _ <- statNode n ;;
  ret tt.

(** [readdir(p, { withFileTypes: true })]: the entries of the directory,
    each with the entry it names. *)
Definition readdirNode (n : Node) : M (list (string * Node)) :=
  match n with
  | Dir m es => if readFails m then throw EACCES else ret es
  | _ => throw ENOTDIR
  end.

Definition readdir (p : string) : M (list (string * Node)) :=
  record (Readdir p) ;;;
  r <- getRoot ;;
  n <- lift (find r p) ;;
  readdirNode n.

(** [readFile(p, 'utf8')] *)
Definition readFile (p : string) : M (list Z) :=
  record (ReadFile p) ;;;
  r <- getRoot ;;
  n <- lift (find r p) ;;
  match n with
  | File m data => if readFails m then throw EACCES else ret (Utf8.decode data)
  | Dir _ _ => throw EISDIR
  end.

(** What [open], and [mkdir] without [recursive], answer to a path the
    system does not take: nothing is made. *)
Definition checkPath (p : string) : M unit :=
  match pathError p with
  | Some e => throw e
  | None => ret tt
  end.

(** [writeFile(p, s, 'utf8')] for a string [s] *)
Definition writeFile (p : string) (s : list Z) : M unit :=
  record (WriteFile p) ;;;
  r <- getRoot ;;
  t <- now ;;
  checkPath p ;;;
  if trailing p then throw EISDIR
  else
    r' <- lift (writeAt t (Utf8.encode s) r (segments p)) ;;
    setRoot r'.

(** [writeFile(p, data, 'utf8')] for an array [data]: the file is opened,
    and so made or emptied, before the elements are looked at; each
    element is then written as the bytes [Buffer.from] makes of it, and
    the first one it refuses ends the call with what came before
    written.  [chunks] holds the bytes of each element, or nothing for
    an element that is refused. *)
Fixpoint written (chunks : list (option (list Z))) : list Z :=
  match chunks with
  | Some bytes :: rest => (bytes ++ written rest)%list
  | _ => []
  end.

Definition allTaken (chunks : list (option (list Z))) : bool :=
  forallb (fun c => match c with Some _ => true | None => false end) chunks.

Definition writeFileIterable (p : string) (chunks : list (option (list Z)))
  : M unit :=
  record (WriteFile p) ;;;
  r <- getRoot ;;
  t <- now ;;
  checkPath p ;;;
  if trailing p then throw EISDIR
  else
    r' <- lift (writeAt t (written chunks) r (segments p)) ;;
    setRoot r' ;;;
    if allTaken chunks then ret tt else throw EINVAL.

(** [mkdir(p, { recursive: true })]; a call that is refused for a
    component that is too long leaves the directories it made on the
    way there. *)
Definition mkdir (p : string) : M unit :=
  record (Mkdir p) ;;;
  r <- getRoot ;;
  t <- now ;;
  match pathError p with
  | Some e => setRoot (madeBefore t r p) ;;; throw e
  | None =>
      match mkdirp t r (segments p) with
      | Some r' => setRoot r'
      | None => throw EEXIST
      end
  end.

(** [rm(p, { recursive: true, force: true })] *)
Definition rm (p : string) : M unit :=
  record (Rm p) ;;;
  r <- getRoot ;;
  t <- now ;;
  setRoot (removeAt t r (segments p)).

End FsPromises.

(** ** [Array.prototype.sort]

    With a consistent comparator the result is the stable sorted
    arrangement, whatever algorithm the engine runs; insertion computes
    it. *)

Module JsArray.
Local Open Scope Z_scope.

Section Sort.
Context {A : Type} (compareFn : A -> A -> Z).

Fixpoint insert (x : A) (l : list A) : list A :=
  match l with
  | [] => [x]
  | y :: l' => if compareFn x y <=? 0 then x :: l else y :: insert x l'
  end.

Fixpoint sort (l : list A) : list A :=
  match l with
  | [] => []
  | x :: l' => insert x (sort l')
  end.
End Sort.

End JsArray.

(** ** HTTP values *)

Module Http.
Local Open Scope Z_scope.

(** A value found in a JSON body, as far as [typeof] and [fs.writeFile]
    tell them apart.  An array is to [typeof] an object like any other,
    but [fs.writeFile] iterates it: it stands with what [Buffer.from]
    makes of its elements in turn, the bytes, or nothing for an element
    that is refused.  [JsObject] is an object that is no array. *)
Inductive JsValue :=
| JsUndefined
| JsNull
| JsBoolean (b : bool)
| JsNumber (n : Z)
| JsString (s : list Z)
| JsArray (chunks : list (option (list Z)))
| JsObject.

(** The same for a body field that names an entry. *)
Inductive JsName :=
| NameUndefined
| NameNull
| NameBoolean (b : bool)
| NameNumber (n : Z)
| NameString (s : string)
| NameObject.

(** The double quote, for messages that quote a name. *)
Definition dq : string := String (ascii_of_nat 34) EmptyString.

Definition quoted (s : string) : string := dq ++ s ++ dq.

Inductive TreeNode := mkTreeNode {
  name : string;
  path : string;
  isDirectory : bool;
  size : Z;
  modified : Z;
  extension : option string;
  children : option (list TreeNode);
  isExpanded : option bool
}.

Record Project := mkProject {
  project_name : string;
  project_path : string;
  project_created : Z;
  project_modified : Z;
  tree : list TreeNode
}.

Record FileContent := mkFileContent {
  file_name : string;
  file_path : string;
  file_extension : string;
  file_size : Z;
  file_modified : Z;
  content : option (list Z);
  isBinary : bool;
  type : string
}.

Record FileInfo := mkFileInfo {
  info_name : string;
  info_path : string;
  info_size : Z;
  info_modified : Z;
  info_content : option JsValue
}.

Record Folder := mkFolder {
  folder_name : string;
  folder_path : string;
  created : Z;
  folder_modified : Z;
  folder_size : Z
}.

Inductive Body :=
| Failure (error : string)
| ProjectBody (project : Project)
| FileBody (file : FileContent)
| SavedBody (message : string) (file : FileInfo)
| FoldersBody (count : nat) (folders : list Folder)
| MessageBody (message : string).

(** A [Failure] carries the fixed part of the message; the text of the
    system error that some routes append is left out. *)
Record Response := mkResponse { status : Z; body : Body }.

(** [res.json(b)] and [res.status(s).json(b)] *)
Definition json (b : Body) : Response := mkResponse 200 b.
Definition statusJson (s : Z) (b : Body) : Response := mkResponse s b.

End Http.

(** ** [routes/project.js] *)

Module ProjectRoutes.
Import JsString Fs Async FsPromises Http.
Local Open Scope async_scope.
Local Open Scope Z_scope.

(** [req.app.locals.workspacePath], and the working directory of the
    process, which [path.resolve] consults for a relative path. *)
Record App := mkApp { workspacePath : string; cwd : string }.

Definition getWorkspacePath (app : App) : string := workspacePath app.

(** [/[\x00-\x08\x0E-\x1F\x7F-\x9F]/.test(content)] *)
Definition nonPrintable (u : Z) : bool :=
  Utf8.between 0x00 0x08 u || Utf8.between 0x0E 0x1F u
  || Utf8.between 0x7F 0x9F u.

Definition nonPrintableRegexTest (content : list Z) : bool :=
  existsb nonPrintable content.

(** Ten megabytes, the limit of [GET .../file/*]. *)
Definition maxFileSize : Z := 10 * 1024 * 1024.

(** The security check shared by the [/file/*] routes. *)
Definition insideProject (app : App) (projectName filePath : string) : bool :=
  let fullFilePath := Path.join [getWorkspacePath app; projectName; filePath] in
  let projectPath := Path.join [getWorkspacePath app; projectName] in
  let resolvedPath := Path.resolve (cwd app) fullFilePath in
  let resolvedProjectPath := Path.resolve (cwd app) projectPath in
  startsWith resolvedPath resolvedProjectPath.

Section Tree.
(** [String.prototype.localeCompare] of the engine's locale. *)
Variable localeCompare : string -> string -> Z.

Definition compareNodes (a b : TreeNode) : Z :=
  if isDirectory a && negb (isDirectory b) then -1
  else if negb (isDirectory a) && isDirectory b then 1
  else localeCompare (name a) (name b).

(** The [for (const item of items)] loop of [getFileTree]; [recurse]
    is [getFileTree] itself, called on the directories met. *)
Definition forEachItem
           (recurse : Node -> string -> string -> M (list TreeNode))
           (dirPath basePath : string)
  : list (string * Node) -> M (list TreeNode) :=
  fix each (items : list (string * Node)) : M (list TreeNode) :=
    match items with
    | [] => ret []
    | (itemName, item) :: rest =>
        let itemPath := Path.join [dirPath; itemName] in
        let relativePath :=
          backslashToSlash (Path.join [basePath; itemName]) in
        record (Stat itemPath) ;;;
        stats <- statNode item ;;
        let extension :=
          if isFile item then Some (Path.extname itemName) else None in
        node <-
          (if isDir item then
             sub <- recurse item itemPath relativePath ;;
             ret (mkTreeNode itemName relativePath true
                    (st_size stats) (st_mtime stats) extension
                    (Some sub) (Some false))
           else
             ret (mkTreeNode itemName relativePath false
                    (st_size stats) (st_mtime stats) extension
                    None None)) ;;
        tree <- each rest ;;
        ret (node :: tree)
    end.

(** [getFileTree(dirPath, basePath)], run where [dirPath] holds entry
    [dir]: the entries [readdir] lists are the ones [stat] and the
    recursive call then find under their joined paths. *)
Fixpoint getFileTree (dir : Node) (dirPath basePath : string) {struct dir}
  : M (list TreeNode) :=
  tryCatch
    (record (Readdir dirPath) ;;;
     match dir with
     | Dir m items =>
         if readFails m then throw EACCES
         else
           tree <- forEachItem getFileTree dirPath basePath items ;;
           ret (JsArray.sort compareNodes tree)
     | _ => throw ENOTDIR
     end)
    (fun _ => ret []).

(** [getFileTree(dirPath)] as a route calls it: the walk starts from
    whatever the path holds. *)
Definition getFileTreeAt (dirPath basePath : string) : M (list TreeNode) :=
  r <- getRoot ;;
  match find r dirPath with
  | inl dir => getFileTree dir dirPath basePath
  | inr e => tryCatch (record (Readdir dirPath) ;;; throw e) (fun _ => ret [])
  end.

(** [GET /api/project/:projectName] *)
Definition getProject (app : App) (projectName : string) : M Response :=
  tryCatch
    (let workspacePath := getWorkspacePath app in
     let projectPath := Path.join [workspacePath; projectName] in
     tryCatch
       (stats <- stat projectPath ;;
        if negb (FsPromises.isDirectory stats) then
          ret (statusJson 404
                 (Failure "Project path exists but is not a directory"))
        else
          tree <- getFileTreeAt projectPath "" ;;
          ret (json (ProjectBody
                       (mkProject projectName projectPath
                                  (st_birthtime stats) (st_mtime stats) tree))))
       (fun _ =>
          ret (statusJson 404
                 (Failure ("Project " ++ quoted projectName ++ " not found")))))
    (fun _ => ret (statusJson 500 (Failure "Failed to get project information"))).
End Tree.

Definition accessDenied : Response :=
  statusJson 403 (Failure "Access denied: File path outside project directory").

(** [GET /api/project/:projectName/file/*] *)
Definition getFile (app : App) (projectName filePath : string) : M Response :=
  tryCatch
    (let workspacePath := getWorkspacePath app in
     let fullFilePath := Path.join [workspacePath; projectName; filePath] in
     if negb (insideProject app projectName filePath) then ret accessDenied
     else
       tryCatch
         (stats <- stat fullFilePath ;;
          if FsPromises.isDirectory stats then
            ret (statusJson 400 (Failure "Path is a directory, not a file"))
          else if st_size stats >? maxFileSize then
            ret (statusJson 413 (Failure "File too large to display (>10MB)"))
          else
            read <-
              tryCatch
                (content <- readFile fullFilePath ;;
                 if nonPrintableRegexTest content then ret (None, true)
                 else ret (Some content, false))
                (fun _ => ret (None, true)) ;;
            let '(content, isBinary) := read in
            ret (json (FileBody
                         (mkFileContent (Path.basename fullFilePath)
                            (backslashToSlash filePath)
                            (Path.extname fullFilePath)
                            (st_size stats) (st_mtime stats)
                            content isBinary
                            (if isBinary then "binary" else "text")))))
         (fun _ =>
            ret (statusJson 404
                   (Failure ("File " ++ quoted filePath ++ " not found")))))
    (fun _ => ret (statusJson 500 (Failure "Failed to read file"))).

(** [PUT /api/project/:projectName/file/*] *)
Definition putFile (app : App) (projectName filePath : string)
           (content : JsValue) : M Response :=
  tryCatch
    (let workspacePath := getWorkspacePath app in
     let fullFilePath := Path.join [workspacePath; projectName; filePath] in
     if negb (insideProject app projectName filePath) then ret accessDenied
     else
       match content with
       | JsString text =>
           let dir := Path.dirname fullFilePath in
           mkdir dir ;;;
           writeFile fullFilePath text ;;;
           stats <- stat fullFilePath ;;
           ret (json (SavedBody "File saved successfully"
                        (mkFileInfo (Path.basename fullFilePath)
                           (backslashToSlash filePath)
                           (st_size stats) (st_mtime stats) None)))
       | _ => ret (statusJson 400 (Failure "Content must be a string"))
       end)
    (fun _ => ret (statusJson 500 (Failure "Failed to save file"))).

(** [fs.writeFile(p, content, 'utf8')] on a value of the body: a string
    is written, an array iterated, and anything else refused before the
    file is opened. *)
Definition writeFileValue (p : string) (content : JsValue) : M unit :=
  match content with
  | JsString text => writeFile p text
  | JsArray chunks => writeFileIterable p chunks
  | _ => throw EINVAL
  end.

(** [POST /api/project/:projectName/file/*]; [content] defaults to the
    empty string when the body has none. *)
Definition postFile (app : App) (projectName filePath : string)
           (bodyContent : JsValue) : M Response :=
  tryCatch
    (let content :=
       match bodyContent with JsUndefined => JsString [] | v => v end in
     let workspacePath := getWorkspacePath app in
     let fullFilePath := Path.join [workspacePath; projectName; filePath] in
     if negb (insideProject app projectName filePath) then ret accessDenied
     else
       exists_ <- tryCatch (access fullFilePath ;;; ret true)
                           (fun _ => ret false) ;;
       if (exists_ : bool) then
         ret (statusJson 409 (Failure "File already exists"))
       else
         let dir := Path.dirname fullFilePath in
         mkdir dir ;;;
         writeFileValue fullFilePath content ;;;
         stats <- stat fullFilePath ;;
         ret (statusJson 201
                (SavedBody "File created successfully"
                   (mkFileInfo (Path.basename fullFilePath)
                      (backslashToSlash filePath)
                      (st_size stats) (st_mtime stats) (Some content)))))
    (fun _ => ret (statusJson 500 (Failure "Failed to create file"))).

End ProjectRoutes.

(** ** [routes/folders.js] *)

Module FolderRoutes.
Import JsString Fs Async FsPromises Http.
Import ProjectRoutes.
Local Open Scope async_scope.

(** Characters are code units below 256 (Latin-1). *)

(** The class of characters no folder name may hold: angle brackets,
    colon, double quote, slash, backslash, bar, question mark, star. *)
Definition invalidChar (c : ascii) : bool :=
  existsb (Ascii.eqb c)
          ["<"; ">"; ":"; ascii_of_nat 34; "/"; "\"; "|"; "?"; "*"]%char.

(** [\s]: tab, line feed, vertical tab, form feed, carriage return,
    space, no-break space. *)
Definition isSpace (c : ascii) : bool :=
  existsb (Nat.eqb (code c)) [9; 10; 11; 12; 13; 32; 160]%nat.

(** [s.replace(/\s+/g, '-')] *)
Fixpoint spacesToHyphen (inRun : bool) (l : list ascii) : list ascii :=
  match l with
  | [] => []
  | c :: l' =>
      if isSpace c
      then (if inRun then spacesToHyphen true l'
            else "-"%char :: spacesToHyphen true l')
      else c :: spacesToHyphen false l'
  end.

(** [toLowerCase] on one code unit below 256.  A name is a string of
    such code units throughout, and on these lowercasing maps unit to
    unit; what it does above this range, where one unit can become two,
    is not covered. *)
Definition lowerChar (c : ascii) : ascii :=
  let n := code c in
  if ((65 <=? n) && (n <=? 90))%nat
     || ((192 <=? n) && (n <=? 222) && negb (n =? 215))%nat
  then ascii_of_nat (n + 32)
  else c.

Definition toLowerCase (s : string) : string :=
  ofChars (map lowerChar (chars s)).

Fixpoint trimStart (l : list ascii) : list ascii :=
  match l with
  | c :: l' => if isSpace c then trimStart l' else l
  | [] => []
  end.

Definition trim (s : string) : string :=
  ofChars (rev (trimStart (rev (trimStart (chars s))))).

Definition sanitizeFolderName (name : string) : string :=
  trim
    (toLowerCase
       (ofChars
          (spacesToHyphen false
             (filter (fun c => negb (invalidChar c)) (chars name))))).

Inductive Validation :=
| Invalid (error : string)
| Valid (sanitized : string).

Definition reserved : list string :=
  ["con"; "prn"; "aux"; "nul";
   "com1"; "com2"; "com3"; "com4"; "com5"; "com6"; "com7"; "com8"; "com9";
   "lpt1"; "lpt2"; "lpt3"; "lpt4"; "lpt5"; "lpt6"; "lpt7"; "lpt8"; "lpt9"].

(** [reserved.includes(s)] *)
Definition includes (l : list string) (s : string) : bool :=
  existsb (String.eqb s) l.

Definition validateFolderName (name : JsName) : Validation :=
  match name with
  | NameString s =>
      if s =? "" then Invalid "Folder name is required and must be a string"
      else
        let sanitized := sanitizeFolderName s in
        if (sanitized =? "") || (String.length sanitized =? 0)%nat
        then Invalid "Invalid folder name"
        else if (50 <? String.length sanitized)%nat
        then Invalid "Folder name too long (max 50 characters)"
        else if includes reserved (toLowerCase sanitized)
        then Invalid "Reserved folder name not allowed"
        else Valid sanitized
  | _ => Invalid "Folder name is required and must be a string"
  end.

Local Open Scope Z_scope.

(** The loop of [GET /api/folders] over the entries of the workspace. *)
Fixpoint collectFolders (workspacePath : string)
         (items : list (string * Node)) : M (list Folder) :=
  match items with
  | [] => ret []
  | (itemName, item) :: rest =>
      if isDir item then
        folder <-
          tryCatch
            (let folderPath := Path.join [workspacePath; itemName] in
             stats <- stat folderPath ;;
             ret (mkFolder itemName folderPath (st_birthtime stats)
                           (st_mtime stats) (st_size stats)))
            (fun _ =>
               created <- now ;;
               modified <- now ;;
               ret (mkFolder itemName (Path.join [workspacePath; itemName])
                             created modified 0)) ;;
        folders <- collectFolders workspacePath rest ;;
        ret (folder :: folders)
      else collectFolders workspacePath rest
  end.

(** [(a, b) => new Date(b.created) - new Date(a.created)] *)
Definition newestFirst (a b : Folder) : Z := created b - created a.

(** [GET /api/folders] *)
Definition listFolders (app : App) : M Response :=
  tryCatch
    (let workspacePath := getWorkspacePath app in
     items <- readdir workspacePath ;;
     folders <- collectFolders workspacePath items ;;
     let folders := JsArray.sort newestFirst folders in
     ret (json (FoldersBody (List.length folders) folders)))
    (fun _ => ret (statusJson 500 (Failure "Failed to read workspace directory"))).

(** [DELETE /api/folders/:folderName] *)
Definition deleteFolder (app : App) (folderName : string) : M Response :=
  tryCatch
    (let workspacePath := getWorkspacePath app in
     let folderPath := Path.join [workspacePath; folderName] in
     early <-
       tryCatch
         (stats <- stat folderPath ;;
          if negb (FsPromises.isDirectory stats) then
            ret (Some (statusJson 400 (Failure "Path exists but is not a folder")))
          else ret None)
         (fun _ =>
            ret (Some (statusJson 404
                         (Failure ("Folder " ++ quoted folderName ++ " not found"))))) ;;
     match early with
     | Some response => ret response
     | None =>
         rm folderPath ;;;
         ret (json (MessageBody
                      ("Folder " ++ quoted folderName ++ " deleted successfully")))
     end)
    (fun _ => ret (statusJson 500 (Failure "Failed to delete folder"))).

End FolderRoutes.


(** ** Sample machines

    A server whose workspace is [/srv/Workspace], next to a file
    [/srv/secret.txt] that is no part of it. *)

Module Sample.
Import Fs Http.
Local Open Scope Z_scope.

Definition dirMeta : Meta := mkMeta 100 200 4096 false false.

Definition file (data : list Z) : Node :=
  File (mkMeta 100 200 (Z.of_nat (List.length data)) false false) data.

(** [a.txt] holds "a" and a line feed, [b.txt] one byte 0x01. *)
Definition proj : Node :=
  Dir dirMeta [("b.txt", file [1]); ("A", Dir dirMeta []); ("a.txt", file [97; 10])].

Definition proj2 : Node := Dir dirMeta [("x.txt", file [120])].

Definition workspace : Node := Dir dirMeta [("proj", proj); ("proj2", proj2)].

Definition tree : Node :=
  Dir dirMeta
      [("srv", Dir dirMeta [("secret.txt", file [104; 105]);
                            ("Workspace", workspace)])].

Definition clock (n : nat) : Z := 1000 + Z.of_nat n.

Definition world : World := mkWorld tree [] clock 0.

Definition app : ProjectRoutes.App := ProjectRoutes.mkApp "/srv/Workspace" "/".

(** A name with a NUL character in it, and a name of 300 bytes. *)
Definition nulName : string := String "a" (String Ascii.zero "b").

Definition longName : string :=
  string_of_list_ascii (List.repeat "a"%char 300).

(** Code-unit order, the comparison of a locale without tailoring. *)
Definition codeUnitCompare (a b : string) : Z :=
  match String.compare a b with
  | Lt => -1
  | Eq => 0
  | Gt => 1
  end.

(** A workspace with three projects; [stat] is refused on [locked]. *)
Definition folders : Node :=
  Dir dirMeta
      [("srv",
        Dir dirMeta
            [("Workspace",
              Dir dirMeta
                  [("alpha", Dir (mkMeta 300 310 4096 false false) []);
                   ("notes.txt", file [110]);
                   ("locked", Dir (mkMeta 50 60 4096 true false) []);
                   ("beta", Dir (mkMeta 700 710 4096 false false) [])])])].

Definition foldersWorld : World := mkWorld folders [] clock 0.

(** A file for which [stat] reports one byte more than ten megabytes. *)
Definition big : Node :=
  Dir dirMeta
      [("srv",
        Dir dirMeta
            [("Workspace",
              Dir dirMeta
                  [("proj",
                    Dir dirMeta
                        [("huge.bin",
                          File (mkMeta 100 200 (10 * 1024 * 1024 + 1) false false)
                               [0; 1; 2]);
                         ("sub", Dir dirMeta [])])])])].

Definition bigWorld : World := mkWorld big [] clock 0.

End Sample.

(** ** Vocabulary of the properties *)

Module FolderNameSpec.
Import JsString Http FolderRoutes.

(** What a kept character looks like once lowercased. *)
Definition clean (c : ascii) : Prop :=
  invalidChar c = false /\ isSpace c = false /\ lowerChar c = c.

(** A name no character of which is stripped or replaced. *)
Definition plainName (s : string) : bool :=
  forallb (fun c => negb (invalidChar c) && negb (isSpace c)) (chars s).

(** The claim as the specification words it. *)
Definition sanitizesAsSpecified : Prop :=
  sanitizeFolderName "My Project!!" = "my-project".

End FolderNameSpec.

Module RunSpec.
Import JsString Fs Async FsPromises Http.
Local Open Scope Z_scope.

(** The machine after one more call has been logged. *)
Definition logged (c : Call) (w : World) : World :=
  mkWorld (root w) (log w ++ [c]) (clock w) (tick w).

(** What [stat] answers on tree [r]. *)
Definition statOutcome (r : Node) (p : string) : Stats + Errno :=
  match find r p with
  | inl n => if statFails (meta n) then inr EACCES else inl (statsOf n)
  | inr e => inr e
  end.

(** A folder of the listing, against the entry it stands for. *)
Definition folderOf (w : World) (workspacePath itemName : string)
           (f : Folder) : Prop :=
  folder_name f = itemName
  /\ folder_path f = Path.join [workspacePath; itemName]
  /\ match statOutcome (root w) (Path.join [workspacePath; itemName]) with
     | inl stats =>
         created f = st_birthtime stats
         /\ folder_modified f = st_mtime stats
         /\ folder_size f = st_size stats
     | inr _ =>
         folder_size f = 0
         /\ exists i, (tick w <= i)%nat
                      /\ created f = clock w i
                      /\ folder_modified f = clock w (S i)
     end.

Definition directoryNames (items : list (string * Node)) : list string :=
  map fst (filter (fun e => isDir (snd e)) items).

End RunSpec.

Module TreeSpec.
Import JsString Fs Http ProjectRoutes.
Local Open Scope Z_scope.

(** Induction on the filesystem tree, entries of a directory included. *)
Section NodeInduction.
Variable P : Node -> Prop.
Hypothesis onFile : forall m data, P (File m data).
Hypothesis onDir :
  forall m es, Forall (fun e => P (snd e)) es -> P (Dir m es).

Fixpoint Node_induction (n : Node) : P n :=
  match n with
  | File m data => onFile m data
  | Dir m es =>
      onDir m es
            ((fix all (es : list (string * Node))
              : Forall (fun e => P (snd e)) es :=
                match es with
                | [] => Forall_nil _
                | e :: es' => Forall_cons e (Node_induction (snd e)) (all es')
                end) es)
  end.
End NodeInduction.

Section Order.
Variable localeCompare : string -> string -> Z.

Definition byName (a b : TreeNode) : Prop :=
  localeCompare (name a) (name b) <= 0.

(** One level of the listing: the directories, in order of name, then
    the other entries, in order of name. *)
Definition levelOrdered (l : list TreeNode) : Prop :=
  exists ds fs,
    l = (ds ++ fs)%list
    /\ Forall (fun n => isDirectory n = true) ds
    /\ Forall (fun n => isDirectory n = false) fs
    /\ StronglySorted byName ds
    /\ StronglySorted byName fs.
End Order.

(** [P] holds of the children of [n] and of the children of every node
    below it. *)
Fixpoint everyLevel (P : list TreeNode -> Prop) (n : TreeNode) : Prop :=
  match n with
  | mkTreeNode _ _ _ _ _ _ (Some c) _ =>
      P c /\ (fix all (l : list TreeNode) : Prop :=
                match l with
                | [] => True
                | x :: l' => everyLevel P x /\ all l'
                end) c
  | _ => True
  end.

(** A listing every level of which is in order. *)
Definition orderedListing (localeCompare : string -> string -> Z)
           (_ : Node) (_ : string) (t : list TreeNode) : Prop :=
  levelOrdered localeCompare t
  /\ Forall (everyLevel (levelOrdered localeCompare)) t.

(** The fields of the node built for entry [item], named [itemName], of
    a directory listed under [basePath]. *)
Definition fieldsOf (item : Node) (basePath itemName : string)
           (n : TreeNode) : Prop :=
  name n = itemName
  /\ path n = backslashToSlash (Path.join [basePath; itemName])
  /\ isDirectory n = isDir item
  /\ size n = Fs.size (meta item)
  /\ modified n = mtime (meta item)
  /\ extension n = (if isFile item then Some (Path.extname itemName) else None)
  /\ isExpanded n = (if isDir item then Some false else None)
  /\ (isDir item = false -> children n = None).



(** What the loop of [getFileTree] hands on for one entry, [Q] being
    what is known of the listing of a sub-directory. *)
Definition builtFrom (Q : Node -> string -> list TreeNode -> Prop)
           (basePath : string) (e : string * Node) (n : TreeNode) : Prop :=
  fieldsOf (snd e) basePath (fst e) n
  /\ (isDir (snd e) = true ->
      exists c, children n = Some c /\ Q (snd e) (path n) c).



End TreeSpec.

Module ReadSpec.
Import JsString Fs Async FsPromises Http ProjectRoutes.
Local Open Scope Z_scope.

(** What [readFile(p, 'utf8')] answers on tree [r]. *)
Definition readOutcome (r : Node) (p : string) : list Z + Errno :=
  match find r p with
  | inl (File m data) =>
      if readFails m then inr EACCES else inl (Utf8.decode data)
  | inl (Dir _ _) => inr EISDIR
  | inr e => inr e
  end.



(** The full path a [/file/*] route works on. *)
Definition fullFilePath (app : App) (projectName filePath : string) : string :=
  Path.join [getWorkspacePath app; projectName; filePath].

End ReadSpec.

Module PathSpec.
Import JsString.

Fixpoint noSlash (s : string) : bool :=
  match s with
  | EmptyString => true
  | String c s' => negb (Ascii.eqb c "/") && noSlash s'
  end.

(** A segment that names an entry: not empty, not [.] or [..], without
    separator. *)
Definition entryName (s : string) : bool :=
  negb (s =? "") && negb (s =? ".") && negb (s =? "..") && noSlash s.

(** The absolute path made of segments [segs], with a separator at the
    end when [slash] is set. *)
Definition absolutePath (segs : list string) (slash : bool) : string :=
  match segs with
  | [] => "/"
  | _ => "/" ++ String.concat "/" segs ++ (if slash then "/" else "")
  end.

End PathSpec.

Module Utf8Spec.
Local Open Scope Z_scope.


End Utf8Spec.

Module WriteSpec.
Import JsString Fs Async FsPromises Http ProjectRoutes RunSpec.
Local Open Scope Z_scope.



(** The machine after [mkdir] then [writeFile] then [stat] have run on
    it and left tree [r]. *)
Definition afterWrite (w : World) (r : Node) (dir full : string) : World :=
  mkWorld r (log w ++ [Mkdir dir; WriteFile full; Stat full])
          (clock w) (S (S (tick w))).



End WriteSpec.

(** ** The remaining [fs.promises] calls *)

Module FsMore.
Import JsString Fs Async FsPromises.
Local Open Scope async_scope.
Local Open Scope Z_scope.

(** A new entry [new] put at [p]: the parent must be a directory and
    nothing may sit at [p] yet. *)
Fixpoint insertAt (now : Z) (new : Node) (n : Node) (p : list string)
  : Node + Errno :=
  match p with
  | [] => inr EEXIST
  | c :: p' =>
      match n with
      | Dir m es =>
          match assoc c es with
          | Some n' =>
              match insertAt now new n' p' with
              | inl n'' => inl (Dir m (update c n'' es))
              | inr e => inr e
              end
          | None =>
              match p' with
              | [] => inl (Dir (touch now m) (es ++ [(c, new)]))
              | _ :: _ => inr ENOENT
              end
          end
      | _ => inr ENOTDIR
      end
  end.

(** [mkdir(p, { recursive: false })] *)
Definition mkdirPlain (p : string) : M unit :=
  record (Mkdir p) ;;;
  r <- getRoot ;;
  t <- now ;;
  checkPath p ;;;
  r' <- lift (insertAt t (Dir (fresh t newDirSize) []) r (segments p)) ;;
  setRoot r'.

(** [writeFile(p, s, { flag: 'wx' })]: the file is created, never
    replaced. *)
Definition writeFileExclusive (p : string) (s : list Z) : M unit :=
  record (WriteFile p) ;;;
  r <- getRoot ;;
  t <- now ;;
  checkPath p ;;;
  if trailing p then throw EISDIR
  else
    let data := Utf8.encode s in
    r' <- lift (insertAt t (File (fresh t (Z.of_nat (List.length data))) data)
                         r (segments p)) ;;
    setRoot r'.

(** [unlink(p)]: one entry that is no directory goes.  The call is
    logged as the removal it is. *)
Definition unlink (p : string) : M unit :=
  record (Rm p) ;;;
  r <- getRoot ;;
  t <- now ;;
  n <- lift (find r p) ;;
  if isDir n then throw EISDIR
  else setRoot (removeAt t r (segments p)).

End FsMore.

(** ** The other routes of [routes/project.js] *)

Module ProjectRoutesMore.
Import JsString Fs Async FsPromises FsMore Http ProjectRoutes.
Local Open Scope async_scope.
Local Open Scope Z_scope.

(** [DELETE /api/project/:projectName/file/*] *)
Definition deleteFile (app : App) (projectName filePath : string) : M Response :=
  tryCatch
    (let workspacePath := getWorkspacePath app in
     let fullFilePath := Path.join [workspacePath; projectName; filePath] in
     if negb (insideProject app projectName filePath) then ret accessDenied
     else
       tryCatch
         (stats <- stat fullFilePath ;;
          (if FsPromises.isDirectory stats then rm fullFilePath
           else unlink fullFilePath) ;;;
          ret (json (MessageBody
                       ((if FsPromises.isDirectory stats then "Directory" else "File")
                          ++ " deleted successfully"))))
         (fun _ =>
            ret (statusJson 404
                   (Failure ("File or directory " ++ quoted filePath
                                                  ++ " not found")))))
    (fun _ => ret (statusJson 500 (Failure "Failed to delete file or directory"))).

(** The [folder] of the answer of [POST .../folder/*]. *)
Record FolderInfo := mkFolderInfo {
  created_name : string;
  created_path : string;
  created_modified : Z
}.

Inductive FolderBody :=
| FolderFailure (error : string)
| FolderCreated (message : string) (folder : FolderInfo).

Record FolderResponse := mkFolderResponse {
  folderStatus : Z;
  folderBody : FolderBody
}.

(** [POST /api/project/:projectName/folder/*] *)
Definition postFolder (app : App) (projectName folderPath : string)
  : M FolderResponse :=
  tryCatch
    (let workspacePath := getWorkspacePath app in
     let fullFolderPath := Path.join [workspacePath; projectName; folderPath] in
     if negb (insideProject app projectName folderPath) then
       ret (mkFolderResponse 403
              (FolderFailure "Access denied: Folder path outside project directory"))
     else
       exists_ <- tryCatch (access fullFolderPath ;;; ret true)
                           (fun _ => ret false) ;;
       if (exists_ : bool) then
         ret (mkFolderResponse 409 (FolderFailure "Folder already exists"))
       else
         mkdir fullFolderPath ;;;
         stats <- stat fullFolderPath ;;
         ret (mkFolderResponse 201
                (FolderCreated "Folder created successfully"
                   (mkFolderInfo (Path.basename fullFolderPath)
                                 (backslashToSlash folderPath)
                                 (st_mtime stats)))))
    (fun _ => ret (mkFolderResponse 500 (FolderFailure "Failed to create folder"))).

End ProjectRoutesMore.

(** ** The other routes of [routes/folders.js] *)

Module FolderRoutesMore.
Import JsString Fs Async FsPromises Http ProjectRoutes FolderRoutes.
Local Open Scope async_scope.
Local Open Scope Z_scope.

Inductive CreateBody :=
| CreateFailure (error : string)
| Created (message : string) (folder : Folder).

Record CreateResponse := mkCreateResponse {
  createStatus : Z;
  createBody : CreateBody
}.

(** [POST /api/folders] *)
Definition createFolder (app : App) (name : JsName) : M CreateResponse :=
  tryCatch
    (let workspacePath := getWorkspacePath app in
     match validateFolderName name with
     | Invalid error => ret (mkCreateResponse 400 (CreateFailure error))
     | Valid sanitizedName =>
         let folderPath := Path.join [workspacePath; sanitizedName] in
         exists_ <- tryCatch (access folderPath ;;; ret true)
                             (fun _ => ret false) ;;
         if (exists_ : bool) then
           ret (mkCreateResponse 409
                  (CreateFailure ("Folder " ++ quoted sanitizedName
                                            ++ " already exists")))
         else
           mkdir folderPath ;;;
           stats <- stat folderPath ;;
           let newFolder :=
             mkFolder sanitizedName folderPath (st_birthtime stats)
                      (st_mtime stats) (st_size stats) in
           ret (mkCreateResponse 201
                  (Created ("Folder " ++ quoted sanitizedName
                                      ++ " created successfully") newFolder))
     end)
    (fun _ => ret (mkCreateResponse 500 (CreateFailure "Failed to create folder"))).

(** One line of the [contents] of [GET /api/folders/:folderName];
    [isFolder] stands for the type, ['folder'] or ['file']. *)
Record Item := mkItem {
  item_name : string;
  isFolder : bool;
  item_path : string
}.

Record FolderDetail := mkFolderDetail {
  detail_name : string;
  detail_path : string;
  detail_created : Z;
  detail_modified : Z;
  detail_size : Z;
  contents : list Item
}.

Inductive DetailBody :=
| DetailFailure (error : string)
| Detail (folder : FolderDetail).

Record DetailResponse := mkDetailResponse {
  detailStatus : Z;
  detailBody : DetailBody
}.

(** [GET /api/folders/:folderName] *)
Definition getFolder (app : App) (folderName : string) : M DetailResponse :=
  tryCatch
    (let workspacePath := getWorkspacePath app in
     let folderPath := Path.join [workspacePath; folderName] in
     tryCatch
       (stats <- stat folderPath ;;
        if negb (FsPromises.isDirectory stats) then
          ret (mkDetailResponse 404
                 (DetailFailure "Path exists but is not a folder"))
        else
          items <- readdir folderPath ;;
          let contents :=
            map (fun item : string * Node =>
                   mkItem (fst item) (isDir (snd item))
                          (Path.join [folderPath; fst item])) items in
          ret (mkDetailResponse 200
                 (Detail (mkFolderDetail folderName folderPath
                            (st_birthtime stats) (st_mtime stats)
                            (st_size stats) contents))))
       (fun _ =>
          ret (mkDetailResponse 404
                 (DetailFailure ("Folder " ++ quoted folderName ++ " not found")))))
    (fun _ =>
       ret (mkDetailResponse 500 (DetailFailure "Failed to get folder information"))).

End FolderRoutesMore.

(** ** The file-system endpoints mounted by [server.js]

    The third routes file: a stricter [validateFolderName] and two
    creation routes below a client-given [folder_path]. *)

Module FileSystemEndpoints.
Import JsString Fs Async FsPromises FsMore Http ProjectRoutes FolderRoutes.
Local Open Scope async_scope.

(** The same as [FolderRoutes.validateFolderName], the limit being 20. *)
Definition validateFolderName (name : JsName) : Validation :=
  match name with
  | NameString s =>
      if s =? "" then Invalid "Folder name is required and must be a string"
      else
        let sanitized := sanitizeFolderName s in
        if (sanitized =? "") || (String.length sanitized =? 0)%nat
        then Invalid "Invalid folder name"
        else if (20 <? String.length sanitized)%nat
        then Invalid "Folder name too long (max 20 characters)"
        else if includes reserved (toLowerCase sanitized)
        then Invalid "Reserved folder name not allowed"
        else Valid sanitized
  | _ => Invalid "Folder name is required and must be a string"
  end.

(** An answer with a status and, on success, a message; a 500 carries
    the text of the system error only, which is left out. *)
Inductive Outcome :=
| Refused (status : Z) (error : string)
| Succeeded (status : Z) (message : string).

(** [path.join(workspace, folder_path, name)], which throws when
    [folder_path] is no string. *)
Definition joinBelow (app : App) (folder_path : JsName) (name : string)
  : M string :=
  match folder_path with
  | NameString fp => ret (Path.join [getWorkspacePath app; fp; name])
  | _ => throw EINVAL
  end.

(** The single quote, for the messages of these routes. *)
Definition sq : string := "'".

(** [POST /create-folder]; the join is outside the [try]. *)
Definition createFolder (app : App) (folder_path name : JsName) : M Outcome :=
  match validateFolderName name with
  | Invalid error => ret (Refused 400 error)
  | Valid sanitized =>
      newFolderPath <- joinBelow app folder_path sanitized ;;
      tryCatch
        (mkdirPlain newFolderPath ;;;
         ret (Succeeded 201 ("Folder " ++ sq ++ sanitized ++ sq
                                       ++ " created successfully.")))
        (fun _ => ret (Refused 500 ""))
  end.

(** [POST /create-file] *)
Definition createFile (app : App) (folder_path name : JsName) : M Outcome :=
  match name with
  | NameString s =>
      if s =? "" then
        ret (Refused 400 "File name is required and must be a string")
      else
        let sanitized := sanitizeFolderName s in
        newFilePath <- joinBelow app folder_path sanitized ;;
        tryCatch
          (writeFileExclusive newFilePath [] ;;;
           ret (Succeeded 201 ("File " ++ sq ++ sanitized ++ sq
                                       ++ " created successfully.")))
          (fun _ => ret (Refused 500 ""))
  | _ => ret (Refused 400 "File name is required and must be a string")
  end.

End FileSystemEndpoints.

(** [GET /arborescence] of the same file. *)

Module EndpointListing.
Import JsString Fs Async FsPromises Http ProjectRoutes.
Local Open Scope async_scope.
Local Open Scope Z_scope.

(** One line of [contents]; [entry_isFolder] stands for the type,
    ['folder'] or ['file']. *)
Record Entry := mkEntry {
  entry_name : string;
  entry_isFolder : bool;
  entry_size : Z;
  entry_modified : Z
}.

(** The answer: the contents, or a 500 with the text of the system
    error, which is left out. *)
Inductive Listing :=
| ListingFailure
| Contents (contents : list Entry).

Record ListingResponse := mkListingResponse {
  listingStatus : Z;
  listingBody : Listing
}.

(** [const { folder_path = '' } = req.query] and the [path.join] that
    follows, which throws on what is no string. *)
Definition basePathOf (app : App) (folder_path : JsName) : M string :=
  match folder_path with
  | NameUndefined => ret (Path.join [getWorkspacePath app; ""])
  | NameString fp => ret (Path.join [getWorkspacePath app; fp])
  | _ => throw EINVAL
  end.

(** [entries.map(async (entry) => ...)]: every callback runs up to its
    [await fs.stat], so a [stat] is issued for each entry, in order,
    whatever becomes of the others. *)
Fixpoint statEach (basePath : string) (entries : list (string * Node))
  : M (list (Entry + Errno)) :=
  match entries with
  | [] => ret []
  | (entryName, entry) :: rest =>
      settled <-
        tryCatch
          (let entryPath := Path.join [basePath; entryName] in
           stat <- FsPromises.stat entryPath ;;
           ret (inl (mkEntry entryName (isDir entry) (st_size stat)
                             (st_mtime stat))))
          (fun e => ret (inr e)) ;;
      others <- statEach basePath rest ;;
      ret (settled :: others)
  end.

(** [Promise.all]: the values when every promise is fulfilled, a
    rejection otherwise. *)
Fixpoint promiseAll {A} (settled : list (A + Errno)) : list A + Errno :=
  match settled with
  | [] => inl []
  | inr e :: _ => inr e
  | inl a :: rest =>
      match promiseAll rest with
      | inl values => inl (a :: values)
      | inr e => inr e
      end
  end.

(** [GET /arborescence]; the join is outside the [try]. *)
Definition arborescence (app : App) (folder_path : JsName)
  : M ListingResponse :=
  basePath <- basePathOf app folder_path ;;
  tryCatch
    (entries <- readdir basePath ;;
     settled <- statEach basePath entries ;;
     structure <- lift (promiseAll settled) ;;
     ret (mkListingResponse 200 (Contents structure)))
    (fun _ => ret (mkListingResponse 500 ListingFailure)).

End EndpointListing.

(** ** [routes/health.js]

    What the routes say of the workspace; the figures read from [os] and
    [process] are carried along as they are given. *)

Module HealthRoutes.
Import JsString Fs Async FsPromises Http ProjectRoutes.
Local Open Scope async_scope.
Local Open Scope Z_scope.

Record WorkspaceHealth := mkWorkspaceHealth {
  health_path : string;
  accessible : bool;
  folderCount : nat;
  health_error : option Errno
}.

Section Health.
(** [server] and [system] of the answer, and [process] and [system] of
    the detailed one. *)
Variables ServerInfo SystemInfo ProcessInfo OsInfo : Type.

Record HealthData := mkHealthData {
  success : bool;
  health_status : string;
  health_message : string;
  timestamp : Z;
  server : ServerInfo;
  workspace : WorkspaceHealth;
  system : SystemInfo
}.

Inductive HealthBody :=
| Report (data : HealthData)
| Unhealthy (message : string) (at_ : Z).

Record HealthResponse := mkHealthResponse {
  healthStatus : Z;
  healthBody : HealthBody
}.

(** [GET /api/health] *)
Definition health (app : App) (serverInfo : ServerInfo)
           (systemInfo : SystemInfo) : M HealthResponse :=
  tryCatch
    (let workspacePath := getWorkspacePath app in
     workspaceError <-
       tryCatch (access workspacePath ;;; ret None) (fun e => ret (Some e)) ;;
     let isAccessible :=
       match workspaceError with None => true | Some _ => false end in
     folderCount <-
       (if isAccessible then
          tryCatch
            (items <- readdir workspacePath ;;
             ret (List.length (filter (fun item : string * Node => isDir (snd item))
                                      items)))
            (fun _ => ret 0%nat)
        else ret 0%nat) ;;
     at_ <- now ;;
     let healthData :=
       mkHealthData true "healthy" "IDE Server is running" at_ serverInfo
                    (mkWorkspaceHealth workspacePath isAccessible folderCount
                                       workspaceError)
                    systemInfo in
     if negb isAccessible then
       ret (mkHealthResponse 503
              (Report (mkHealthData false "degraded"
                         "Server running but workspace inaccessible"
                         (timestamp healthData) (server healthData)
                         (workspace healthData) (system healthData))))
     else ret (mkHealthResponse 200 (Report healthData)))
    (fun _ =>
       at_ <- now ;;
       ret (mkHealthResponse 500 (Unhealthy "Health check failed" at_))).

Record FolderSummary := mkFolderSummary {
  summary_name : string;
  summary_created : Z;
  summary_size : Z
}.

Record WorkspaceDetails := mkWorkspaceDetails {
  details_accessible : bool;
  details_folders : list FolderSummary;
  totalSize : Z;
  details_error : option Errno
}.

(** The loop of the detailed route: a directory whose [stat] fails is
    passed over. *)
Fixpoint summarize (workspacePath : string) (items : list (string * Node))
         (details : WorkspaceDetails) : M WorkspaceDetails :=
  match items with
  | [] => ret details
  | (itemName, item) :: rest =>
      if isDir item then
        details' <-
          tryCatch
            (let folderPath := Path.join [workspacePath; itemName] in
             stats <- stat folderPath ;;
             ret (mkWorkspaceDetails
                    (details_accessible details)
                    (details_folders details
                       ++ [mkFolderSummary itemName (st_birthtime stats)
                                           (st_size stats)])
                    (totalSize details + st_size stats)
                    (details_error details)))
            (fun _ => ret details) ;;
        summarize workspacePath rest details'
      else summarize workspacePath rest details
  end.

(** The [workspaceDetails] of [GET /api/health/detailed]: what has been
    set before a call throws stays set. *)
Definition workspaceDetails (app : App) : M WorkspaceDetails :=
  let workspacePath := getWorkspacePath app in
  fun w =>
    match access workspacePath w with
    | (inr e, w1) => (inl (mkWorkspaceDetails false [] 0 (Some e)), w1)
    | (inl _, w1) =>
        let reached := mkWorkspaceDetails true [] 0 None in
        match readdir workspacePath w1 with
        | (inr e, w2) => (inl (mkWorkspaceDetails true [] 0 (Some e)), w2)
        | (inl items, w2) => summarize workspacePath items reached w2
        end
    end.

Record DetailedData := mkDetailedData {
  detailed_timestamp : Z;
  detailed_workspace : WorkspaceDetails;
  detailed_process : ProcessInfo;
  detailed_system : OsInfo
}.

Inductive DetailedBody :=
| DetailedReport (data : DetailedData)
| DetailedFailure (error : string) (at_ : Z).

Record DetailedResponse := mkDetailedResponse {
  detailedStatus : Z;
  detailedBody : DetailedBody
}.

(** [GET /api/health/detailed] *)
Definition healthDetailed (app : App) (processInfo : ProcessInfo)
           (osInfo : OsInfo) : M DetailedResponse :=
  tryCatch
    (details <- workspaceDetails app ;;
     at_ <- now ;;
     ret (mkDetailedResponse 200
            (DetailedReport (mkDetailedData at_ details processInfo osInfo))))
    (fun _ =>
       at_ <- now ;;
       ret (mkDetailedResponse 500
              (DetailedFailure "Failed to get detailed health information" at_))).
End Health.

End HealthRoutes.

(** ** [server.js] *)

Module Server.
Import JsString Fs Async FsPromises Http ProjectRoutes.
Local Open Scope async_scope.


End Server.

(** ** [public/js/app.js] *)

Module Client.
Import JsString Http FolderRoutes.

(** [reserved] of the form validation. *)
Definition reserved : list string := ["con"; "prn"; "aux"; "nul"].

(** [validateFolderName(name)] of the form. *)
Definition validateFolderName (name : JsName) : bool :=
  match name with
  | NameString s =>
      if s =? "" then false
      else
        let trimmed := trim s in
        if (trimmed =? "") || (String.length trimmed =? 0)%nat then false
        else if (50 <? String.length trimmed)%nat then false
        else if existsb invalidChar (chars trimmed) then false
        else if includes reserved (toLowerCase trimmed) then false
        else true
  | _ => false
  end.

(** The [map] of [escapeHtml]. *)
Definition entity (c : ascii) : option string :=
  if Ascii.eqb c "&" then Some "&amp;"
  else if Ascii.eqb c "<" then Some "&lt;"
  else if Ascii.eqb c ">" then Some "&gt;"
  else if Ascii.eqb c (ascii_of_nat 34) then Some "&quot;"
  else if Ascii.eqb c "'" then Some "&#039;"
  else None.

Fixpoint replaceEntities (s : string) : string :=
  match s with
  | EmptyString => EmptyString
  | String c s' =>
      match entity c with
      | Some e => e ++ replaceEntities s'
      | None => String c (replaceEntities s')
      end
  end.

(** [escapeHtml(text)] *)
Definition escapeHtml (text : JsName) : string :=
  match text with
  | NameString s => replaceEntities s
  | _ => ""
  end.

End Client.

(** ** Vocabulary of the further properties *)

Module CheckSpec.
Import JsString Fs Http ProjectRoutes.

(** The segments of the project path and of the target of a [/file/*]
    route, as the filesystem walks them. *)
Definition projectSegments (app : App) (projectName : string) : list string :=
  segments (Path.join [getWorkspacePath app; projectName]).

Definition targetSegments (app : App) (projectName filePath : string)
  : list string :=
  segments (Path.join [getWorkspacePath app; projectName; filePath]).

(** The segments of a relative path on its own, [..] kept where it
    climbs above the start. *)
Definition relativeSegments (filePath : string) : list string :=
  Path.normalizeSegments true filePath.

(** The path never climbs above where it starts. *)
Definition staysBelow (filePath : string) : bool :=
  negb (existsb Path.isDots (relativeSegments filePath)).

End CheckSpec.

Module FsSpec.
Import JsString Fs.



(** The two walks part at some entry: neither path lies on the way to
    the other. *)
Fixpoint diverge (p q : list string) : bool :=
  match p, q with
  | c :: p', d :: q' => if (c =? d)%string then diverge p' q' else true
  | _, _ => false
  end.

(** The calls that change nothing. *)
Definition readOnly (c : Call) : bool :=
  match c with
  | Stat _ | Access _ | Readdir _ | ReadFile _ => true
  | WriteFile _ | Mkdir _ | Rm _ => false
  end.

(** The machines differ by their logs only. *)
Definition sameTree (w w' : World) : Prop :=
  root w' = root w /\ clock w' = clock w /\ tick w' = tick w.

(** From [w] to [w'] nothing but examining and reading calls were made:
    the tree is what it was, and time has at most gone by. *)
Definition onlyReads (w w' : World) : Prop :=
  root w' = root w /\ clock w' = clock w /\ (tick w <= tick w')%nat
  /\ exists calls,
      log w' = (log w ++ calls)%list /\ forallb readOnly calls = true.

(** Tree [r'] is tree [r] with the new entry [new] put at [p], where
    nothing sat, into a directory that was there; every entry off the
    way to [p] is what it was. *)
Definition createdAt (new : Node) (p : list string) (r r' : Node) : Prop :=
  lookup r p = None
  /\ (exists m es, lookup r (removelast p) = Some (Dir m es))
  /\ lookup r' p = Some new
  /\ forall q, diverge p q = true -> lookup r' q = lookup r q.

(** Some entry of the directory cannot be examined. *)
Definition someStatFails (items : list (string * Node)) : bool :=
  existsb (fun e => statFails (meta (snd e))) items.

End FsSpec.

Module HealthSpec.
Import JsString Fs FsPromises HealthRoutes RunSpec.
Local Open Scope Z_scope.

(** [stat] succeeds on entry [k] of directory [ws]. *)
Definition examinable (r : Node) (ws k : string) : bool :=
  match statOutcome r (Path.join [ws; k]) with
  | inl _ => true
  | inr _ => false
  end.

Definition sumOfSizes (l : list FolderSummary) : Z :=
  fold_right Z.add 0 (map summary_size l).

End HealthSpec.

Module ClientSpec.
Import JsString.

(** The characters that open or close markup or an attribute value:
    the angle brackets and the two quotes. *)
Definition markup (c : ascii) : bool :=
  existsb (Ascii.eqb c) ["<"; ">"; ascii_of_nat 34; "'"]%char.

(** The reserved names the form does not know of. *)
Definition devicePorts : list string :=
  ["com1"; "com2"; "com3"; "com4"; "com5"; "com6"; "com7"; "com8"; "com9";
   "lpt1"; "lpt2"; "lpt3"; "lpt4"; "lpt5"; "lpt6"; "lpt7"; "lpt8"; "lpt9"].

End ClientSpec.

(** * Properties *)

(** ** Path confinement *)

Module ConfinementFacts.
Import JsString Fs Async FsPromises Http ProjectRoutes.
Local Open Scope Z_scope.

(** C1 (fails on the code).  The security check of the [/file/*] routes
    is a bare [startsWith] on the resolved strings.  For project [proj]
    and the client path [../proj2/x.txt] the target resolves to
    [/srv/Workspace/proj2/x.txt]: it is not the resolved root
    [/srv/Workspace/proj] and does not begin with that root followed by
    a separator, yet the check accepts it, and the route goes on to
    [stat] and read the file and answers 200 with its content.  (A path
    that leaves the project through another name, such as
    [../../secret.txt], is answered 403 without any call.) *)
Theorem sibling_prefix_passes_security_check :
  let target :=
    Path.resolve (cwd Sample.app)
      (Path.join [getWorkspacePath Sample.app; "proj"; "../proj2/x.txt"]) in
  let projectRoot :=
    Path.resolve (cwd Sample.app)
      (Path.join [getWorkspacePath Sample.app; "proj"]) in
  target = "/srv/Workspace/proj2/x.txt"
  /\ projectRoot = "/srv/Workspace/proj"
  /\ target <> projectRoot
  /\ startsWith target (projectRoot ++ "/") = false
  /\ insideProject Sample.app "proj" "../proj2/x.txt" = true
  /\ getFile Sample.app "proj" "../proj2/x.txt" Sample.world
     = (inl (json (FileBody (mkFileContent "x.txt" "../proj2/x.txt" ".txt"
                               1 200 (Some [120]) false "text"))),
        mkWorld Sample.tree
                [Stat "/srv/Workspace/proj2/x.txt";
                 ReadFile "/srv/Workspace/proj2/x.txt"]
                Sample.clock 0)
  /\ getFile Sample.app "proj" "../../secret.txt" Sample.world
     = (inl accessDenied, Sample.world).
Proof.
  cbv zeta. repeat split; try reflexivity.
  vm_compute. discriminate.
Qed.

(** C2 (fails on the code).  [GET /api/project/:projectName] and
    [DELETE /api/folders/:folderName] join the parameter onto the
    workspace path and go to the filesystem with no check at all.  With
    the parameter [..] the first lists [/srv], the parent of the
    workspace, and exposes a node for [/srv/secret.txt]; the second
    removes [/srv] with everything below it.  In both the first call in
    the log is a [stat] of [/srv].  The check of the [/file/*] routes
    does not help either when the project name itself is [..]: it
    compares against the project path, and [/srv/secret.txt] is read
    and returned. *)
Theorem unchecked_routes_leave_workspace :
  (exists tree w',
      getProject Sample.codeUnitCompare Sample.app ".." Sample.world
      = (inl (json (ProjectBody (mkProject ".." "/srv" 100 200 tree))), w')
      /\ hd_error (log w') = Some (Stat "/srv")
      /\ In (mkTreeNode "secret.txt" "secret.txt" false 2 200 (Some ".txt")
                        None None) tree)
  /\ (exists w',
         FolderRoutes.deleteFolder Sample.app ".." Sample.world
         = (inl (json (MessageBody
                         ("Folder " ++ quoted ".." ++ " deleted successfully"))),
            w')
         /\ log w' = [Stat "/srv"; Rm "/srv"]
         /\ lookup (root Sample.world) ["srv"; "secret.txt"]
            = Some (Sample.file [104; 105])
         /\ lookup (root w') ["srv"; "secret.txt"] = None
         /\ lookup (root w') ["srv"] = None)
  /\ (exists w',
         getFile Sample.app ".." "secret.txt" Sample.world
         = (inl (json (FileBody (mkFileContent "secret.txt" "secret.txt" ".txt"
                                   2 200 (Some [104; 105]) false "text"))),
            w')).
Proof.
  split; [|split].
  - eexists. eexists. split; [vm_compute; reflexivity|].
    split; [reflexivity|]. simpl. auto.
  - eexists. split; [vm_compute; reflexivity|].
    repeat split; reflexivity.
  - eexists. vm_compute. reflexivity.
Qed.

End ConfinementFacts.

(** ** Folder names *)

Module FolderNameFacts.
Import JsString Http FolderRoutes FolderNameSpec.

Lemma chars_ofChars l : chars (ofChars l) = l.
Proof. apply list_ascii_of_string_of_list_ascii. Qed.

Lemma ofChars_chars s : ofChars (chars s) = s.
Proof. apply string_of_list_ascii_of_string. Qed.

Lemma lowerChar_clean c :
  invalidChar c = false -> isSpace c = false -> clean (lowerChar c).
Proof.
  destruct c as [[] [] [] [] [] [] [] []]; vm_compute; intros; try discriminate;
    repeat split; reflexivity.
Qed.

Lemma lowerChar_reflects c :
  invalidChar (lowerChar c) = false -> isSpace (lowerChar c) = false ->
  invalidChar c = false /\ isSpace c = false.
Proof.
  destruct c as [[] [] [] [] [] [] [] []]; vm_compute; intros; try discriminate;
    split; reflexivity.
Qed.

Lemma spacesToHyphen_kept b l :
  Forall (fun c => invalidChar c = false) l ->
  Forall (fun c => invalidChar c = false /\ isSpace c = false)
         (spacesToHyphen b l).
Proof.
  intros H. revert b. induction H as [|c l Hc Hl IH]; intros b; simpl.
  - constructor.
  - destruct (isSpace c) eqn:E.
    + destruct b; [apply IH|]. constructor; [split; reflexivity | apply IH].
    + constructor; [split; assumption | apply IH].
Qed.

Lemma trimStart_incl (P : ascii -> Prop) l :
  Forall P l -> Forall P (trimStart l).
Proof.
  induction 1 as [|c l Hc Hl IH]; simpl; [constructor|].
  destruct (isSpace c); [assumption | constructor; assumption].
Qed.

Lemma trimStart_id l :
  Forall (fun c => isSpace c = false) l -> trimStart l = l.
Proof. destruct 1 as [|c l Hc Hl]; simpl; [|rewrite Hc]; reflexivity. Qed.

Lemma spacesToHyphen_nospace l :
  Forall (fun c => isSpace c = false) l ->
  forall b, spacesToHyphen b l = l.
Proof.
  induction 1 as [|c l Hc Hl IH]; intros b; simpl; [reflexivity|].
  rewrite Hc. f_equal. apply IH.
Qed.

Lemma sanitize_chars name :
  Forall clean (chars (sanitizeFolderName name)).
Proof.
  unfold sanitizeFolderName, trim, toLowerCase.
  rewrite !chars_ofChars.
  apply Forall_rev, trimStart_incl, Forall_rev, trimStart_incl.
  apply Forall_map.
  eapply Forall_impl;
    [| apply (spacesToHyphen_kept false); apply Forall_forall; intros c Hc;
       apply filter_In in Hc; destruct Hc as [_ Hc];
       apply negb_true_iff in Hc; exact Hc].
  intros c [H1 H2]. apply lowerChar_clean; assumption.
Qed.

(** A name made of kept characters only goes through the first two
    replacements and the final trim unchanged: it is just lowercased. *)
Lemma sanitize_plain name :
  Forall (fun c => invalidChar c = false /\ isSpace c = false) (chars name) ->
  sanitizeFolderName name = toLowerCase name.
Proof.
  intros H. unfold sanitizeFolderName, trim, toLowerCase.
  assert (Hf : filter (fun c => negb (invalidChar c)) (chars name) = chars name).
  { clear -H. induction H as [|c l [Hc _] _ IH]; simpl; [reflexivity|].
    rewrite Hc. simpl. f_equal. exact IH. }
  rewrite Hf, spacesToHyphen_nospace
    by (eapply Forall_impl; [|exact H]; intros c [_ Hc]; exact Hc).
  rewrite !chars_ofChars.
  assert (Hs : Forall (fun c => isSpace c = false) (map lowerChar (chars name))).
  { apply Forall_map. eapply Forall_impl; [|exact H].
    intros c [H1 H2]. apply (lowerChar_clean c H1 H2). }
  rewrite (trimStart_id _ Hs), (trimStart_id _ (Forall_rev Hs)), rev_involutive.
  reflexivity.
Qed.

Lemma toLowerCase_idem s : toLowerCase (toLowerCase s) = toLowerCase s.
Proof.
  unfold toLowerCase. rewrite chars_ofChars, map_map. f_equal.
  apply map_ext. intros c.
  destruct c as [[] [] [] [] [] [] [] []]; reflexivity.
Qed.

Lemma reserved_plain r : In r reserved -> plainName r = true.
Proof.
  intros H. assert (Hall : forallb plainName reserved = true) by reflexivity.
  rewrite forallb_forall in Hall. apply Hall, H.
Qed.

Lemma lowered_plain s :
  plainName (toLowerCase s) = true ->
  Forall (fun c => invalidChar c = false /\ isSpace c = false) (chars s).
Proof.
  unfold plainName, toLowerCase. rewrite chars_ofChars, forallb_forall.
  intros H. apply Forall_forall. intros c Hc.
  specialize (H (lowerChar c) (in_map _ _ _ Hc)).
  apply andb_true_iff in H. destruct H as [H1 H2].
  apply negb_true_iff in H1, H2. apply lowerChar_reflects; assumption.
Qed.

Lemma includes_In l s : includes l s = true <-> In s l.
Proof.
  unfold includes. rewrite existsb_exists. split.
  - intros [x [Hx E]]. apply String.eqb_eq in E. subst. exact Hx.
  - intros H. exists s. split; [exact H | apply String.eqb_refl].
Qed.

Lemma reserved_short r : In r reserved -> (String.length r <= 4)%nat /\ r <> "".
Proof.
  intros H. unfold reserved in H. simpl in H.
  repeat (destruct H as [H|H]; [subst r; split; [simpl; lia | discriminate]|]).
  contradiction.
Qed.

Lemma validate_reserved name :
  In (toLowerCase name) reserved ->
  validateFolderName (NameString name)
  = Invalid "Reserved folder name not allowed".
Proof.
  intros H.
  pose proof (sanitize_plain name (lowered_plain name (reserved_plain _ H))) as E.
  destruct (reserved_short _ H) as [Hlen Hne].
  unfold validateFolderName.
  destruct (String.eqb_spec name "") as [->|_].
  { exfalso. apply Hne. reflexivity. }
  cbv zeta. rewrite E.
  destruct (String.eqb_spec (toLowerCase name) "") as [E0|_];
    [contradiction|].
  destruct (String.length (toLowerCase name)) as [|n] eqn:El.
  { exfalso. destruct (toLowerCase name); [apply Hne; reflexivity | discriminate]. }
  simpl orb. cbv iota.
  replace (50 <? S n)%nat with false
    by (symmetry; apply Nat.ltb_ge; lia).
  rewrite toLowerCase_idem.
  apply includes_In in H. rewrite H. reflexivity.
Qed.

(** A run of white space between two words becomes one hyphen. *)
Lemma spacesToHyphen_run u r v :
  Forall (fun c => isSpace c = false) u ->
  Forall (fun c => isSpace c = true) r -> r <> [] ->
  Forall (fun c => isSpace c = false) v ->
  spacesToHyphen false (u ++ r ++ v)%list = (u ++ "-"%char :: v)%list.
Proof.
  intros Hu Hr Hne Hv.
  induction Hu as [|c u Hc Hu IH]; simpl.
  - destruct Hr as [|c r Hc Hr]; [contradiction|]. simpl. rewrite Hc. f_equal.
    clear Hne. induction Hr as [|d r Hd Hr IH]; simpl.
    + apply spacesToHyphen_nospace, Hv.
    + rewrite Hd. exact IH.
  - rewrite Hc. f_equal. exact IH.
Qed.

(** C8, as stated, fails: the exclamation mark is not in the class of
    stripped characters, so both of them stay. *)
Lemma sanitize_keeps_exclamation_marks : ~ sanitizesAsSpecified.
Proof. unfold sanitizesAsSpecified. vm_compute. discriminate. Qed.

(** C8 (amended).  [sanitizeFolderName] removes every character of the
    class (angle brackets, colon, double quote, slash, backslash, bar,
    question mark, star), turns each run of white space into one hyphen
    and lowercases, so that ["My Project!!"] becomes ["my-project!!"]
    with its exclamation marks kept; a name whose sanitized form is empty
    is rejected; and a name that is a reserved device name in any letter
    case is rejected as reserved. *)
Theorem sanitize_and_validate_folder_name :
  sanitizeFolderName "My Project!!" = "my-project!!"
  /\ (forall name c,
         In c (chars (sanitizeFolderName name)) ->
         invalidChar c = false /\ isSpace c = false /\ lowerChar c = c)
  /\ (forall u r v,
         Forall (fun c => isSpace c = false) u ->
         Forall (fun c => isSpace c = true) r -> r <> [] ->
         Forall (fun c => isSpace c = false) v ->
         spacesToHyphen false (u ++ r ++ v)%list = (u ++ "-"%char :: v)%list)
  /\ (forall name,
         sanitizeFolderName name = "" ->
         exists error, validateFolderName (NameString name) = Invalid error)
  /\ (forall name,
         In (toLowerCase name) reserved ->
         validateFolderName (NameString name)
         = Invalid "Reserved folder name not allowed")
  /\ validateFolderName (NameString "CON")
     = Invalid "Reserved folder name not allowed"
  /\ validateFolderName (NameString "con")
     = Invalid "Reserved folder name not allowed".
Proof.
  split; [reflexivity|].
  split.
  { intros name c Hc.
    pose proof (sanitize_chars name) as H. rewrite Forall_forall in H.
    exact (H c Hc). }
  split; [exact spacesToHyphen_run|].
  split.
  { intros name E. unfold validateFolderName.
    destruct (name =? ""); [eexists; reflexivity|].
    cbv zeta. rewrite E. simpl. eexists; reflexivity. }
  split; [exact validate_reserved|].
  split; reflexivity.
Qed.

End FolderNameFacts.

(** ** Sorting *)

Module SortFacts.
Import JsArray.
Local Open Scope Z_scope.

Section Consistent.
Context {A : Type} (compareFn : A -> A -> Z).
Hypothesis total : forall a b, 0 < compareFn a b -> compareFn b a <= 0.
Hypothesis transitive :
  forall a b c, compareFn a b <= 0 -> compareFn b c <= 0 -> compareFn a c <= 0.

Lemma insert_perm x l : Permutation (insert compareFn x l) (x :: l).
Proof.
  induction l as [|y l IH]; simpl; [reflexivity|].
  destruct (compareFn x y <=? 0); [reflexivity|].
  rewrite IH. apply perm_swap.
Qed.

Lemma sort_perm l : Permutation (sort compareFn l) l.
Proof.
  induction l as [|x l IH]; simpl; [reflexivity|].
  rewrite insert_perm. constructor. exact IH.
Qed.

Lemma insert_sorted x l :
  StronglySorted (fun a b => compareFn a b <= 0) l ->
  StronglySorted (fun a b => compareFn a b <= 0) (insert compareFn x l).
Proof.
  induction 1 as [|y l Hs IH Hy]; simpl.
  - repeat constructor.
  - destruct (compareFn x y <=? 0) eqn:E.
    + apply Z.leb_le in E. constructor; [constructor; assumption|].
      constructor; [exact E|].
      eapply Forall_impl; [|exact Hy]. intros z Hz.
      apply (transitive x y z); assumption.
    + apply Z.leb_gt in E. constructor; [exact IH|].
      rewrite (insert_perm x l). constructor; [|exact Hy].
      apply total. exact E.
Qed.

Lemma sort_sorted l :
  StronglySorted (fun a b => compareFn a b <= 0) (sort compareFn l).
Proof.
  induction l as [|x l IH]; simpl; [constructor | apply insert_sorted, IH].
Qed.
End Consistent.

Lemma StronglySorted_weaken {A} (R R' : A -> A -> Prop) l :
  (forall a b, R a b -> R' a b) -> StronglySorted R l -> StronglySorted R' l.
Proof.
  intros HR. induction 1 as [|x l Hs IH Hx]; constructor; [exact IH|].
  eapply Forall_impl; [|exact Hx]. intros b. apply HR.
Qed.

End SortFacts.

(** ** Running the [fs] calls *)

Module RunFacts.
Import JsString Fs Async FsPromises Http RunSpec.
Local Open Scope Z_scope.

Lemma stat_run p w : stat p w = (statOutcome (root w) p, logged (Stat p) w).
Proof.
  unfold stat, statOutcome, bind, record, getRoot, lift, statNode, logged. simpl.
  destruct (find (root w) p) as [n|e]; simpl; [|reflexivity].
  destruct (statFails (meta n)); reflexivity.
Qed.

Lemma access_run p w :
  access p w = (match statOutcome (root w) p with
                | inl _ => inl tt
                | inr e => inr e
                end, logged (Access p) w).
Proof.
  unfold access, statOutcome, bind, record, getRoot, lift, statNode, logged. simpl.
  destruct (find (root w) p) as [n|e]; simpl; [|reflexivity].
  destruct (statFails (meta n)); reflexivity.
Qed.

End RunFacts.

(** ** The folder listing *)

Module FolderListFacts.
Import JsString Fs Async FsPromises Http ProjectRoutes FolderRoutes RunSpec.
Import RunFacts.
Local Open Scope Z_scope.

Lemma collectFolders_run ws items :
  forall w, exists folders w',
    collectFolders ws items w = (inl folders, w')
    /\ root w' = root w /\ clock w' = clock w /\ (tick w <= tick w')%nat
    /\ map folder_name folders = directoryNames items
    /\ forall itemName item,
         In (itemName, item) items -> isDir item = true ->
         exists f, In f folders /\ folderOf w ws itemName f.
Proof.
  induction items as [|[k x] items IH]; intros w.
  - exists [], w. simpl. repeat split; auto. intros ? ? [].
  - simpl. unfold directoryNames. simpl. destruct (isDir x) eqn:Ex.
    + unfold bind at 1. unfold tryCatch, bind at 1. rewrite stat_run.
      destruct (statOutcome (root w) (Path.join [ws; k])) as [st|e] eqn:Es.
      * simpl. destruct (IH (logged (Stat (Path.join [ws; k])) w))
          as (fs & w' & E & Hr & Hc & Ht & Hn & Hall).
        unfold bind. rewrite E. eexists. exists w'.
        split; [reflexivity|]. simpl in *.
        repeat split; try assumption.
        { f_equal. exact Hn. }
        intros itemName item [Hin|Hin] Hd.
        { inversion Hin; subst. eexists. split; [left; reflexivity|].
          unfold folderOf. simpl. rewrite Es. auto. }
        { destruct (Hall _ _ Hin Hd) as (f & Hf & Hof).
          exists f. split; [right; exact Hf|]. exact Hof. }
      * simpl.
        set (w1 := mkWorld (root w) (log w ++ [Stat (Path.join [ws; k])])
                           (clock w) (S (S (tick w)))).
        destruct (IH w1) as (fs & w' & E & Hr & Hc & Ht & Hn & Hall).
        unfold bind, now. simpl. fold w1. rewrite E. eexists. exists w'.
        split; [reflexivity|]. simpl in *.
        repeat split; try assumption; try lia.
        { f_equal. exact Hn. }
        intros itemName item [Hin|Hin] Hd.
        { inversion Hin; subst. eexists. split; [left; reflexivity|].
          unfold folderOf. simpl. rewrite Es.
          repeat split. exists (tick w). auto. }
        { destruct (Hall _ _ Hin Hd) as (f & Hf & Hof).
          exists f. split; [right; exact Hf|].
          unfold folderOf in *. simpl in *.
          destruct Hof as (H1 & H2 & H3). repeat split; try assumption.
          destruct (statOutcome (root w) (Path.join [ws; itemName])); [exact H3|].
          destruct H3 as (H3 & i & Hi & H4). split; [exact H3|].
          exists i. split; [lia | exact H4]. }
    + destruct (IH w) as (fs & w' & E & Hr & Hc & Ht & Hn & Hall).
      exists fs, w'. split; [exact E|]. repeat split; try assumption.
      intros itemName item [Hin|Hin] Hd.
      { inversion Hin; subst. congruence. }
      { exact (Hall _ _ Hin Hd). }
Qed.

(** C10.  Where the workspace directory can be listed,
    [GET /api/folders] answers 200 with one folder per directory entry
    (files are left out), [count] being their number, arranged by
    creation time from the newest to the oldest, whatever their names;
    a directory whose [stat] fails is in the list all the same, with
    size 0 and two successive readings of the clock for its creation
    and modification times. *)
Theorem folders_listed_newest_first app w m items :
  find (root w) (getWorkspacePath app) = inl (Dir m items) ->
  readFails m = false ->
  exists folders w',
    listFolders app w
    = (inl (json (FoldersBody (List.length folders) folders)), w')
    /\ StronglySorted (fun a b => created b <= created a) folders
    /\ Permutation (map folder_name folders) (directoryNames items)
    /\ forall itemName item,
         In (itemName, item) items -> isDir item = true ->
         exists f, In f folders
                   /\ folderOf w (getWorkspacePath app) itemName f.
Proof.
  intros Hfind Hread.
  destruct (collectFolders_run (getWorkspacePath app) items
              (logged (Readdir (getWorkspacePath app)) w))
    as (fs & w' & E & Hr & Hc & Ht & Hn & Hall).
  exists (JsArray.sort newestFirst fs), w'. split.
  { unfold listFolders, tryCatch, bind at 1. unfold readdir, bind, record, getRoot.
    simpl. rewrite Hfind. simpl. rewrite Hread. simpl.
    unfold logged in E. rewrite E. reflexivity. }
  split.
  { apply (SortFacts.StronglySorted_weaken
             (fun a b => newestFirst a b <= 0)).
    - unfold newestFirst. intros a b. lia.
    - apply SortFacts.sort_sorted; unfold newestFirst; intros; lia. }
  split.
  { rewrite <- Hn. apply Permutation_map, SortFacts.sort_perm. }
  intros itemName item Hin Hd.
  destruct (Hall _ _ Hin Hd) as (f & Hf & Hof).
  exists f. split.
  - eapply Permutation_in; [symmetry; apply SortFacts.sort_perm | exact Hf].
  - unfold folderOf in *. simpl in Hof. exact Hof.
Qed.

(** On the sample workspace the answer lists [locked], whose [stat] is
    refused and which gets the clock's readings 1000 and 1001, then
    [beta] (created at 700), then [alpha] (created at 300): newest
    first, not by name. *)
Lemma folders_listed_newest_first_sample :
  (find (root Sample.foldersWorld) (getWorkspacePath Sample.app)
   = inl (Dir Sample.dirMeta
              [("alpha", Dir (mkMeta 300 310 4096 false false) []);
               ("notes.txt", Sample.file [110]);
               ("locked", Dir (mkMeta 50 60 4096 true false) []);
               ("beta", Dir (mkMeta 700 710 4096 false false) [])])
   /\ readFails Sample.dirMeta = false)
  /\ exists folders w',
      listFolders Sample.app Sample.foldersWorld
      = (inl (json (FoldersBody (List.length folders) folders)), w')
      /\ map folder_name folders = ["locked"; "beta"; "alpha"]
      /\ map created folders = [1000; 700; 300]
      /\ StronglySorted (fun a b => created b <= created a) folders.
Proof.
  split; [split; reflexivity|].
  destruct (folders_listed_newest_first Sample.app Sample.foldersWorld
              Sample.dirMeta _ eq_refl eq_refl)
    as (folders & w' & E & Hs & _).
  exists folders, w'.
  assert (Hf : map folder_name folders = ["locked"; "beta"; "alpha"]
               /\ map created folders = [1000; 700; 300]).
  { vm_compute in E. inversion E. split; reflexivity. }
  destruct Hf. repeat split; assumption.
Defined.

End FolderListFacts.

(** ** The tree listing *)

Module TreeFacts.
Import JsString Fs Async FsPromises Http ProjectRoutes RunSpec TreeSpec.
Local Open Scope Z_scope.

Lemma forEachItem_cons recurse dp bp k item rest :
  forEachItem recurse dp bp ((k, item) :: rest)
  = (let itemPath := Path.join [dp; k] in
     let relativePath := backslashToSlash (Path.join [bp; k]) in
     record (Stat itemPath) ;;;
     stats <- statNode item ;;
     let extension :=
       if isFile item then Some (Path.extname k) else None in
     node <-
       (if isDir item then
          sub <- recurse item itemPath relativePath ;;
          ret (mkTreeNode k relativePath true (st_size stats) (st_mtime stats)
                          extension (Some sub) (Some false))
        else
          ret (mkTreeNode k relativePath false (st_size stats) (st_mtime stats)
                          extension None None)) ;;
     tree <- forEachItem recurse dp bp rest ;;
     ret (node :: tree))%async.
Proof. reflexivity. Qed.

Local Arguments forEachItem : simpl never.

Section Walk.
Variable localeCompare : string -> string -> Z.
Variable Q : Node -> string -> list TreeNode -> Prop.
Hypothesis Q_empty : forall dir b, Q dir b [].
Hypothesis Q_sorted :
  forall m es b tree,
    Forall2 (builtFrom Q b) es tree ->
    Q (Dir m es) b (JsArray.sort (compareNodes localeCompare) tree).

Lemma forEachItem_run recurse dp bp items :
  Forall (fun e => forall p b w, exists t w',
              recurse (snd e) p b w = (inl t, w') /\ Q (snd e) b t) items ->
  forall w,
    (exists e w', forEachItem recurse dp bp items w = (inr e, w'))
    \/ (exists tree w',
           forEachItem recurse dp bp items w = (inl tree, w')
           /\ Forall2 (builtFrom Q bp) items tree).
Proof.
  induction 1 as [|[k item] items Hrec _ IH]; intros w.
  - right. exists [], w. split; [reflexivity | constructor].
  - rewrite forEachItem_cons. cbv zeta.
    unfold bind, record, statNode, ret, throw.
    destruct (statFails (meta item)) eqn:Es.
    { left. eexists. eexists. reflexivity. }
    destruct (isDir item) eqn:Ed.
    + simpl in Hrec.
      destruct (Hrec (Path.join [dp; k]) (backslashToSlash (Path.join [bp; k]))
                     (mkWorld (root w) (log w ++ [Stat (Path.join [dp; k])])
                              (clock w) (tick w)))
        as (t & w1 & E & HQ).
      rewrite E.
      destruct (IH w1) as [(e & w2 & E2)|(tree & w2 & E2 & HF)]; rewrite E2.
      * left. eexists. eexists. reflexivity.
      * right. eexists. exists w2.
        split; [reflexivity|]. constructor; [|exact HF].
        split.
        { unfold fieldsOf. simpl. rewrite Ed.
          repeat split; try reflexivity. discriminate. }
        { simpl. intros _. exists t. split; [reflexivity | exact HQ]. }
    + destruct (IH (mkWorld (root w)
                            (log w ++ [Stat (Path.join [dp; k])])
                            (clock w) (tick w)))
        as [(e & w2 & E2)|(tree & w2 & E2 & HF)]; rewrite E2.
      * left. eexists. eexists. reflexivity.
      * right. eexists. exists w2.
        split; [reflexivity|]. constructor; [|exact HF].
        split.
        { unfold fieldsOf. simpl. rewrite Ed.
          repeat split; reflexivity. }
        { simpl. intros H. congruence. }
Qed.

Lemma getFileTree_run dir :
  forall p b w, exists t w',
    getFileTree localeCompare dir p b w = (inl t, w') /\ Q dir b t.
Proof.
  induction dir as [m data|m es IH] using Node_induction; intros p b w.
  - eexists. eexists. split; [reflexivity | apply Q_empty].
  - simpl. unfold tryCatch, bind, record, ret, throw.
    destruct (readFails m).
    { eexists. eexists. split; [reflexivity | apply Q_empty]. }
    destruct (forEachItem_run (getFileTree localeCompare) p b es IH
                (mkWorld (root w) (log w ++ [Readdir p]) (clock w) (tick w)))
      as [(e & w2 & E2)|(tree & w2 & E2 & HF)]; rewrite E2.
    + eexists. eexists. split; [reflexivity | apply Q_empty].
    + eexists. eexists. split; [reflexivity | apply Q_sorted, HF].
Qed.
End Walk.

(** *** Order *)

Lemma everyLevel_children P n c :
  children n = Some c ->
  everyLevel P n <-> P c /\ Forall (everyLevel P) c.
Proof.
  destruct n as [nm pa d sz mo ex ch ie]. simpl. intros ->.
  assert (H : forall l,
             (fix all (l : list TreeNode) : Prop :=
                match l with
                | [] => True
                | x :: l' => everyLevel P x /\ all l'
                end) l <-> Forall (everyLevel P) l).
  { induction l as [|x l IH]; split; intros H.
    - constructor.
    - exact I.
    - destruct H as [H1 H2]. constructor; [exact H1 | apply IH, H2].
    - inversion H; subst. split; [assumption | apply IH; assumption]. }
  rewrite H. reflexivity.
Qed.

Lemma everyLevel_leaf P n : children n = None -> everyLevel P n.
Proof. destruct n as [nm pa d sz mo ex ch ie]. simpl. intros ->. exact I. Qed.

Section Ordered.
Variable localeCompare : string -> string -> Z.
Hypothesis antisymmetric :
  forall a b, 0 < localeCompare a b <-> localeCompare b a < 0.
Hypothesis transitive :
  forall a b c, localeCompare a b <= 0 -> localeCompare b c <= 0 ->
                localeCompare a c <= 0.

Lemma compareNodes_total a b : 0 < compareNodes localeCompare a b -> compareNodes localeCompare b a <= 0.
Proof.
  unfold compareNodes.
  destruct (isDirectory a), (isDirectory b); simpl; try lia;
    intros H; apply antisymmetric in H; lia.
Qed.

Lemma compareNodes_transitive a b c :
  compareNodes localeCompare a b <= 0 -> compareNodes localeCompare b c <= 0 -> compareNodes localeCompare a c <= 0.
Proof.
  unfold compareNodes.
  destruct (isDirectory a), (isDirectory b), (isDirectory c); simpl;
    try lia; apply transitive.
Qed.

Lemma sorted_levelOrdered l :
  StronglySorted (fun a b => compareNodes localeCompare a b <= 0) l -> levelOrdered localeCompare l.
Proof.
  induction 1 as [|x l Hs IH Hx].
  - exists [], []. repeat split; constructor.
  - destruct IH as (ds & fs & -> & Hd & Hf & Sd & Sf).
    apply Forall_app in Hx. destruct Hx as [Hxd Hxf].
    destruct (isDirectory x) eqn:Ex.
    + exists (x :: ds), fs. repeat split; try assumption.
      * constructor; assumption.
      * constructor; [exact Sd|].
        rewrite Forall_forall in *. intros y Hy.
        specialize (Hxd y Hy). specialize (Hd y Hy).
        unfold compareNodes in Hxd. rewrite Ex, Hd in Hxd.
        simpl in Hxd. exact Hxd.
    + destruct ds as [|d ds].
      * exists [], (x :: fs). simpl. repeat split; try constructor; try assumption.
        rewrite Forall_forall in *. intros y Hy.
        specialize (Hxf y Hy). specialize (Hf y Hy).
        unfold compareNodes in Hxf. rewrite Ex, Hf in Hxf.
        simpl in Hxf. exact Hxf.
      * exfalso. inversion Hxd as [|? ? H1 _]; subst.
        inversion Hd as [|? ? H2 _]; subst.
        unfold compareNodes in H1. rewrite Ex, H2 in H1.
        simpl in H1. lia.
Qed.

Lemma ordered_walk dir p b w :
  exists t w',
    getFileTree localeCompare dir p b w = (inl t, w')
    /\ orderedListing localeCompare dir b t.
Proof.
  apply getFileTree_run.
  - intros ? ?. split; [|constructor].
    exists [], []. repeat split; constructor.
  - intros m es b' tree HF. split.
    + apply sorted_levelOrdered.
      apply SortFacts.sort_sorted;
        [exact compareNodes_total | exact compareNodes_transitive].
    + assert (H : Forall (everyLevel (levelOrdered localeCompare)) tree).
      { induction HF as [|e n es tree [Hfields Hsub] _ IH];
          constructor; [|exact IH].
        destruct (isDir (snd e)) eqn:Ed.
        - destruct (Hsub eq_refl) as (c & Hc & Hl & Hall).
          apply (everyLevel_children _ _ _ Hc). split; assumption.
        - apply everyLevel_leaf.
          destruct Hfields as (_ & _ & _ & _ & _ & _ & _ & H). apply H, Ed. }
      rewrite Forall_forall in *. intros n Hn. apply H.
      eapply Permutation_in; [apply SortFacts.sort_perm | exact Hn].
Qed.

(** C3.  Whatever directory [getFileTree] lists, it returns a list, and
    on every level of it (the list itself, the children of each of its
    nodes, and so on) all directories come before all other entries
    and each of the two groups is in ascending order of
    [localeCompare] on the names.  A directory that holds [b.txt], [A]
    (a sub-directory) and [a.txt], in this order on disk, is returned
    as [A], [a.txt], [b.txt]. *)
Theorem tree_levels_directories_first_then_by_name :
  (forall dir dirPath basePath w,
      exists tree w',
        getFileTree localeCompare dir dirPath basePath w = (inl tree, w')
        /\ levelOrdered localeCompare tree
        /\ Forall (everyLevel (levelOrdered localeCompare)) tree)
  /\ (localeCompare "a.txt" "b.txt" < 0 ->
      forall m mb db mA esA ma da dirPath basePath w,
        readFails m = false -> statFails mb = false ->
        statFails mA = false -> statFails ma = false ->
        exists tree w',
          getFileTree localeCompare
            (Dir m [("b.txt", File mb db); ("A", Dir mA esA);
                    ("a.txt", File ma da)])
            dirPath basePath w = (inl tree, w')
          /\ map name tree = ["A"; "a.txt"; "b.txt"]).
Proof.
  split.
  - intros dir p b w. destruct (ordered_walk dir p b w) as (t & w' & E & H1 & H2).
    exists t, w'. auto.
  - intros Hab m mb db mA esA ma da p b w Hm Hmb HmA Hma.
    assert (Hba : 0 < localeCompare "b.txt" "a.txt")
      by (apply antisymmetric; exact Hab).
    simpl getFileTree. unfold tryCatch, bind, record, ret, throw.
    rewrite Hm. rewrite !forEachItem_cons. cbv zeta.
    unfold bind, record, statNode, ret, throw.
    cbn [meta isDir isFile root log clock tick].
    rewrite Hmb, HmA, Hma. cbv iota beta.
    match goal with
    | |- context [getFileTree localeCompare (Dir mA esA) ?p' ?b' ?w'] =>
        destruct (ordered_walk (Dir mA esA) p' b' w') as (t & w1 & E & _)
    end.
    rewrite E. eexists. eexists. split; [reflexivity|].
    simpl. unfold compareNodes. simpl.
    replace (localeCompare "b.txt" "a.txt" <=? 0) with false
      by (symmetry; apply Z.leb_gt; exact Hba).
    reflexivity.
Qed.
End Ordered.

(** Code-unit order is a consistent comparison. *)
Lemma stringCompare_le_trans a :
  forall b c, String.compare a b <> Gt -> String.compare b c <> Gt ->
              String.compare a c <> Gt.
Proof.
  induction a as [|x a IH]; intros [|y b] [|z c]; simpl; try congruence.
  unfold Ascii.compare.
  destruct (N.compare_spec (N_of_ascii x) (N_of_ascii y)) as [E1|L1|G1];
    destruct (N.compare_spec (N_of_ascii y) (N_of_ascii z)) as [E2|L2|G2];
    try congruence.
  - rewrite E1, E2, N.compare_refl. apply IH.
  - intros _ _. rewrite E1. apply N.compare_lt_iff in L2. rewrite L2. congruence.
  - intros _ _. rewrite <- E2. apply N.compare_lt_iff in L1. rewrite L1. congruence.
  - intros _ _. assert (L : (N_of_ascii x < N_of_ascii z)%N) by lia.
    apply N.compare_lt_iff in L. rewrite L. congruence.
Qed.

Lemma codeUnitCompare_antisymmetric a b :
  0 < Sample.codeUnitCompare a b <-> Sample.codeUnitCompare b a < 0.
Proof.
  unfold Sample.codeUnitCompare. rewrite (String.compare_antisym a b).
  destruct (String.compare b a); simpl; lia.
Qed.

Lemma codeUnitCompare_transitive a b c :
  Sample.codeUnitCompare a b <= 0 -> Sample.codeUnitCompare b c <= 0 ->
  Sample.codeUnitCompare a c <= 0.
Proof.
  unfold Sample.codeUnitCompare. intros H1 H2.
  assert (H : String.compare a c <> Gt).
  { apply (stringCompare_le_trans a b c).
    - destruct (String.compare a b); try congruence; lia.
    - destruct (String.compare b c); try congruence; lia. }
  destruct (String.compare a c); try lia. congruence.
Qed.

(** The sample project, listed in code-unit order. *)
Lemma tree_levels_sample :
  Sample.codeUnitCompare "a.txt" "b.txt" < 0
  /\ exists tree w',
      getFileTree Sample.codeUnitCompare Sample.proj "/srv/Workspace/proj" ""
                  Sample.world = (inl tree, w')
      /\ map name tree = ["A"; "a.txt"; "b.txt"]
      /\ levelOrdered Sample.codeUnitCompare tree.
Proof.
  split; [reflexivity|].
  destruct (tree_levels_directories_first_then_by_name
              Sample.codeUnitCompare codeUnitCompare_antisymmetric
              codeUnitCompare_transitive) as [Hall Hex].
  destruct (Hex eq_refl Sample.dirMeta
                (mkMeta 100 200 1 false false) [1]
                Sample.dirMeta []
                (mkMeta 100 200 2 false false) [97; 10]
                "/srv/Workspace/proj" "" Sample.world
                eq_refl eq_refl eq_refl eq_refl) as (tree & w' & E & Hn).
  exists tree, w'. split; [exact E|]. split; [exact Hn|].
  destruct (Hall Sample.proj "/srv/Workspace/proj" "" Sample.world)
    as (tree2 & w2 & E2 & Ho & _).
  change (Dir Sample.dirMeta
              [("b.txt", File (mkMeta 100 200 1 false false) [1]);
               ("A", Dir Sample.dirMeta []);
               ("a.txt", File (mkMeta 100 200 2 false false) [97; 10])])
    with Sample.proj in E.
  rewrite E in E2. inversion E2; subst. exact Ho.
Defined.

(** *** Nodes *)






End TreeFacts.

(** ** UTF-8 *)

Module Utf8Facts.
Import Utf8.
Local Open Scope Z_scope.








End Utf8Facts.

(** ** Reading a file *)

Module ReadFacts.
Import JsString Fs Async FsPromises Http ProjectRoutes RunSpec ReadSpec.
Import RunFacts.
Local Open Scope Z_scope.

Lemma readFile_run p w :
  readFile p w = (readOutcome (root w) p, logged (ReadFile p) w).
Proof.
  unfold readFile, readOutcome, bind, record, getRoot, lift, logged. simpl.
  destruct (find (root w) p) as [[m d|m es]|e]; simpl; try reflexivity.
  destruct (readFails m); reflexivity.
Qed.



(** The route, once the security check has let the request through. *)
Lemma getFile_run app pn fp w :
  insideProject app pn fp = true ->
  let full := fullFilePath app pn fp in
  let w1 := logged (Stat full) w in
  getFile app pn fp w
  = match statOutcome (root w) full with
    | inr _ =>
        (inl (statusJson 404 (Failure ("File " ++ quoted fp ++ " not found"))),
         w1)
    | inl stats =>
        if FsPromises.isDirectory stats then
          (inl (statusJson 400 (Failure "Path is a directory, not a file")), w1)
        else if st_size stats >? maxFileSize then
          (inl (statusJson 413 (Failure "File too large to display (>10MB)")),
           w1)
        else
          let '(content, isBinary) :=
            match readOutcome (root w) full with
            | inl text =>
                if nonPrintableRegexTest text then (None, true)
                else (Some text, false)
            | inr _ => (None, true)
            end in
          (inl (json (FileBody
                        (mkFileContent (Path.basename full)
                           (backslashToSlash fp) (Path.extname full)
                           (st_size stats) (st_mtime stats) content isBinary
                           (if isBinary then "binary" else "text")))),
           logged (ReadFile full) w1)
    end.
Proof.
  intros Hin full w1. unfold getFile. rewrite Hin. cbn [negb].
  fold (fullFilePath app pn fp). fold full.
  unfold tryCatch at 1 2. unfold bind at 1. rewrite stat_run. fold w1.
  destruct (statOutcome (root w) full) as [stats|e]; [|reflexivity].
  destruct (FsPromises.isDirectory stats); [reflexivity|].
  destruct (st_size stats >? maxFileSize); [reflexivity|].
  unfold bind at 1. unfold tryCatch, bind at 1. rewrite readFile_run.
  change (root w1) with (root w).
  destruct (readOutcome (root w) full) as [text|e]; [|reflexivity].
  destruct (nonPrintableRegexTest text); reflexivity.
Qed.

(** C4.  For a target that exists and passes the security check:
    a directory is answered 400; anything else for which [stat] reports
    more than 10 * 1024 * 1024 bytes is answered 413; in both cases the
    only call made is the [stat], so the content is never read.  A
    target that passes both tests is read, by one [readFile] after the
    [stat]. *)
Theorem read_refuses_directories_and_large_files app pn fp w n :
  insideProject app pn fp = true ->
  find (root w) (fullFilePath app pn fp) = inl n ->
  statFails (meta n) = false ->
  let full := fullFilePath app pn fp in
  maxFileSize = 10 * 1024 * 1024
  /\ (isDir n = true ->
      getFile app pn fp w
      = (inl (statusJson 400 (Failure "Path is a directory, not a file")),
         logged (Stat full) w))
  /\ (isDir n = false -> maxFileSize < Fs.size (meta n) ->
      getFile app pn fp w
      = (inl (statusJson 413 (Failure "File too large to display (>10MB)")),
         logged (Stat full) w))
  /\ (isDir n = false -> Fs.size (meta n) <= maxFileSize ->
      exists file,
        getFile app pn fp w
        = (inl (json (FileBody file)),
           logged (ReadFile full) (logged (Stat full) w))).
Proof.
  intros Hin Hfind Hstat full.
  pose proof (getFile_run app pn fp w Hin) as E. cbv zeta in E. fold full in E.
  unfold statOutcome in E. fold full in Hfind. rewrite Hfind, Hstat in E.
  unfold statsOf in E. cbn [FsPromises.isDirectory st_size] in E.
  split; [reflexivity|]. split; [|split].
  - intros Hd. rewrite Hd in E. exact E.
  - intros Hd Hbig. rewrite Hd in E.
    replace (Fs.size (meta n) >? maxFileSize) with true in E
      by (symmetry; apply Z.gtb_lt; exact Hbig).
    exact E.
  - intros Hd Hsmall. rewrite Hd in E.
    replace (Fs.size (meta n) >? maxFileSize) with false in E
      by (symmetry; rewrite Z.gtb_ltb; apply Z.ltb_ge; exact Hsmall).
    destruct (match readOutcome (root w) full with
              | inl text =>
                  if nonPrintableRegexTest text then (None, true)
                  else (Some text, false)
              | inr _ => (None, true)
              end) as [content isBinary].
    eexists. exact E.
Qed.

(** A file of 10 * 1024 * 1024 + 1 bytes, and a directory. *)
Lemma read_refuses_sample :
  (insideProject Sample.app "proj" "huge.bin" = true
   /\ find (root Sample.bigWorld) (fullFilePath Sample.app "proj" "huge.bin")
      = inl (File (mkMeta 100 200 (10 * 1024 * 1024 + 1) false false) [0; 1; 2]))
  /\ getFile Sample.app "proj" "huge.bin" Sample.bigWorld
     = (inl (statusJson 413 (Failure "File too large to display (>10MB)")),
        logged (Stat "/srv/Workspace/proj/huge.bin") Sample.bigWorld)
  /\ getFile Sample.app "proj" "sub" Sample.bigWorld
     = (inl (statusJson 400 (Failure "Path is a directory, not a file")),
        logged (Stat "/srv/Workspace/proj/sub") Sample.bigWorld).
Proof.
  split; [split; reflexivity|]. split.
  - destruct (read_refuses_directories_and_large_files
                Sample.app "proj" "huge.bin" Sample.bigWorld
                (File (mkMeta 100 200 (10 * 1024 * 1024 + 1) false false) [0; 1; 2])
                eq_refl eq_refl eq_refl) as (_ & _ & H & _).
    apply H; reflexivity.
  - destruct (read_refuses_directories_and_large_files
                Sample.app "proj" "sub" Sample.bigWorld
                (Dir Sample.dirMeta [])
                eq_refl eq_refl eq_refl) as (_ & H & _).
    apply H; reflexivity.
Defined.



End ReadFacts.

(** ** Paths *)

Module PathFacts.
Import JsString Path PathSpec.

Lemma append_assoc (a b c : string) : (a ++ b) ++ c = a ++ (b ++ c).
Proof. induction a as [|x a IH]; simpl; [reflexivity | rewrite IH; reflexivity]. Qed.

Lemma append_empty (a : string) : a ++ "" = a.
Proof. induction a as [|x a IH]; simpl; [reflexivity | rewrite IH; reflexivity]. Qed.

Lemma chars_app (a b : string) : chars (a ++ b) = (chars a ++ chars b)%list.
Proof.
  unfold chars. induction a as [|x a IH]; simpl; [reflexivity | rewrite IH; reflexivity].
Qed.

Lemma split_noSlash s : Forall (fun x => noSlash x = true) (split "/" s).
Proof.
  induction s as [|c s IH]; simpl.
  - repeat constructor.
  - destruct (Ascii.eqb c "/") eqn:E.
    + constructor; [reflexivity | exact IH].
    + destruct (split "/" s) as [|x xs]; inversion IH; subst; constructor;
        simpl; try rewrite E; auto.
Qed.

Lemma split_nonempty c s : split c s <> [].
Proof.
  destruct s as [|a s]; simpl; [discriminate|].
  destruct (Ascii.eqb a c); [discriminate|].
  destruct (split c s); discriminate.
Qed.

Lemma split_one s : noSlash s = true -> split "/" s = [s].
Proof.
  induction s as [|c s IH]; simpl; [reflexivity|].
  intros H. apply andb_true_iff in H. destruct H as [H1 H2].
  apply negb_true_iff in H1. rewrite H1, (IH H2). reflexivity.
Qed.

Lemma split_app s1 s2 :
  noSlash s1 = true ->
  split "/" (s1 ++ String "/" s2) = s1 :: split "/" s2.
Proof.
  induction s1 as [|c s1 IH]; simpl; [reflexivity|].
  intros H. apply andb_true_iff in H. destruct H as [H1 H2].
  apply negb_true_iff in H1. rewrite H1, (IH H2). reflexivity.
Qed.

Lemma concat_cons2 (s s' : string) r :
  String.concat "/" (s :: s' :: r) = s ++ String "/" (String.concat "/" (s' :: r)).
Proof. reflexivity. Qed.

Lemma split_concat (segs : list string) (slash : bool) :
  Forall (fun x => noSlash x = true) segs -> segs <> [] ->
  split "/" (String.concat "/" segs ++ (if slash then "/" else ""))
  = (segs ++ (if slash then [EmptyString] else []))%list.
Proof.
  induction 1 as [|s segs Hs Hall IH]; [congruence|]. intros _.
  destruct segs as [|s' r].
  - simpl String.concat. destruct slash.
    + rewrite (split_app s "" Hs). reflexivity.
    + rewrite append_empty, (split_one s Hs). reflexivity.
  - rewrite concat_cons2, append_assoc.
    change (String "/" (String.concat "/" (s' :: r)) ++ (if slash then "/" else ""))
      with (String "/" (String.concat "/" (s' :: r) ++ (if slash then "/" else ""))).
    rewrite (split_app _ _ Hs), IH by discriminate. reflexivity.
Qed.

Lemma entryName_noSlash s : entryName s = true -> noSlash s = true.
Proof. unfold entryName. intros H. apply andb_true_iff in H. apply H. Qed.

Lemma pushSegment_entry stack s :
  entryName s = true -> pushSegment false stack s = s :: stack.
Proof.
  unfold entryName, pushSegment, isDots. intros H.
  apply andb_true_iff in H. destruct H as [H _].
  apply andb_true_iff in H. destruct H as [H H3].
  apply andb_true_iff in H. destruct H as [H1 H2].
  apply negb_true_iff in H1, H2, H3. rewrite H1, H2, H3. reflexivity.
Qed.

Lemma fold_entries segs :
  Forall (fun x => entryName x = true) segs ->
  forall stack,
    fold_left (pushSegment false) segs stack = (rev segs ++ stack)%list.
Proof.
  induction 1 as [|s segs Hs _ IH]; intros stack; simpl; [reflexivity|].
  rewrite (pushSegment_entry _ _ Hs), IH, <- app_assoc. reflexivity.
Qed.

(** Only entry names survive normalization below the root. *)
Lemma fold_keeps_entries l :
  Forall (fun x => noSlash x = true) l ->
  forall stack,
    Forall (fun x => entryName x = true) stack ->
    Forall (fun x => entryName x = true) (fold_left (pushSegment false) l stack).
Proof.
  induction 1 as [|s l Hs _ IH]; intros stack Hst; simpl; [exact Hst|].
  apply IH. unfold pushSegment, isDots.
  destruct (s =? "") eqn:E1; [exact Hst|].
  destruct (s =? ".") eqn:E2; [exact Hst|]. simpl.
  destruct (s =? "..") eqn:E3.
  - destruct stack as [|top rest]; [constructor|].
    destruct (top =? ".."); [exact Hst|]. inversion Hst; assumption.
  - constructor; [|exact Hst]. unfold entryName. rewrite E1, E2, E3, Hs. reflexivity.
Qed.

Lemma normalizeSegments_entries s :
  Forall (fun x => entryName x = true) (normalizeSegments false s).
Proof.
  unfold normalizeSegments. apply Forall_rev, fold_keeps_entries;
    [apply split_noSlash | constructor].
Qed.

Lemma normalizeSegments_absolutePath segs slash :
  Forall (fun x => entryName x = true) segs ->
  normalizeSegments false (absolutePath segs slash) = segs.
Proof.
  intros H. unfold normalizeSegments, absolutePath.
  destruct segs as [|s r] eqn:Es; [reflexivity|]. rewrite <- Es in *.
  change ("/" ++ String.concat "/" segs ++ (if slash then "/" else ""))
    with (String "/" (String.concat "/" segs ++ (if slash then "/" else ""))).
  cbn [split]. rewrite Ascii.eqb_refl.
  rewrite split_concat;
    [| eapply Forall_impl; [|exact H]; apply entryName_noSlash
     | subst; discriminate].
  cbn [fold_left]. change (pushSegment false [] "") with (@nil string).
  rewrite fold_left_app, (fold_entries _ H), app_nil_r.
  destruct slash; simpl; apply rev_involutive.
Qed.

Lemma endsWithChar_app c a b :
  b <> "" -> endsWithChar c (a ++ b) = endsWithChar c b.
Proof.
  intros Hb. induction a as [|x a IH]; [reflexivity|].
  cbn [append]. cbn [endsWithChar].
  destruct (a ++ b) eqn:E; [|exact IH].
  destruct a; simpl in E; [contradiction | discriminate].
Qed.

Lemma endsWithChar_noSlash s : noSlash s = true -> endsWithChar "/" s = false.
Proof.
  induction s as [|c s IH]; [reflexivity|]. simpl.
  intros H. apply andb_true_iff in H. destruct H as [H1 H2].
  apply negb_true_iff in H1.
  destruct s; [exact H1 | apply IH, H2].
Qed.

Lemma entryName_nonempty s : entryName s = true -> s <> "".
Proof. intros H ->. discriminate H. Qed.

Lemma concat_nonempty segs :
  Forall (fun x => entryName x = true) segs -> segs <> [] ->
  String.concat "/" segs <> "".
Proof.
  destruct 1 as [|s segs Hs Hall]; [congruence|]. intros _.
  destruct segs as [|s' r].
  - simpl. apply entryName_nonempty, Hs.
  - rewrite concat_cons2. destruct s; [discriminate Hs | discriminate].
Qed.

Lemma concat_snoc init last :
  init <> [] ->
  String.concat "/" (init ++ [last]) = String.concat "/" init ++ String "/" last.
Proof.
  induction init as [|s init IH]; [congruence|]. intros _.
  destruct init as [|s' r].
  - reflexivity.
  - change ((s :: s' :: r) ++ [last])%list with (s :: s' :: (r ++ [last]))%list.
    rewrite !concat_cons2.
    change (s' :: (r ++ [last]))%list with ((s' :: r) ++ [last])%list.
    rewrite IH by discriminate. rewrite append_assoc. reflexivity.
Qed.

Lemma endsWithChar_concat segs :
  Forall (fun x => entryName x = true) segs -> segs <> [] ->
  endsWithChar "/" (String.concat "/" segs) = false.
Proof.
  intros H Hne. destruct (exists_last Hne) as (init & last & ->).
  apply Forall_app in H. destruct H as [_ Hl]. inversion Hl as [|? ? Hlast _]; subst.
  destruct init as [|s1 r1].
  - simpl. apply endsWithChar_noSlash, entryName_noSlash, Hlast.
  - rewrite concat_snoc by discriminate.
    rewrite endsWithChar_app by discriminate.
    cbn [endsWithChar]. destruct last; [discriminate Hlast|].
    apply (endsWithChar_noSlash (String a last)), entryName_noSlash, Hlast.
Qed.

Lemma trailing_absolutePath segs slash :
  Forall (fun x => entryName x = true) segs ->
  endsWithChar "/" (absolutePath segs slash)
  = match segs with [] => true | _ => slash end.
Proof.
  intros H. unfold absolutePath. destruct segs as [|s r] eqn:Es; [reflexivity|].
  rewrite <- Es in *. assert (Hne : segs <> []) by (subst; discriminate).
  destruct slash.
  - rewrite <- append_assoc. apply endsWithChar_app. discriminate.
  - rewrite append_empty. rewrite endsWithChar_app by (apply concat_nonempty; assumption).
    apply endsWithChar_concat; assumption.
Qed.

Lemma noSlash_chars s :
  noSlash s = true -> Forall (fun c => Ascii.eqb c "/" = false) (chars s).
Proof.
  unfold chars. induction s as [|c s IH]; simpl; [constructor|].
  intros H. apply andb_true_iff in H. destruct H as [H1 H2].
  apply negb_true_iff in H1. constructor; [exact H1 | apply IH, H2].
Qed.

Lemma dropSegment_skip l tail :
  Forall (fun c => Ascii.eqb c "/" = false) l ->
  dropSegment (l ++ tail) = dropSegment tail.
Proof.
  induction 1 as [|c l Hc _ IH]; [reflexivity|]. simpl. rewrite Hc. exact IH.
Qed.

Lemma chars_nonempty s : s <> "" -> chars s <> [].
Proof. destruct s; [congruence | discriminate]. Qed.

(** [dirname] removes the last segment. *)
Lemma dirname_absolutePath segs slash :
  Forall (fun x => entryName x = true) segs ->
  dirname (absolutePath segs slash) = absolutePath (removelast segs) false.
Proof.
  intros H. destruct segs as [|s0 r0] eqn:Es; [reflexivity|].
  rewrite <- Es in *. assert (Hne : segs <> []) by (subst; discriminate).
  clear Es s0 r0.
  destruct (exists_last Hne) as (init & last & ->).
  rewrite removelast_last.
  apply Forall_app in H. destruct H as [Hinit Hl].
  inversion Hl as [|? ? Hlast _]; subst.
  pose proof (noSlash_chars _ (entryName_noSlash _ Hlast)) as Hcl.
  pose proof (chars_nonempty _ (entryName_nonempty _ Hlast)) as Hln.
  assert (Hshape : exists tailChars,
             chars (absolutePath (init ++ [last]) slash)
             = ("/"%char :: tailChars)%list
             /\ dropTrailing (rev tailChars)
                = (rev (chars last)
                       ++ match init with
                          | [] => []
                          | _ => "/"%char :: rev (chars (String.concat "/" init))
                          end)%list).
  { unfold absolutePath.
    destruct (init ++ [last])%list as [|s2 r2] eqn:E0;
      [destruct init; discriminate|].
    rewrite <- E0. clear E0.
    exists (chars (String.concat "/" (init ++ [last])
                   ++ (if slash then "/" else ""))).
    split; [reflexivity|].
    rewrite chars_app, rev_app_distr.
    assert (Hc : rev (chars (String.concat "/" (init ++ [last])))
                 = (rev (chars last)
                        ++ match init with
                           | [] => []
                           | _ => "/"%char :: rev (chars (String.concat "/" init))
                           end)%list).
    { destruct init as [|s1 r1].
      - simpl. rewrite app_nil_r. reflexivity.
      - rewrite concat_snoc by discriminate.
        rewrite chars_app. change (chars (String "/" last)) with ("/"%char :: chars last).
        rewrite rev_app_distr. simpl rev at 1.
        rewrite <- app_assoc. reflexivity. }
    rewrite Hc.
    assert (Hstop : forall tl, dropTrailing (rev (chars last) ++ tl)
                               = (rev (chars last) ++ tl)%list).
    { intros tl. destruct (rev (chars last)) as [|c l] eqn:Er.
      - exfalso. apply Hln. rewrite <- (rev_involutive (chars last)), Er. reflexivity.
      - simpl. assert (Hc' : Ascii.eqb c "/" = false).
        { apply Forall_rev in Hcl. rewrite Er in Hcl. inversion Hcl; assumption. }
        rewrite Hc'. reflexivity. }
    destruct slash; simpl rev at 1; cbn [app dropTrailing].
    - rewrite Ascii.eqb_refl. apply Hstop.
    - apply Hstop. }
  destruct Hshape as (tailChars & Hchars & Hdrop).
  unfold dirname. rewrite Hchars, Hdrop.
  rewrite dropSegment_skip by (apply Forall_rev, Hcl).
  rewrite Ascii.eqb_refl.
  destruct init as [|s r].
  - reflexivity.
  - cbn [dropSegment]. rewrite Ascii.eqb_refl.
    destruct (rev (chars (String.concat "/" (s :: r)))) as [|c l] eqn:Er.
    + exfalso.
      apply (chars_nonempty (String.concat "/" (s :: r))).
      * apply concat_nonempty; [exact Hinit | discriminate].
      * rewrite <- (rev_involutive (chars _)), Er. reflexivity.
    + cbn [andb]. rewrite <- Er, rev_involutive.
      unfold absolutePath. rewrite append_empty.
      unfold ofChars. cbn [string_of_list_ascii].
      fold (ofChars (chars (String.concat "/" (s :: r)))).
      unfold ofChars, chars. rewrite string_of_list_ascii_of_string. reflexivity.
Qed.

(** What [path.join] returns from an absolute first argument. *)
Lemma join_absolute ws rest :
  isAbsolute ws = true ->
  exists segs slash,
    Forall (fun x => entryName x = true) segs
    /\ join (ws :: rest) = absolutePath segs slash.
Proof.
  intros Habs. destruct ws as [|c ws']; [discriminate|].
  simpl in Habs. apply Ascii.eqb_eq in Habs. subst c.
  unfold join. cbn [filter]. change (negb (String "/" ws' =? "")) with true.
  cbv iota.
  set (parts := filter (fun a => negb (a =? "")) rest).
  assert (Hj : exists X, String.concat "/" (String "/" ws' :: parts) = String "/" X).
  { destruct parts; simpl; eexists; reflexivity. }
  destruct Hj as (X & ->).
  unfold normalize. change (String "/" X =? "") with false. cbv iota.
  change (isAbsolute (String "/" X)) with true. cbv zeta. cbn [negb].
  unfold normalizeString.
  pose proof (normalizeSegments_entries (String "/" X)) as Hs.
  remember (normalizeSegments false (String "/" X)) as segs eqn:Hsegs.
  clear Hsegs.
  exists segs, (endsWithChar "/" (String "/" X)). split; [exact Hs|].
  destruct segs as [|s r]; [reflexivity|].
  destruct (String.eqb_spec (String.concat "/" (s :: r)) "") as [E|_].
  { exfalso. apply (concat_nonempty (s :: r) Hs); [discriminate | exact E]. }
  unfold absolutePath.
  destruct (endsWithChar "/" (String "/" X)); [reflexivity|].
  rewrite append_empty. reflexivity.
Qed.

End PathFacts.

(** ** UTF-8 round trip *)

Module Utf8RoundTrip.
Import Utf8 Utf8Spec.
Local Open Scope Z_scope.









End Utf8RoundTrip.

(** ** The filesystem *)

Module FsFacts.
Import JsString Fs WriteSpec.
Local Open Scope Z_scope.

Lemma assoc_update_same c n es x :
  assoc c es = Some x -> assoc c (update c n es) = Some n.
Proof.
  induction es as [|[k y] es IH]; simpl; [discriminate|].
  destruct (String.eqb_spec k c) as [->|Hk].
  - intros _. simpl. rewrite String.eqb_refl. reflexivity.
  - intros H. simpl. destruct (String.eqb_spec k c); [contradiction|].
    apply IH, H.
Qed.

Lemma assoc_app_new c n es :
  assoc c es = None -> assoc c (es ++ [(c, n)]) = Some n.
Proof.
  induction es as [|[k y] es IH]; simpl.
  - intros _. rewrite String.eqb_refl. reflexivity.
  - destruct (k =? c)%string; [discriminate | exact IH].
Qed.

Lemma update_same c n es : assoc c es = Some n -> update c n es = es.
Proof.
  induction es as [|[k y] es IH]; simpl; [reflexivity|].
  destruct (k =? c)%string.
  - intros H. inversion H. reflexivity.
  - intros H. rewrite (IH H). reflexivity.
Qed.









(** Only for a name that is too long can something have been made. *)
Lemma madeBefore_refused t r p e :
  pathError p = Some e -> e <> ENAMETOOLONG -> madeBefore t r p = r.
Proof.
  unfold pathError, madeBefore. destruct (hasNul p); [reflexivity|].
  destruct (tooLong p); [|discriminate]. intros E. inversion E. congruence.
Qed.


(** Writing a file into an existing directory, over nothing or over a
    regular file. *)
Lemma writeAt_file t data p x :
  forall n,
    (exists m es, lookup n p = Some (Dir m es)) ->
    match lookup n (p ++ [x]) with
    | None | Some (File _ _) => True
    | Some _ => False
    end ->
    exists n' m',
      writeAt t data n (p ++ [x]) = inl n'
      /\ lookup n' (p ++ [x]) = Some (File m' data)
      /\ Fs.size m' = Z.of_nat (List.length data)
      /\ mtime m' = t
      /\ statFails m' = match lookup n (p ++ [x]) with
                        | Some old => statFails (meta old)
                        | None => false
                        end
      /\ readFails m' = match lookup n (p ++ [x]) with
                        | Some old => readFails (meta old)
                        | None => false
                        end
      /\ exists m2 es2, lookup n' p = Some (Dir m2 es2).
Proof.
  induction p as [|c p IH]; intros n (m & es & Hd) Ht.
  - simpl in Hd. inversion Hd; subst. simpl in *.
    destruct (assoc x es) as [old|] eqn:Ea.
    + destruct old as [mo d|mo eo]; try contradiction.
      eexists. eexists. split; [reflexivity|]. simpl.
      rewrite (assoc_update_same _ _ _ _ Ea).
      repeat split; try reflexivity. eexists. eexists. reflexivity.
    + eexists. eexists. split; [reflexivity|]. simpl.
      rewrite (assoc_app_new _ _ _ Ea).
      repeat split; try reflexivity. eexists. eexists. reflexivity.
  - destruct n as [mn d|mn en]; try discriminate. simpl in Hd, Ht |- *.
    destruct (assoc c en) as [n1|] eqn:Ea; [|discriminate].
    destruct (IH n1 (ex_intro _ m (ex_intro _ es Hd)) Ht)
      as (n1' & m' & E & Hl & Hs & Hm & Hsf & Hrf & Hdir).
    rewrite E. eexists. exists m'. split; [reflexivity|]. simpl.
    rewrite (assoc_update_same _ _ _ _ Ea).
    repeat split; assumption.
Qed.

End FsFacts.

(** ** Paths the system takes *)

Module PathLimitFacts.
Import JsString Path PathSpec Fs PathFacts.







End PathLimitFacts.

(** ** Writing and creating a file *)

Module WriteFacts.
Import JsString Fs Async FsPromises Http ProjectRoutes.
Import RunSpec ReadSpec PathSpec WriteSpec.
Import RunFacts ReadFacts PathFacts FsFacts.
Local Open Scope Z_scope.

Lemma mkdir_run p w :
  mkdir p w
  = let w' := mkWorld (root w) (log w ++ [Mkdir p]) (clock w) (S (tick w)) in
    match pathError p with
    | Some e =>
        (inr e,
         mkWorld (madeBefore (clock w (tick w)) (root w) p) (log w ++ [Mkdir p])
                 (clock w) (S (tick w)))
    | None =>
        match mkdirp (clock w (tick w)) (root w) (segments p) with
        | Some r' =>
            (inl tt, mkWorld r' (log w ++ [Mkdir p]) (clock w) (S (tick w)))
        | None => (inr EEXIST, w')
        end
    end.
Proof.
  unfold mkdir, checkPath, bind, record, getRoot, now, setRoot, throw, ret. simpl.
  destruct (pathError p); [reflexivity|].
  destruct (mkdirp (clock w (tick w)) (root w) (segments p)); reflexivity.
Qed.

Lemma writeFile_run p s w :
  writeFile p s w
  = let w' := mkWorld (root w) (log w ++ [WriteFile p]) (clock w) (S (tick w)) in
    match pathError p with
    | Some e => (inr e, w')
    | None =>
        if trailing p then (inr EISDIR, w')
        else match writeAt (clock w (tick w)) (Utf8.encode s) (root w)
                           (segments p) with
             | inl r' =>
                 (inl tt,
                  mkWorld r' (log w ++ [WriteFile p]) (clock w) (S (tick w)))
             | inr e => (inr e, w')
             end
    end.
Proof.
  unfold writeFile, checkPath, bind, record, getRoot, now, setRoot, throw, lift, ret.
  simpl. destruct (pathError p); [reflexivity|].
  destruct (trailing p); [reflexivity|].
  destruct (writeAt (clock w (tick w)) (Utf8.encode s) (root w) (segments p));
    reflexivity.
Qed.

(** The shape of the path the [/file/*] routes work on. *)
Lemma fullFilePath_shape app pn fp :
  Path.isAbsolute (getWorkspacePath app) = true ->
  trailing (fullFilePath app pn fp) = false ->
  exists last,
    segments (fullFilePath app pn fp)
    = (segments (Path.dirname (fullFilePath app pn fp)) ++ [last])%list.
Proof.
  intros Habs Htr. unfold fullFilePath in *.
  destruct (join_absolute _ [pn; fp] Habs) as (segs & slash & Hs & E).
  rewrite E in *. unfold segments, trailing in *.
  rewrite (trailing_absolutePath _ _ Hs) in Htr.
  rewrite (dirname_absolutePath _ _ Hs).
  rewrite (normalizeSegments_absolutePath _ _ Hs).
  assert (Hne : segs <> []) by (destruct segs; [discriminate | discriminate]).
  rewrite normalizeSegments_absolutePath.
  - exists (List.last segs ""). apply app_removelast_last, Hne.
  - destruct (exists_last Hne) as (init & l & ->).
    rewrite removelast_last. apply Forall_app in Hs. apply Hs.
Qed.



Lemma statOutcome_file r p m data :
  lookup r (segments p) = Some (File m data) -> trailing p = false ->
  statFails m = false ->
  statOutcome r p = inl (statsOf (File m data)).
Proof.
  intros Hl Htr Hs. unfold statOutcome, find. rewrite Hl, Htr. cbn [andb meta].
  rewrite Hs. reflexivity.
Qed.







End WriteFacts.

(** * Further properties of the routes *)

(** ** Which paths the security check lets through *)

Module CheckFacts.
Import JsString Path PathSpec PathFacts Fs Http ProjectRoutes ReadSpec CheckSpec.

Lemma split_append a b :
  split "/" (a ++ String "/" b) = (split "/" a ++ split "/" b)%list.
Proof.
  induction a as [|c a IH]; cbn [append split].
  - rewrite Ascii.eqb_refl. reflexivity.
  - destruct (Ascii.eqb c "/") eqn:E.
    + rewrite IH. reflexivity.
    + rewrite IH. destruct (split "/" a) as [|x xs] eqn:Ea.
      * exfalso. exact (split_nonempty _ _ Ea).
      * reflexivity.
Qed.

(** A separator at the end does not change the segments. *)
Lemma normalizeSegments_slash a :
  normalizeSegments false (a ++ "/") = normalizeSegments false a.
Proof.
  unfold normalizeSegments. rewrite split_append, fold_left_app. reflexivity.
Qed.

(** [path.resolve] of an absolute, normalized path only drops the
    separator at its end. *)
Lemma resolve_absolutePath cwd segs slash :
  Forall (fun x => entryName x = true) segs ->
  resolve cwd (absolutePath segs slash) = absolutePath segs false.
Proof.
  intros H. unfold resolve.
  assert (Hs : exists X, absolutePath segs slash = String "/" X).
  { unfold absolutePath. destruct segs; eexists; reflexivity. }
  destruct Hs as (X & E). rewrite E.
  change (String "/" X =? "") with false. cbv iota.
  change (isAbsolute (String "/" X)) with true. cbv iota beta. cbn [negb].
  unfold normalizeString. rewrite normalizeSegments_slash, <- E.
  rewrite (normalizeSegments_absolutePath _ _ H).
  unfold absolutePath. destruct segs; [reflexivity|].
  rewrite append_empty. reflexivity.
Qed.

Lemma split_concat_all l :
  l <> [] -> split "/" (String.concat "/" l) = flat_map (split "/") l.
Proof.
  induction l as [|a l IH]; [congruence|]. intros _.
  destruct l as [|b l].
  - simpl. rewrite app_nil_r. reflexivity.
  - rewrite concat_cons2, split_append, IH by discriminate. reflexivity.
Qed.

Lemma fold_skips_empty allow l :
  forall st,
    fold_left (pushSegment allow)
              (flat_map (split "/") (filter (fun a => negb (a =? "")) l)) st
    = fold_left (pushSegment allow) (flat_map (split "/") l) st.
Proof.
  induction l as [|a l IH]; intros st; [reflexivity|].
  cbn [filter]. destruct (String.eqb_spec a "") as [->|Ha]; cbn [negb].
  - cbn [flat_map]. rewrite fold_left_app. cbn [split fold_left].
    change (pushSegment allow st "") with st. apply IH.
  - cbn [flat_map]. rewrite !fold_left_app. apply IH.
Qed.

(** The segments of a joined path: the segments of the arguments, put
    through [normalizeString] one after the other. *)
Lemma join_segments ws rest :
  isAbsolute ws = true ->
  (exists slash,
      join (ws :: rest)
      = absolutePath
          (rev (fold_left (pushSegment false)
                          (flat_map (split "/") (ws :: rest)) [])) slash)
  /\ segments (join (ws :: rest))
     = rev (fold_left (pushSegment false) (flat_map (split "/") (ws :: rest)) []).
Proof.
  intros Habs.
  assert (Hent : Forall (fun x => entryName x = true)
                        (rev (fold_left (pushSegment false)
                                        (flat_map (split "/") (ws :: rest)) []))).
  { apply Forall_rev, fold_keeps_entries; [|constructor].
    apply Forall_flat_map, Forall_forall. intros x _. apply split_noSlash. }
  assert (Hex : exists slash,
             join (ws :: rest)
             = absolutePath
                 (rev (fold_left (pushSegment false)
                                 (flat_map (split "/") (ws :: rest)) [])) slash).
  { destruct ws as [|c ws']; [discriminate|].
    simpl in Habs. apply Ascii.eqb_eq in Habs. subst c.
    unfold join. cbn [filter]. change (negb (String "/" ws' =? "")) with true.
    cbv iota.
    assert (Hseg : normalizeSegments false
                     (String.concat "/"
                        (String "/" ws' :: filter (fun a => negb (a =? "")) rest))
                   = rev (fold_left (pushSegment false)
                                    (flat_map (split "/") (String "/" ws' :: rest))
                                    [])).
    { unfold normalizeSegments. rewrite split_concat_all by discriminate.
      cbn [flat_map]. rewrite !fold_left_app, fold_skips_empty. reflexivity. }
    rewrite <- Hseg in *.
    set (parts := filter (fun a => negb (a =? "")) rest) in *.
    assert (Hj : exists X, String.concat "/" (String "/" ws' :: parts) = String "/" X).
    { destruct parts; simpl; eexists; reflexivity. }
    destruct Hj as (X & EX). rewrite EX in *.
    unfold normalize. change (String "/" X =? "") with false. cbv iota.
    change (isAbsolute (String "/" X)) with true. cbv zeta. cbn [negb].
    unfold normalizeString.
    remember (normalizeSegments false (String "/" X)) as segs eqn:Hsegs.
    clear Hsegs.
    exists (endsWithChar "/" (String "/" X)).
    destruct segs as [|s r]; [reflexivity|].
    destruct (String.eqb_spec (String.concat "/" (s :: r)) "") as [E|_].
    { exfalso. apply (concat_nonempty (s :: r) Hent); [discriminate | exact E]. }
    unfold absolutePath.
    destruct (endsWithChar "/" (String "/" X)); [reflexivity|].
    rewrite append_empty. reflexivity. }
  split; [exact Hex|].
  destruct Hex as (slash & E). rewrite E. unfold segments.
  apply normalizeSegments_absolutePath, Hent.
Qed.

Lemma dots_stay stack s :
  In ".." stack -> In ".." (pushSegment true stack s).
Proof.
  intros H. unfold pushSegment, isDots.
  destruct ((s =? "") || (s =? ".")); [exact H|].
  destruct (s =? "..") eqn:Es.
  - destruct stack as [|top rest]; [destruct H|].
    destruct (top =? "..") eqn:Et; [right; exact H|].
    destruct H as [H|H]; [|exact H].
    subst top. discriminate Et.
  - right. exact H.
Qed.

Lemma dots_stay_fold l :
  forall stack, In ".." stack -> In ".." (fold_left (pushSegment true) l stack).
Proof.
  induction l as [|s l IH]; intros stack H; [exact H|].
  simpl. apply IH, dots_stay, H.
Qed.

(** Below a stack, a path that does not climb is normalized as it is on
    its own. *)
Lemma fold_below l :
  forall own stack,
    ~ In ".." (fold_left (pushSegment true) l own) ->
    fold_left (pushSegment false) l (own ++ stack)%list
    = (fold_left (pushSegment true) l own ++ stack)%list.
Proof.
  induction l as [|s l IH]; intros own stack H; [reflexivity|].
  cbn [fold_left] in *.
  assert (Hown : ~ In ".." (pushSegment true own s)).
  { intros Hin. apply H, dots_stay_fold, Hin. }
  assert (Hstep : pushSegment false (own ++ stack)%list s
                  = (pushSegment true own s ++ stack)%list).
  { unfold pushSegment, isDots in *.
    destruct ((s =? "") || (s =? ".")); [reflexivity|].
    destruct (String.eqb_spec s "..") as [->|Hs]; [|reflexivity].
    destruct own as [|top rest].
    - exfalso. apply Hown. left. reflexivity.
    - cbn [app]. destruct (String.eqb_spec top "..") as [->|Ht]; [|reflexivity].
      exfalso. apply Hown. left. reflexivity. }
  rewrite Hstep. apply IH, H.
Qed.

Lemma existsb_isDots l : existsb isDots l = false <-> ~ In ".." l.
Proof.
  split.
  - intros H Hin. assert (E : existsb isDots l = true).
    { apply existsb_exists. exists "..". split; [exact Hin | reflexivity]. }
    congruence.
  - intros H. destruct (existsb isDots l) eqn:E; [|reflexivity].
    apply existsb_exists in E. destruct E as (x & Hx & Ex).
    unfold isDots in Ex. apply String.eqb_eq in Ex. subst x. contradiction.
Qed.

Lemma concat_app_entries P F :
  P <> [] ->
  String.concat "/" (P ++ F)
  = String.concat "/" P
    ++ match F with [] => "" | _ => String "/" (String.concat "/" F) end.
Proof.
  intros HP. induction P as [|s P IH]; [congruence|].
  destruct P as [|s' P'].
  - destruct F; simpl; [rewrite append_empty|]; reflexivity.
  - change ((s :: s' :: P') ++ F)%list with (s :: s' :: (P' ++ F))%list.
    rewrite !concat_cons2.
    change (s' :: (P' ++ F))%list with ((s' :: P') ++ F)%list.
    rewrite IH by discriminate. rewrite append_assoc. reflexivity.
Qed.

Lemma prefix_cons c a b :
  String.prefix (String c a) (String c b) = String.prefix a b.
Proof.
  cbn [String.prefix]. destruct (ascii_dec c c) as [_|Hc]; [reflexivity | congruence].
Qed.

Lemma prefix_empty b : String.prefix "" b = true.
Proof. destruct b; reflexivity. Qed.

Lemma prefix_append a b : String.prefix a (a ++ b) = true.
Proof.
  induction a as [|c a IH]; [apply prefix_empty|].
  cbn [append]. rewrite prefix_cons. exact IH.
Qed.

Lemma prefix_absolutePath_app P F :
  String.prefix (absolutePath P false) (absolutePath (P ++ F) false) = true.
Proof.
  unfold absolutePath. destruct P as [|s P'].
  - destruct ([] ++ F)%list; [reflexivity|].
    change ("/" ++ ?x) with (String "/" x).
    change "/" with (String "/" "") at 1. rewrite prefix_cons. apply prefix_empty.
  - change ((s :: P') ++ F)%list with (s :: (P' ++ F))%list. cbv iota.
    change (s :: (P' ++ F))%list with ((s :: P') ++ F)%list.
    rewrite concat_app_entries by discriminate.
    rewrite !append_empty.
    change ("/" ++ ?x) with (String "/" x). rewrite prefix_cons.
    apply prefix_append.
Qed.

(** X1.  A client path that never climbs above its start (it may hold
    [.], empty segments and [..] that only undo earlier segments) passes
    the security check of the [/file/*] routes, and the route works on
    the project path followed by the segments the client path has on its
    own: [a/../b] is [b]. *)
Theorem paths_that_stay_below_pass_the_check app projectName filePath :
  isAbsolute (getWorkspacePath app) = true ->
  staysBelow filePath = true ->
  insideProject app projectName filePath = true
  /\ targetSegments app projectName filePath
     = (projectSegments app projectName ++ relativeSegments filePath)%list
  /\ (relativeSegments "a/../b" = relativeSegments "b").
Proof.
  intros Habs Hstay.
  unfold staysBelow in Hstay. apply negb_true_iff, existsb_isDots in Hstay.
  unfold relativeSegments, normalizeSegments in Hstay.
  rewrite <- In_rev in Hstay.
  destruct (join_segments (getWorkspacePath app) [projectName; filePath] Habs)
    as [(slashT & ET) HT].
  destruct (join_segments (getWorkspacePath app) [projectName] Habs)
    as [(slashP & EP) HP].
  assert (Hrel : targetSegments app projectName filePath
                 = (projectSegments app projectName
                      ++ relativeSegments filePath)%list).
  { unfold targetSegments, projectSegments. rewrite HT, HP.
    unfold relativeSegments, normalizeSegments.
    assert (E1 : flat_map (split "/") [getWorkspacePath app; projectName; filePath]
                 = (flat_map (split "/") [getWorkspacePath app; projectName]
                      ++ split "/" filePath)%list).
    { cbn [flat_map]. rewrite !app_nil_r, app_assoc. reflexivity. }
    rewrite E1, fold_left_app.
    pose proof (fold_below (split "/" filePath) []
                  (fold_left (pushSegment false)
                     (flat_map (split "/") [getWorkspacePath app; projectName]) [])
                  Hstay) as Hb.
    cbn [List.app] in Hb. rewrite Hb, rev_app_distr. reflexivity. }
  split; [|split; [exact Hrel | reflexivity]].
  unfold insideProject, startsWith.
  assert (HentT : Forall (fun x => entryName x = true)
                         (targetSegments app projectName filePath)).
  { apply normalizeSegments_entries. }
  assert (HentP : Forall (fun x => entryName x = true)
                         (projectSegments app projectName)).
  { apply normalizeSegments_entries. }
  unfold targetSegments, projectSegments in *.
  rewrite HT in HentT, Hrel. rewrite HP in HentP, Hrel.
  rewrite ET, EP, !resolve_absolutePath by assumption.
  rewrite Hrel. apply prefix_absolutePath_app.
Qed.

(** [a/../b] in the sample project. *)
Lemma paths_that_stay_below_sample :
  (isAbsolute (getWorkspacePath Sample.app) = true
   /\ staysBelow "a/../b" = true)
  /\ insideProject Sample.app "proj" "a/../b" = true
  /\ targetSegments Sample.app "proj" "a/../b" = ["srv"; "Workspace"; "proj"; "b"].
Proof.
  split; [split; reflexivity|].
  destruct (paths_that_stay_below_pass_the_check Sample.app "proj" "a/../b"
              eq_refl eq_refl) as (H1 & H2 & _).
  split; [exact H1|]. rewrite H2. reflexivity.
Defined.

Lemma prefix_noSlash s :
  forall t r,
    noSlash s = true -> String.prefix s (t ++ String "/" r) = true ->
    String.prefix s t = true.
Proof.
  induction s as [|c s IH]; intros t r Hs Hp; [apply prefix_empty|].
  cbn [noSlash] in Hs. apply andb_true_iff in Hs. destruct Hs as [Hc Hs].
  apply negb_true_iff in Hc.
  destruct t as [|d t]; cbn [append String.prefix] in Hp |- *.
  - destruct (ascii_dec c "/") as [->|_]; [discriminate Hc | discriminate Hp].
  - destruct (ascii_dec c d); [|discriminate Hp]. apply (IH t r Hs Hp).
Qed.

Lemma prefix_has_slash s :
  forall X t,
    noSlash t = true -> String.prefix (s ++ String "/" X) t = false.
Proof.
  induction s as [|c s IH]; intros X t Ht; destruct t as [|d t];
    cbn [append String.prefix]; try reflexivity;
    cbn [noSlash] in Ht; apply andb_true_iff in Ht; destruct Ht as [Hd Ht];
    apply negb_true_iff in Hd.
  - destruct (ascii_dec "/" d) as [<-|_]; [discriminate Hd | reflexivity].
  - destruct (ascii_dec c d); [apply IH, Ht | reflexivity].
Qed.

Lemma prefix_separator s :
  forall X t Y,
    noSlash s = true -> noSlash t = true ->
    String.prefix (s ++ String "/" X) (t ++ String "/" Y) = true ->
    s = t /\ String.prefix X Y = true.
Proof.
  induction s as [|c s IH]; intros X t Y Hs Ht Hp.
  - destruct t as [|d t]; cbn [append] in Hp.
    + rewrite prefix_cons in Hp. auto.
    + cbn [String.prefix] in Hp. cbn [noSlash] in Ht.
      apply andb_true_iff in Ht. destruct Ht as [Hd _].
      apply negb_true_iff in Hd.
      destruct (ascii_dec "/" d) as [<-|_]; [discriminate Hd | discriminate Hp].
  - cbn [noSlash] in Hs. apply andb_true_iff in Hs. destruct Hs as [Hc Hs].
    apply negb_true_iff in Hc.
    destruct t as [|d t]; cbn [append String.prefix] in Hp.
    + destruct (ascii_dec c "/") as [->|_]; [discriminate Hc | discriminate Hp].
    + destruct (ascii_dec c d) as [->|_]; [|discriminate Hp].
      cbn [noSlash] in Ht. apply andb_true_iff in Ht. destruct Ht as [_ Ht].
      destruct (IH X t Y Hs Ht Hp) as [-> HX]. auto.
Qed.

Lemma prefix_concat P :
  forall T,
    Forall (fun x => entryName x = true) P ->
    Forall (fun x => entryName x = true) T ->
    P <> [] -> T <> [] ->
    String.prefix (String.concat "/" P) (String.concat "/" T) = true ->
    exists x rest,
      T = (removelast P ++ x :: rest)%list
      /\ String.prefix (List.last P "") x = true.
Proof.
  induction P as [|s P IH]; intros T HP HT HPne HTne Hp; [congruence|].
  destruct T as [|t T]; [congruence|].
  inversion HP as [|? ? Hs HP']; subst. inversion HT as [|? ? Ht HT']; subst.
  pose proof (entryName_noSlash _ Hs) as Hns.
  pose proof (entryName_noSlash _ Ht) as Hnt.
  destruct P as [|s2 P].
  - exists t, T. split; [reflexivity|]. cbn [List.last].
    destruct T as [|t2 T].
    + exact Hp.
    + rewrite concat_cons2 in Hp. cbn [String.concat] in Hp.
      apply (prefix_noSlash s t _ Hns Hp).
  - rewrite concat_cons2 in Hp. destruct T as [|t2 T].
    + change (String.concat "/" [t]) with t in Hp.
      rewrite (prefix_has_slash s _ t Hnt) in Hp. discriminate Hp.
    + rewrite (concat_cons2 t) in Hp.
      destruct (prefix_separator s _ t _ Hns Hnt Hp) as [-> Hp'].
      destruct (IH (t2 :: T) HP' HT' ltac:(discriminate) ltac:(discriminate) Hp')
        as (x & rest & ET & Hx).
      exists x, rest. split.
      * change (removelast (t :: s2 :: P)) with (t :: removelast (s2 :: P)).
        cbn [List.app]. rewrite <- ET. reflexivity.
      * exact Hx.
Qed.

(** X2.  What the security check of the [/file/*] routes does
    guarantee: whatever it lets through lies in the directory that holds
    the project, in or below an entry whose name begins with the name of
    the project directory.  (When the project path is the root [/], it
    guarantees nothing.) *)
Theorem accepted_paths_begin_with_the_project_name app projectName filePath :
  isAbsolute (getWorkspacePath app) = true ->
  insideProject app projectName filePath = true ->
  projectSegments app projectName <> [] ->
  exists entry below,
    targetSegments app projectName filePath
    = (removelast (projectSegments app projectName) ++ entry :: below)%list
    /\ String.prefix (List.last (projectSegments app projectName) "") entry = true.
Proof.
  intros Habs Hin HPne.
  destruct (join_segments (getWorkspacePath app) [projectName; filePath] Habs)
    as [(slashT & ET) HT].
  destruct (join_segments (getWorkspacePath app) [projectName] Habs)
    as [(slashP & EP) HP].
  assert (HentT : Forall (fun x => entryName x = true)
                         (targetSegments app projectName filePath))
    by apply normalizeSegments_entries.
  assert (HentP : Forall (fun x => entryName x = true)
                         (projectSegments app projectName))
    by apply normalizeSegments_entries.
  unfold insideProject, startsWith in Hin.
  unfold targetSegments, projectSegments in *.
  rewrite ET, EP in Hin. rewrite <- HT, <- HP in Hin.
  rewrite !resolve_absolutePath in Hin by assumption.
  remember (segments (join [getWorkspacePath app; projectName; filePath])) as T.
  remember (segments (join [getWorkspacePath app; projectName])) as P.
  clear HeqT HeqP ET EP HT HP.
  unfold absolutePath in Hin.
  destruct P as [|p0 P']; [congruence|].
  destruct T as [|t0 T'].
  - change ("/" ++ ?x) with (String "/" x) in Hin.
    change "/" with (String "/" "") in Hin at 2.
    rewrite prefix_cons, append_empty in Hin.
    exfalso. destruct (String.concat "/" (p0 :: P')) eqn:E.
    + apply (concat_nonempty (p0 :: P') HentP); [discriminate | exact E].
    + discriminate Hin.
  - change ("/" ++ ?x) with (String "/" x) in Hin.
    rewrite prefix_cons, !append_empty in Hin.
    apply prefix_concat; try assumption; discriminate.
Qed.

(** The sibling [proj2] of the sample project [proj]. *)
Lemma accepted_paths_sample :
  (isAbsolute (getWorkspacePath Sample.app) = true
   /\ insideProject Sample.app "proj" "../proj2/x.txt" = true
   /\ projectSegments Sample.app "proj" <> [])
  /\ exists entry below,
      targetSegments Sample.app "proj" "../proj2/x.txt"
      = (["srv"; "Workspace"] ++ entry :: below)%list
      /\ String.prefix "proj" entry = true.
Proof.
  split; [split; [|split]; try reflexivity; discriminate|].
  destruct (accepted_paths_begin_with_the_project_name
              Sample.app "proj" "../proj2/x.txt" eq_refl eq_refl)
    as (entry & below & E & Hp).
  { discriminate. }
  exists entry, below. split; [exact E | exact Hp].
Defined.

End CheckFacts.

(** ** What a change of the tree leaves alone *)

Module TreeChangeFacts.
Import JsString Fs FsMore FsSpec WriteSpec FsFacts.
Local Open Scope Z_scope.

Lemma assoc_update_other d c n es :
  d <> c -> assoc d (update c n es) = assoc d es.
Proof.
  intros Hd. induction es as [|[k x] es IH]; [reflexivity|]. cbn [update].
  destruct (String.eqb_spec k c) as [->|Hk]; cbn [assoc].
  - destruct (String.eqb_spec c d); [congruence | reflexivity].
  - destruct (String.eqb_spec k d); [reflexivity | exact IH].
Qed.


Lemma assoc_app_other d c n es :
  d <> c -> assoc d (es ++ [(c, n)]) = assoc d es.
Proof.
  intros Hd. induction es as [|[k x] es IH]; cbn [List.app assoc].
  - destruct (String.eqb_spec c d); [congruence | reflexivity].
  - destruct (String.eqb_spec k d); [reflexivity | exact IH].
Qed.





(** [rm -rf] and [unlink] *)



(** [mkdir -p] *)

Lemma lookup_mkchain_fresh t p :
  lookup (mkchain t p) p = Some (Dir (fresh t newDirSize) []).
Proof.
  induction p as [|c p IH]; [reflexivity|].
  cbn [mkchain lookup assoc]. rewrite String.eqb_refl. exact IH.
Qed.

Lemma mkchain_diverge t p :
  forall q, diverge p q = true -> lookup (mkchain t p) q = None.
Proof.
  induction p as [|c p IH]; intros q Hq; [discriminate|].
  destruct q as [|d q]; [discriminate|]. cbn [diverge] in Hq.
  cbn [mkchain lookup assoc].
  destruct (String.eqb_spec c d); [apply IH, Hq | reflexivity].
Qed.

Lemma mkchain_reach t segs :
  forall q, diverge segs q = true -> lookup (mkchain t (reach segs)) q = None.
Proof.
  induction segs as [|c segs IH]; intros q Hq; [discriminate|].
  destruct q as [|d q]; [discriminate|]. cbn [diverge] in Hq.
  cbn [reach]. destruct (long c); [reflexivity|].
  cbn [mkchain lookup assoc].
  destruct (String.eqb_spec c d); [apply IH, Hq | reflexivity].
Qed.

Lemma mkdirp_fresh t p :
  forall n n',
    lookup n p = None -> mkdirp t n p = Some n' ->
    lookup n' p = Some (Dir (fresh t newDirSize) []).
Proof.
  induction p as [|c p IH]; intros n n' Hl Hm; [discriminate|].
  destruct n as [m d|m es]; try discriminate. cbn [lookup mkdirp] in *.
  destruct (assoc c es) as [x|] eqn:Ea.
  - destruct (mkdirp t x p) as [x'|] eqn:Ex; [|discriminate].
    inversion Hm; subst. cbn [lookup].
    rewrite (assoc_update_same _ _ _ _ Ea). apply (IH _ _ Hl Ex).
  - inversion Hm; subst. cbn [lookup]. rewrite (assoc_app_new _ _ _ Ea).
    apply lookup_mkchain_fresh.
Qed.

Lemma mkdirp_frame t p :
  forall n n' q,
    mkdirp t n p = Some n' -> diverge p q = true ->
    lookup n' q = lookup n q.
Proof.
  induction p as [|c p IH]; intros n n' q Hm Hq; [discriminate|].
  destruct q as [|d q]; [discriminate|]. cbn [diverge] in Hq.
  destruct n as [m dt|m es]; try discriminate. cbn [mkdirp] in Hm.
  destruct (assoc c es) as [x|] eqn:Ea.
  - destruct (mkdirp t x p) as [x'|] eqn:Ex; [|discriminate].
    inversion Hm; subst. cbn [lookup].
    destruct (String.eqb_spec c d) as [->|Hcd].
    + rewrite (assoc_update_same _ _ _ _ Ea), Ea. apply (IH _ _ _ Ex Hq).
    + rewrite assoc_update_other by congruence. reflexivity.
  - inversion Hm; subst. cbn [lookup].
    destruct (String.eqb_spec c d) as [->|Hcd].
    + rewrite (assoc_app_new _ _ _ Ea), Ea. apply mkchain_diverge, Hq.
    + rewrite assoc_app_other by congruence. reflexivity.
Qed.

Lemma mkdirp_reach_frame t segs :
  forall n n' q,
    mkdirp t n (reach segs) = Some n' -> diverge segs q = true ->
    lookup n' q = lookup n q.
Proof.
  induction segs as [|c segs IH]; intros n n' q Hm Hq; [discriminate|].
  destruct q as [|d q]; [discriminate|]. cbn [diverge] in Hq.
  cbn [reach] in Hm. destruct (long c).
  { cbn [mkdirp] in Hm. destruct (isDir n); [|discriminate].
    inversion Hm. reflexivity. }
  destruct n as [m dt|m es]; try discriminate. cbn [mkdirp] in Hm.
  destruct (assoc c es) as [x|] eqn:Ea.
  - destruct (mkdirp t x (reach segs)) as [x'|] eqn:Ex; [|discriminate].
    inversion Hm; subst. cbn [lookup].
    destruct (String.eqb_spec c d) as [->|Hcd].
    + rewrite (assoc_update_same _ _ _ _ Ea), Ea. apply (IH _ _ _ Ex Hq).
    + rewrite assoc_update_other by congruence. reflexivity.
  - inversion Hm; subst. cbn [lookup].
    destruct (String.eqb_spec c d) as [->|Hcd].
    + rewrite (assoc_app_new _ _ _ Ea), Ea. apply mkchain_reach, Hq.
    + rewrite assoc_app_other by congruence. reflexivity.
Qed.

(** What a refused [mkdir -p] has made lies on the way it was asked to
    go. *)
Lemma madeBefore_frame t r p q :
  diverge (segments p) q = true -> lookup (madeBefore t r p) q = lookup r q.
Proof.
  intros Hq. unfold madeBefore.
  destruct (hasNul p || (pathMax <=? nameBytes p)%nat); [reflexivity|].
  destruct (mkdirp t r (reach (segments p))) as [r'|] eqn:Em; [|reflexivity].
  apply (mkdirp_reach_frame _ _ _ _ _ Em Hq).
Qed.

(** [writeFile] *)

Lemma writeAt_frame t data p :
  forall n n' q,
    writeAt t data n p = inl n' -> diverge p q = true ->
    lookup n' q = lookup n q.
Proof.
  induction p as [|c p IH]; intros n n' q Hm Hq; [discriminate|].
  destruct q as [|d q]; [discriminate|]. cbn [diverge] in Hq.
  destruct n as [m dt|m es]; try discriminate. cbn [writeAt] in Hm.
  destruct (assoc c es) as [x|] eqn:Ea.
  - destruct (writeAt t data x p) as [x'|] eqn:Ex; [|discriminate].
    inversion Hm; subst. cbn [lookup].
    destruct (String.eqb_spec c d) as [->|Hcd].
    + rewrite (assoc_update_same _ _ _ _ Ea), Ea. apply (IH _ _ _ Ex Hq).
    + rewrite assoc_update_other by congruence. reflexivity.
  - destruct p as [|c' p']; [|discriminate]. inversion Hm; subst. cbn [lookup].
    destruct (String.eqb_spec c d) as [->|Hcd]; [discriminate|].
    rewrite assoc_app_other by congruence. reflexivity.
Qed.

(** [mkdir] without [recursive] and [writeFile] with flag [wx] *)

Lemma insertAt_exists t new p :
  forall n x, lookup n p = Some x -> insertAt t new n p = inr EEXIST.
Proof.
  induction p as [|c p IH]; intros n x H; [reflexivity|].
  destruct n as [m d|m es]; try discriminate. cbn [lookup insertAt] in *.
  destruct (assoc c es) as [y|]; [|discriminate]. rewrite (IH _ _ H). reflexivity.
Qed.

Lemma insertAt_new t new p :
  forall n n',
    insertAt t new n p = inl n' ->
    lookup n p = None
    /\ (exists m es, lookup n (removelast p) = Some (Dir m es))
    /\ lookup n' p = Some new
    /\ forall q, diverge p q = true -> lookup n' q = lookup n q.
Proof.
  induction p as [|c p IH]; intros n n' H; [discriminate|].
  destruct n as [m d|m es]; try discriminate. cbn [insertAt] in H.
  destruct (assoc c es) as [y|] eqn:Ea.
  - destruct (insertAt t new y p) as [y'|] eqn:Ey; [|discriminate].
    inversion H; subst. destruct (IH _ _ Ey) as (H1 & H2 & H3 & H4).
    assert (Hp : p <> []) by (destruct p; [discriminate Ey | discriminate]).
    cbn [lookup]. rewrite Ea, (assoc_update_same _ _ _ _ Ea).
    split; [exact H1|]. split.
    { destruct p as [|c' p']; [congruence|].
      change (removelast (c :: c' :: p')) with (c :: removelast (c' :: p')).
      cbn [lookup]. rewrite Ea. exact H2. }
    split; [exact H3|].
    intros q Hq. destruct q as [|d q]; [discriminate|]. cbn [diverge] in Hq.
    cbn [lookup]. destruct (String.eqb_spec c d) as [->|Hcd].
    + rewrite (assoc_update_same _ _ _ _ Ea), Ea. apply H4, Hq.
    + rewrite assoc_update_other by congruence. reflexivity.
  - destruct p as [|c' p']; [|discriminate]. inversion H; subst.
    cbn [lookup removelast]. rewrite Ea, (assoc_app_new _ _ _ Ea).
    split; [reflexivity|]. split; [eexists; eexists; reflexivity|].
    split; [reflexivity|].
    intros q Hq. destruct q as [|d q]; [discriminate|]. cbn [diverge] in Hq.
    cbn [lookup]. destruct (String.eqb_spec c d) as [->|Hcd]; [discriminate|].
    rewrite assoc_app_other by congruence. reflexivity.
Qed.

End TreeChangeFacts.

(** ** Deleting, and creating a folder, in a project *)

Module ProjectChangeFacts.
Import JsString Fs Async FsPromises FsMore Http ProjectRoutes ProjectRoutesMore.
Import RunSpec ReadSpec WriteSpec FsSpec.
Import RunFacts ReadFacts FsFacts TreeChangeFacts.
Local Open Scope Z_scope.

(** The machine after [stat] then a removal of [full] have run. *)
Lemma deleteFile_run app pn fp w :
  insideProject app pn fp = true ->
  let full := fullFilePath app pn fp in
  deleteFile app pn fp w
  = match statOutcome (root w) full with
    | inr _ =>
        (inl (statusJson 404
                (Failure ("File or directory " ++ quoted fp ++ " not found"))),
         logged (Stat full) w)
    | inl stats =>
        (inl (json (MessageBody
                      ((if FsPromises.isDirectory stats then "Directory" else "File")
                         ++ " deleted successfully"))),
         mkWorld (removeAt (clock w (tick w)) (root w) (segments full))
                 ((log w ++ [Stat full]) ++ [Rm full]) (clock w) (S (tick w)))
    end.
Proof.
  intros Hin full. unfold deleteFile. rewrite Hin. cbn [negb]. fold (fullFilePath app pn fp). fold full.
  unfold tryCatch at 1 2. unfold bind at 1. rewrite stat_run.
  unfold statOutcome.
  destruct (find (root w) full) as [n|e] eqn:Ef; [|reflexivity].
  destruct (statFails (meta n)) eqn:Es; [reflexivity|].
  cbn [statsOf FsPromises.isDirectory].
  destruct (isDir n) eqn:Ed.
  - reflexivity.
  - unfold unlink, bind, record, getRoot, now, lift, ret, setRoot, logged.
    cbn [root log clock tick]. rewrite Ef, Ed. reflexivity.
Qed.






(** X4.  Where [stat] does not succeed on the path, be it that nothing
    is there or that the entry cannot be examined, the route answers 404
    and removes nothing: [stat] is the only call made. *)
Theorem delete_of_what_stat_cannot_see_removes_nothing app pn fp w e :
  insideProject app pn fp = true ->
  statOutcome (root w) (fullFilePath app pn fp) = inr e ->
  deleteFile app pn fp w
  = (inl (statusJson 404
            (Failure ("File or directory " ++ quoted fp ++ " not found"))),
     logged (Stat (fullFilePath app pn fp)) w)
  /\ sameTree w (logged (Stat (fullFilePath app pn fp)) w).
Proof.
  intros Hin Hs. rewrite (deleteFile_run _ _ _ _ Hin). cbv zeta. rewrite Hs.
  split; [reflexivity | repeat split].
Qed.

Lemma delete_of_missing_sample :
  (insideProject Sample.app "proj" "none.txt" = true
   /\ statOutcome (root Sample.world) (fullFilePath Sample.app "proj" "none.txt")
      = inr ENOENT)
  /\ exists w',
      deleteFile Sample.app "proj" "none.txt" Sample.world
      = (inl (statusJson 404
                (Failure ("File or directory " ++ quoted "none.txt" ++ " not found"))),
         w')
      /\ root w' = root Sample.world.
Proof.
  split; [split; reflexivity|].
  destruct (delete_of_what_stat_cannot_see_removes_nothing
              Sample.app "proj" "none.txt" Sample.world ENOENT eq_refl eq_refl)
    as [E (Hr & _)].
  eexists. split; [exact E | exact Hr].
Defined.


Lemma statOutcome_directory r p m es :
  lookup r (segments p) = Some (Dir m es) -> statFails m = false ->
  statOutcome r p = inl (statsOf (Dir m es)).
Proof.
  intros Hl Hs. unfold statOutcome, find. rewrite Hl. cbn [isDir negb].
  rewrite andb_false_r. cbn [meta]. rewrite Hs. reflexivity.
Qed.



(** Names the system does not take, in the sample project: a file name
    with a NUL character, a file name of 300 bytes, and a folder of such
    a name below [n], which is missing.  Each request is answered 500;
    by the last one [n] has been made. *)
Example refused_names_sample :
  (exists w',
      postFile Sample.app "proj" Sample.nulName (JsString [104; 105]) Sample.world
      = (inl (statusJson 500 (Failure "Failed to create file")), w')
      /\ root w' = Sample.tree)
  /\ (exists w',
         putFile Sample.app "proj" Sample.longName (JsString [104; 105])
                 Sample.world
         = (inl (statusJson 500 (Failure "Failed to save file")), w')
         /\ root w' = Sample.tree)
  /\ (exists w',
         postFolder Sample.app "proj" ("n/" ++ Sample.longName) Sample.world
         = (inl (mkFolderResponse 500 (FolderFailure "Failed to create folder")),
            w')
         /\ lookup (root w') ["srv"; "Workspace"; "proj"; "n"]
            = Some (Dir (fresh 1000 newDirSize) [])
         /\ lookup (root w') ["srv"; "Workspace"; "proj"; "n"; Sample.longName]
            = None).
Proof.
  split; [|split]; eexists; (split; [vm_compute; reflexivity|]).
  - reflexivity.
  - reflexivity.
  - split; reflexivity.
Qed.

End ProjectChangeFacts.

(** ** What a save changes *)

Module SaveFacts.
Import JsString Fs Async FsPromises Http ProjectRoutes.
Import RunSpec ReadSpec PathSpec WriteSpec FsSpec.
Import RunFacts ReadFacts PathFacts FsFacts TreeChangeFacts.
Local Open Scope Z_scope.

Lemma writeAt_lookup t data p :
  forall n n',
    writeAt t data n p = inl n' ->
    exists m', lookup n' p = Some (File m' data)
               /\ Fs.size m' = Z.of_nat (List.length data)
               /\ mtime m' = t.
Proof.
  induction p as [|c p IH]; intros n n' H.
  - destruct n as [m d|m es]; try discriminate. inversion H; subst.
    eexists. repeat split.
  - destruct n as [m d|m es]; try discriminate. cbn [writeAt] in H.
    destruct (assoc c es) as [x|] eqn:Ea.
    + destruct (writeAt t data x p) as [x'|] eqn:Ex; [|discriminate].
      inversion H; subst. cbn [lookup]. rewrite (assoc_update_same _ _ _ _ Ea).
      apply (IH _ _ Ex).
    + destruct p as [|c' p']; [|discriminate]. inversion H; subst.
      cbn [lookup]. rewrite (assoc_app_new _ _ _ Ea).
      eexists. repeat split.
Qed.

Lemma mkchain_below t p :
  forall x q, lookup (mkchain t p) (p ++ x :: q) = None.
Proof.
  induction p as [|c p IH]; intros x q; [reflexivity|].
  cbn [List.app mkchain lookup assoc]. rewrite String.eqb_refl. apply IH.
Qed.

Lemma mkdirp_below t p :
  forall n n' x q,
    mkdirp t n p = Some n' ->
    lookup n' (p ++ x :: q) = lookup n (p ++ x :: q).
Proof.
  induction p as [|c p IH]; intros n n' x q H.
  - cbn [mkdirp] in H. destruct (isDir n); [|discriminate].
    inversion H; reflexivity.
  - destruct n as [m d|m es]; try discriminate. cbn [mkdirp] in H.
    cbn [List.app lookup].
    destruct (assoc c es) as [y|] eqn:Ea.
    + destruct (mkdirp t y p) as [y'|] eqn:Ey; [|discriminate].
      inversion H; subst. cbn [lookup].
      rewrite (assoc_update_same _ _ _ _ Ea). apply (IH _ _ _ _ Ey).
    + inversion H; subst. cbn [lookup]. rewrite (assoc_app_new _ _ _ Ea).
      apply mkchain_below.
Qed.

Lemma diverge_snoc p x :
  forall q, diverge (p ++ [x]) q = true ->
            diverge p q = true \/ exists d q', q = (p ++ d :: q')%list.
Proof.
  induction p as [|c p IH]; intros q H.
  - destruct q as [|d q]; [discriminate|]. right. exists d, q. reflexivity.
  - destruct q as [|d q]; [discriminate|]. cbn [List.app diverge] in *.
    destruct (String.eqb_spec c d) as [->|Hcd]; [|left; reflexivity].
    destruct (IH q H) as [Hd|(d' & q' & ->)]; [left; exact Hd|].
    right. exists d', q'. reflexivity.
Qed.

(** The route on a string, once the security check has let the request
    through. *)
Lemma putFile_run app pn fp text w :
  insideProject app pn fp = true ->
  let full := fullFilePath app pn fp in
  let dir := Path.dirname full in
  let failed := statusJson 500 (Failure "Failed to save file") in
  let t0 := clock w (tick w) in
  let t1 := clock w (S (tick w)) in
  putFile app pn fp (JsString text) w
  = match pathError dir with
    | Some _ =>
        (inl failed,
         mkWorld (madeBefore t0 (root w) dir) (log w ++ [Mkdir dir]) (clock w)
                 (S (tick w)))
    | None =>
        match mkdirp t0 (root w) (segments dir) with
        | Some r1 =>
            let w1 := mkWorld r1 ((log w ++ [Mkdir dir]) ++ [WriteFile full])
                              (clock w) (S (S (tick w))) in
            match pathError full with
            | Some _ => (inl failed, w1)
            | None =>
                if trailing full then (inl failed, w1)
                else
                  match writeAt t1 (Utf8.encode text) r1 (segments full) with
                  | inr _ => (inl failed, w1)
                  | inl r2 =>
                      match statOutcome r2 full with
                      | inl stats =>
                          (inl (json (SavedBody "File saved successfully"
                                        (mkFileInfo (Path.basename full)
                                                    (backslashToSlash fp)
                                                    (st_size stats) (st_mtime stats)
                                                    None))),
                           afterWrite w r2 dir full)
                      | inr _ => (inl failed, afterWrite w r2 dir full)
                      end
                  end
            end
        | None =>
            (inl failed,
             mkWorld (root w) (log w ++ [Mkdir dir]) (clock w) (S (tick w)))
        end
    end.
Proof.
  intros Hin full dir failed t0 t1. unfold putFile. rewrite Hin. cbn [negb].
  fold (fullFilePath app pn fp). fold full. fold dir.
  unfold tryCatch. unfold bind at 1. rewrite WriteFacts.mkdir_run. cbv zeta.
  fold t0.
  destruct (pathError dir); [reflexivity|].
  destruct (mkdirp t0 (root w) (segments dir)) as [r1|]; [|reflexivity].
  unfold bind at 1. rewrite WriteFacts.writeFile_run. cbv zeta.
  cbn [root log clock tick]. fold t1.
  destruct (pathError full); [reflexivity|].
  destruct (trailing full); [reflexivity|].
  destruct (writeAt t1 (Utf8.encode text) r1 (segments full)) as [r2|e];
    [|reflexivity].
  unfold bind. rewrite stat_run. unfold logged, afterWrite.
  cbn [root log clock tick]. rewrite <- !app_assoc. cbn [List.app].
  destruct (statOutcome r2 full); reflexivity.
Qed.

(** X6.  A save that is answered with 200 has put the UTF-8 encoding of
    the text at the path, reports its length in bytes as the size, and
    has changed no entry off the way to the path: every other file is
    what it was. *)
Theorem save_changes_no_other_entry app pn fp text w message saved w' :
  insideProject app pn fp = true ->
  Path.isAbsolute (getWorkspacePath app) = true ->
  putFile app pn fp (JsString text) w
  = (inl (json (SavedBody message saved)), w') ->
  (exists m', lookup (root w') (segments (fullFilePath app pn fp))
              = Some (File m' (Utf8.encode text)))
  /\ info_size saved = Z.of_nat (List.length (Utf8.encode text))
  /\ (forall q, diverge (segments (fullFilePath app pn fp)) q = true ->
                lookup (root w') q = lookup (root w) q).
Proof.
  intros Hin Habs. rewrite (putFile_run _ _ _ _ _ Hin). cbv zeta.
  set (full := fullFilePath app pn fp). set (dir := Path.dirname full).
  destruct (pathError dir); [discriminate|].
  destruct (mkdirp (clock w (tick w)) (root w) (segments dir)) as [r1|] eqn:Em;
    [|discriminate].
  destruct (pathError full); [discriminate|].
  destruct (trailing full) eqn:Htr; [discriminate|].
  destruct (writeAt (clock w (S (tick w))) (Utf8.encode text) r1 (segments full))
    as [r2|e] eqn:Ew; [|discriminate].
  destruct (writeAt_lookup _ _ _ _ _ Ew) as (m' & Hl & Hsz & _).
  unfold statOutcome, find. rewrite Hl, Htr. cbn [andb meta].
  destruct (statFails m'); [discriminate|].
  intros E. inversion E; subst. unfold afterWrite.
  cbn [root info_size st_size statsOf meta].
  split; [exists m'; exact Hl|]. split; [exact Hsz|].
  intros q Hq. rewrite (writeAt_frame _ _ _ _ _ _ Ew Hq).
  destruct (WriteFacts.fullFilePath_shape app pn fp Habs Htr) as (last & Hsegs).
  fold full in Hsegs. fold dir in Hsegs. rewrite Hsegs in Hq.
  destruct (diverge_snoc _ _ _ Hq) as [Hd|(d & q' & ->)].
  - apply (mkdirp_frame _ _ _ _ _ Em Hd).
  - apply (mkdirp_below _ _ _ _ _ _ Em).
Qed.

(** Saving [n/m/k.txt] in the sample project leaves [a.txt] as it was. *)
Lemma save_changes_sample :
  exists w',
    (insideProject Sample.app "proj" "n/m/k.txt" = true
     /\ Path.isAbsolute (getWorkspacePath Sample.app) = true
     /\ putFile Sample.app "proj" "n/m/k.txt" (JsString [104; 105]) Sample.world
        = (inl (json (SavedBody "File saved successfully"
                        (mkFileInfo "k.txt" "n/m/k.txt" 2 1001 None))), w'))
    /\ lookup (root w') ["srv"; "Workspace"; "proj"; "a.txt"]
       = Some (Sample.file [97; 10]).
Proof.
  exists (snd (putFile Sample.app "proj" "n/m/k.txt" (JsString [104; 105])
                       Sample.world)).
  assert (E : putFile Sample.app "proj" "n/m/k.txt" (JsString [104; 105])
                      Sample.world
              = (inl (json (SavedBody "File saved successfully"
                              (mkFileInfo "k.txt" "n/m/k.txt" 2 1001 None))),
                 snd (putFile Sample.app "proj" "n/m/k.txt" (JsString [104; 105])
                              Sample.world)))
    by (vm_compute; reflexivity).
  split; [repeat split; try reflexivity; exact E|].
  destruct (save_changes_no_other_entry
              Sample.app "proj" "n/m/k.txt" [104; 105] Sample.world _ _ _
              eq_refl eq_refl E) as (_ & _ & Hframe).
  rewrite (Hframe ["srv"; "Workspace"; "proj"; "a.txt"] eq_refl).
  reflexivity.
Defined.

End SaveFacts.

(** ** The routes that only read *)

Module ReadOnlyFacts.
Import JsString Fs Async FsPromises Http ProjectRoutes FolderRoutes.
Import FolderRoutesMore RunSpec ReadSpec TreeSpec FsSpec.
Import RunFacts ReadFacts.
Local Open Scope Z_scope.

Lemma onlyReads_refl w : onlyReads w w.
Proof.
  repeat split; try lia. exists []. rewrite app_nil_r. split; reflexivity.
Qed.

Lemma onlyReads_trans w1 w2 w3 :
  onlyReads w1 w2 -> onlyReads w2 w3 -> onlyReads w1 w3.
Proof.
  intros (Hr1 & Hc1 & Ht1 & l1 & Hl1 & Hf1) (Hr2 & Hc2 & Ht2 & l2 & Hl2 & Hf2).
  repeat split; try congruence; try lia.
  exists (l1 ++ l2)%list. rewrite Hl2, Hl1, <- app_assoc. split; [reflexivity|].
  rewrite forallb_app, Hf1, Hf2. reflexivity.
Qed.

Lemma onlyReads_logged c w w' :
  readOnly c = true -> onlyReads (logged c w) w' -> onlyReads w w'.
Proof.
  intros Hc H. apply (onlyReads_trans _ (logged c w)); [|exact H].
  repeat split; try (cbn; lia). exists [c]. split; [reflexivity|].
  cbn [forallb]. rewrite Hc. reflexivity.
Qed.

Lemma onlyReads_log c w : readOnly c = true -> onlyReads w (logged c w).
Proof. intros Hc. apply (onlyReads_logged c _ _ Hc), onlyReads_refl. Qed.

Lemma onlyReads_later w n :
  onlyReads w (mkWorld (root w) (log w) (clock w) (n + tick w)).
Proof.
  repeat split; try (cbn; lia). exists []. cbn [log]. rewrite app_nil_r.
  split; reflexivity.
Qed.

Section Walk.
Variable localeCompare : string -> string -> Z.

Lemma forEachItem_walk recurse dp bp items :
  Forall (fun e => forall p b w, exists t w',
              recurse (snd e) p b w = (inl t, w') /\ onlyReads w w') items ->
  forall w, exists r w',
    forEachItem recurse dp bp items w = (r, w')
    /\ onlyReads w w'
    /\ match r with
       | inl tree =>
           someStatFails items = false /\ map name tree = map fst items
       | inr _ => someStatFails items = true
       end.
Proof.
  induction 1 as [|[k item] items Hrec _ IH]; intros w.
  - eexists. exists w. split; [reflexivity|].
    split; [apply onlyReads_refl | split; reflexivity].
  - rewrite TreeFacts.forEachItem_cons. cbv zeta.
    unfold someStatFails. cbn [existsb snd].
    unfold bind at 1. unfold record.
    change (mkWorld (root w) (log w ++ [Stat (Path.join [dp; k])])
                    (clock w) (tick w))
      with (logged (Stat (Path.join [dp; k])) w).
    set (w0 := logged (Stat (Path.join [dp; k])) w).
    assert (H0 : onlyReads w w0) by (apply onlyReads_log; reflexivity).
    unfold bind at 1. unfold statNode.
    destruct (statFails (meta item)) eqn:Es.
    { eexists. eexists. split; [reflexivity|]. split; [exact H0 | reflexivity]. }
    unfold ret at 1. cbv iota beta.
    destruct (isDir item) eqn:Ed.
    + cbn [snd] in Hrec.
      destruct (Hrec (Path.join [dp; k]) (backslashToSlash (Path.join [bp; k])) w0)
        as (t & w1 & E & H1).
      unfold bind at 1. unfold bind at 1. rewrite E. unfold ret at 1.
      cbv iota beta. unfold bind.
      destruct (IH w1) as (r & w2 & E2 & H2 & Hr). rewrite E2.
      destruct r as [tree|e].
      * eexists. eexists. split; [reflexivity|].
        split; [exact (onlyReads_trans _ _ _ H0 (onlyReads_trans _ _ _ H1 H2))|].
        cbn [orb map name fst]. destruct Hr as [Hr1 Hr2].
        split; [exact Hr1 | rewrite Hr2; reflexivity].
      * eexists. eexists. split; [reflexivity|].
        split; [exact (onlyReads_trans _ _ _ H0 (onlyReads_trans _ _ _ H1 H2))|].
        exact Hr.
    + unfold bind at 1. unfold ret at 1. cbv iota beta. unfold bind.
      destruct (IH w0) as (r & w2 & E2 & H2 & Hr). rewrite E2.
      destruct r as [tree|e].
      * eexists. eexists. split; [reflexivity|].
        split; [exact (onlyReads_trans _ _ _ H0 H2)|].
        cbn [orb map name fst]. destruct Hr as [Hr1 Hr2].
        split; [exact Hr1 | rewrite Hr2; reflexivity].
      * eexists. eexists. split; [reflexivity|].
        split; [exact (onlyReads_trans _ _ _ H0 H2) | exact Hr].
Qed.

Lemma getFileTree_walk dir :
  forall p b w, exists t w',
    getFileTree localeCompare dir p b w = (inl t, w') /\ onlyReads w w'.
Proof.
  induction dir as [m data|m es IH] using Node_induction; intros p b w.
  - eexists. eexists. split; [reflexivity|]. apply onlyReads_log. reflexivity.
  - cbn [getFileTree]. unfold tryCatch, bind at 1. unfold record.
    change (mkWorld (root w) (log w ++ [Readdir p]) (clock w) (tick w))
      with (logged (Readdir p) w).
    destruct (readFails m).
    { eexists. eexists. split; [reflexivity|]. apply onlyReads_log. reflexivity. }
    unfold bind.
    destruct (forEachItem_walk (getFileTree localeCompare) p b es IH
                               (logged (Readdir p) w))
      as (r & w2 & E2 & H2 & _).
    rewrite E2. destruct r as [tree|e].
    + eexists. eexists. split; [reflexivity|].
      apply (onlyReads_logged (Readdir p)); [reflexivity | exact H2].
    + eexists. eexists. split; [reflexivity|].
      apply (onlyReads_logged (Readdir p)); [reflexivity | exact H2].
Qed.

(** X7.  One level of the tree listing is whole or empty: where the
    directory can be read and each of its entries examined, the listing
    names every entry once; where the directory cannot be read, or one
    single entry cannot be examined, the listing of the whole directory
    is empty. *)
Theorem a_level_is_listed_whole_or_not_at_all m items dirPath basePath w :
  exists tree w',
    getFileTree localeCompare (Dir m items) dirPath basePath w = (inl tree, w')
    /\ if readFails m || someStatFails items then tree = []
       else Permutation (map name tree) (map fst items).
Proof.
  cbn [getFileTree]. unfold tryCatch, bind at 1. unfold record.
  destruct (readFails m).
  { eexists. eexists. split; reflexivity. }
  unfold bind.
  destruct (forEachItem_walk (getFileTree localeCompare) dirPath basePath items
              ltac:(apply Forall_forall; intros e _; apply getFileTree_walk)
              (mkWorld (root w) (log w ++ [Readdir dirPath]) (clock w) (tick w)))
    as (r & w2 & E2 & _ & Hr).
  rewrite E2. destruct r as [tree|e].
  - destruct Hr as [Hr1 Hr2]. rewrite Hr1. cbn [orb].
    eexists. eexists. split; [reflexivity|]. rewrite <- Hr2.
    apply Permutation_map, SortFacts.sort_perm.
  - rewrite Hr. eexists. eexists. split; reflexivity.
Qed.

Lemma getFileTreeAt_walk p b w :
  exists t w',
    getFileTreeAt localeCompare p b w = (inl t, w') /\ onlyReads w w'.
Proof.
  unfold getFileTreeAt, bind, getRoot.
  destruct (find (root w) p) as [dir|e].
  - apply getFileTree_walk.
  - eexists. eexists. split; [reflexivity|]. apply onlyReads_log. reflexivity.
Qed.

Lemma getProject_walk app pn w :
  exists r w',
    getProject localeCompare app pn w = (inl r, w') /\ onlyReads w w'.
Proof.
  unfold getProject. unfold tryCatch at 1 2. unfold bind at 1. rewrite stat_run.
  assert (H0 : onlyReads w (logged (Stat (Path.join [getWorkspacePath app; pn])) w))
    by (apply onlyReads_log; reflexivity).
  destruct (statOutcome (root w) (Path.join [getWorkspacePath app; pn]))
    as [stats|e].
  - destruct (FsPromises.isDirectory stats); cbn [negb].
    + unfold bind.
      destruct (getFileTreeAt_walk (Path.join [getWorkspacePath app; pn]) ""
                  (logged (Stat (Path.join [getWorkspacePath app; pn])) w))
        as (t & w' & E & H1).
      rewrite E. eexists. eexists. split; [reflexivity|].
      exact (onlyReads_trans _ _ _ H0 H1).
    + eexists. eexists. split; [reflexivity | exact H0].
  - eexists. eexists. split; [reflexivity | exact H0].
Qed.

End Walk.

Lemma getFile_walk app pn fp w :
  exists r w', getFile app pn fp w = (inl r, w') /\ onlyReads w w'.
Proof.
  destruct (insideProject app pn fp) eqn:Hin.
  - rewrite (getFile_run _ _ _ _ Hin). cbv zeta.
    assert (H0 : onlyReads w (logged (Stat (fullFilePath app pn fp)) w))
      by (apply onlyReads_log; reflexivity).
    destruct (statOutcome (root w) (fullFilePath app pn fp)) as [stats|e];
      [|eexists; eexists; split; [reflexivity | exact H0]].
    destruct (FsPromises.isDirectory stats);
      [eexists; eexists; split; [reflexivity | exact H0]|].
    destruct (st_size stats >? maxFileSize);
      [eexists; eexists; split; [reflexivity | exact H0]|].
    destruct (match readOutcome (root w) (fullFilePath app pn fp) with
              | inl text =>
                  if nonPrintableRegexTest text then (None, true)
                  else (Some text, false)
              | inr _ => (None, true)
              end) as [content isBinary].
    eexists. eexists. split; [reflexivity|].
    apply (onlyReads_trans _ _ _ H0). apply onlyReads_log. reflexivity.
  - unfold getFile. rewrite Hin. cbn [negb].
    eexists. eexists. split; [reflexivity | apply onlyReads_refl].
Qed.

Lemma collectFolders_walk ws items :
  forall w, exists folders w',
    collectFolders ws items w = (inl folders, w') /\ onlyReads w w'.
Proof.
  induction items as [|[k x] items IH]; intros w.
  - exists [], w. split; [reflexivity | apply onlyReads_refl].
  - cbn [collectFolders]. destruct (isDir x); [|apply IH].
    unfold bind at 1. unfold tryCatch, bind at 1. rewrite stat_run.
    assert (H0 : onlyReads w (logged (Stat (Path.join [ws; k])) w))
      by (apply onlyReads_log; reflexivity).
    destruct (statOutcome (root w) (Path.join [ws; k])) as [st|e].
    + unfold ret at 1. cbv iota beta. unfold bind.
      destruct (IH (logged (Stat (Path.join [ws; k])) w)) as (fs & w' & E & H1).
      rewrite E. eexists. eexists. split; [reflexivity|].
      exact (onlyReads_trans _ _ _ H0 H1).
    + unfold bind at 1. unfold now at 1. unfold bind at 1. unfold now at 1.
      unfold ret at 1. cbv iota beta. cbn [root log clock tick]. unfold bind.
      match goal with
      | |- context [collectFolders ws items ?w1] =>
          destruct (IH w1) as (fs & w' & E & H1);
          assert (H2 : onlyReads (logged (Stat (Path.join [ws; k])) w) w1)
            by (apply (onlyReads_later (logged (Stat (Path.join [ws; k])) w) 2))
      end.
      rewrite E. eexists. eexists. split; [reflexivity|].
      exact (onlyReads_trans _ _ _ H0 (onlyReads_trans _ _ _ H2 H1)).
Qed.

Lemma readdir_walk p w :
  exists r, readdir p w = (r, logged (Readdir p) w).
Proof.
  unfold readdir, bind, record, getRoot, lift, readdirNode, logged.
  cbn [root log clock tick].
  destruct (find (root w) p) as [[m d|m es]|e]; try (eexists; reflexivity).
  unfold ret at 1. cbv iota beta. destruct (readFails m); eexists; reflexivity.
Qed.

Lemma listFolders_walk app w :
  exists r w', listFolders app w = (inl r, w') /\ onlyReads w w'.
Proof.
  unfold listFolders, tryCatch. unfold bind at 1.
  destruct (readdir_walk (getWorkspacePath app) w) as (r & ->).
  assert (H0 : onlyReads w (logged (Readdir (getWorkspacePath app)) w))
    by (apply onlyReads_log; reflexivity).
  destruct r as [items|e];
    [|eexists; eexists; split; [reflexivity | exact H0]].
  unfold bind.
  destruct (collectFolders_walk (getWorkspacePath app) items
              (logged (Readdir (getWorkspacePath app)) w)) as (fs & w' & E & H1).
  rewrite E. eexists. eexists. split; [reflexivity|].
  exact (onlyReads_trans _ _ _ H0 H1).
Qed.

Lemma getFolder_walk app fn w :
  exists r w', getFolder app fn w = (inl r, w') /\ onlyReads w w'.
Proof.
  unfold getFolder. unfold tryCatch at 1 2. unfold bind at 1. rewrite stat_run.
  assert (H0 : onlyReads w (logged (Stat (Path.join [getWorkspacePath app; fn])) w))
    by (apply onlyReads_log; reflexivity).
  destruct (statOutcome (root w) (Path.join [getWorkspacePath app; fn]))
    as [stats|e]; [|eexists; eexists; split; [reflexivity | exact H0]].
  destruct (FsPromises.isDirectory stats); cbn [negb];
    [|eexists; eexists; split; [reflexivity | exact H0]].
  unfold bind.
  destruct (readdir_walk (Path.join [getWorkspacePath app; fn])
              (logged (Stat (Path.join [getWorkspacePath app; fn])) w))
    as (r & ->).
  destruct r as [items|e]; eexists; eexists; (split; [reflexivity|]);
    apply (onlyReads_trans _ _ _ H0); apply onlyReads_log; reflexivity.
Qed.

(** X8.  On a tree of directories and regular files, which is what
    [Node] holds, the four routes that read (the project with its tree,
    one file, the list of folders, one folder) answer whatever the
    entries and whatever the names asked for, and make no call but
    [stat], [readdir] and [readFile]: the tree is left as it was.
    Nothing is said of a tree with a pipe, a socket or a device in it,
    where a read can wait without end. *)
Theorem reading_routes_answer_and_only_read
        (localeCompare : string -> string -> Z) app pn fp fn w :
  (exists r w',
      getProject localeCompare app pn w = (inl r, w') /\ onlyReads w w')
  /\ (exists r w', getFile app pn fp w = (inl r, w') /\ onlyReads w w')
  /\ (exists r w', listFolders app w = (inl r, w') /\ onlyReads w w')
  /\ (exists r w', getFolder app fn w = (inl r, w') /\ onlyReads w w').
Proof.
  split; [apply getProject_walk|].
  split; [apply getFile_walk|].
  split; [apply listFolders_walk | apply getFolder_walk].
Qed.

End ReadOnlyFacts.

(** ** Folder names, and the folder a name creates *)

Module FolderCreateFacts.
Import JsString Path Fs Async FsPromises Http ProjectRoutes FolderRoutes.
Import FolderRoutesMore FolderNameSpec RunSpec PathSpec WriteSpec FsSpec.
Import FolderNameFacts RunFacts PathFacts FsFacts TreeChangeFacts CheckFacts.
Local Open Scope Z_scope.

Lemma toLowerCase_clean s :
  Forall clean (chars s) -> toLowerCase s = s.
Proof.
  intros H. unfold toLowerCase.
  replace (map lowerChar (chars s)) with (chars s); [apply ofChars_chars|].
  induction H as [|c l (_ & _ & Hc) _ IH]; [reflexivity|].
  cbn [map]. rewrite Hc, <- IH. reflexivity.
Qed.

Lemma sanitize_clean s :
  Forall clean (chars s) -> sanitizeFolderName s = s.
Proof.
  intros H. rewrite sanitize_plain, (toLowerCase_clean _ H); [reflexivity|].
  eapply Forall_impl; [|exact H]. intros c (H1 & H2 & _). split; assumption.
Qed.

Lemma sanitize_idempotent name :
  sanitizeFolderName (sanitizeFolderName name) = sanitizeFolderName name.
Proof. apply sanitize_clean, sanitize_chars. Qed.

Lemma clean_noSlash s : Forall clean (chars s) -> noSlash s = true.
Proof.
  induction s as [|c s IH]; [reflexivity|]. cbn [chars list_ascii_of_string].
  intros H. inversion H as [|? ? (Hc & _) Hs]; subst. cbn [noSlash].
  rewrite (IH Hs), andb_true_r.
  destruct (Ascii.eqb_spec c "/") as [->|_]; [discriminate Hc | reflexivity].
Qed.

Lemma validate_valid name s :
  validateFolderName name = Valid s ->
  exists given,
    name = NameString given /\ s = sanitizeFolderName given
    /\ s <> "" /\ (String.length s <= 50)%nat
    /\ includes reserved (toLowerCase s) = false.
Proof.
  unfold validateFolderName. destruct name as [| | | |given|]; try discriminate.
  destruct (given =? "")%string; [discriminate|]. cbv zeta.
  destruct (String.eqb_spec (sanitizeFolderName given) "") as [E|Hne];
    [discriminate|]. cbn [orb].
  destruct (String.length (sanitizeFolderName given) =? 0)%nat; [discriminate|].
  destruct (50 <? String.length (sanitizeFolderName given))%nat eqn:Hlen;
    [discriminate|].
  destruct (includes reserved (toLowerCase (sanitizeFolderName given))) eqn:Hres;
    [discriminate|].
  intros E. inversion E; subst. exists given.
  apply Nat.ltb_ge in Hlen. repeat split; assumption.
Qed.

(** X9.  [sanitizeFolderName] changes nothing in a name it has made; and
    a name [validateFolderName] accepts is the sanitized form of the
    name given, not empty, of at most 50 characters, free of the
    stripped characters, of white space and of capitals, no reserved
    name, and accepted again as it is. *)
Theorem accepted_folder_names :
  (forall name,
      sanitizeFolderName (sanitizeFolderName name) = sanitizeFolderName name)
  /\ (forall name s,
         validateFolderName name = Valid s ->
         (exists given, name = NameString given /\ s = sanitizeFolderName given)
         /\ s <> "" /\ (String.length s <= 50)%nat
         /\ Forall clean (chars s)
         /\ ~ In s reserved
         /\ validateFolderName (NameString s) = Valid s).
Proof.
  split; [exact sanitize_idempotent|].
  intros name s H.
  destruct (validate_valid _ _ H) as (given & -> & -> & Hne & Hlen & Hres).
  pose proof (sanitize_chars given) as Hclean.
  split; [exists given; split; reflexivity|].
  split; [exact Hne|]. split; [exact Hlen|]. split; [exact Hclean|].
  split.
  { intros Hin. apply includes_In in Hin.
    rewrite (toLowerCase_clean _ Hclean) in Hres. congruence. }
  unfold validateFolderName.
  destruct (String.eqb_spec (sanitizeFolderName given) "") as [E|_];
    [contradiction|].
  cbv zeta. rewrite sanitize_idempotent.
  destruct (String.eqb_spec (sanitizeFolderName given) "") as [E|_];
    [contradiction|].
  cbn [orb].
  destruct (sanitizeFolderName given) as [|c rest] eqn:Es; [congruence|].
  cbn [String.length Nat.eqb]. cbn [String.length] in Hlen.
  apply Nat.ltb_ge in Hlen. rewrite Hlen, Hres. reflexivity.
Qed.

Lemma child_segments ws s :
  isAbsolute ws = true -> entryName s = true ->
  segments (join [ws; s]) = (segments ws ++ [s])%list.
Proof.
  intros Habs Hs. destruct (join_segments ws [s] Habs) as [_ ->].
  cbn [flat_map]. rewrite app_nil_r, (split_one s (entryName_noSlash _ Hs)).
  rewrite fold_left_app. cbn [fold_left].
  rewrite (pushSegment_entry _ _ Hs). reflexivity.
Qed.

Lemma valid_entryName name s :
  validateFolderName name = Valid s -> s <> "." -> s <> ".." ->
  entryName s = true.
Proof.
  intros H H1 H2.
  destruct (validate_valid _ _ H) as (given & -> & -> & Hne & _).
  unfold entryName. rewrite (clean_noSlash _ (sanitize_chars given)).
  destruct (String.eqb_spec (sanitizeFolderName given) ""); [contradiction|].
  destruct (String.eqb_spec (sanitizeFolderName given) "."); [contradiction|].
  destruct (String.eqb_spec (sanitizeFolderName given) ".."); [contradiction|].
  reflexivity.
Qed.

Lemma mkdirp_existing t p :
  forall n x,
    lookup n p = Some x ->
    mkdirp t n p = if isDir x then Some n else None.
Proof.
  induction p as [|c p IH]; intros n x H.
  - inversion H; subst. reflexivity.
  - destruct n as [m d|m es]; try discriminate. cbn [lookup mkdirp] in *.
    destruct (assoc c es) as [y|] eqn:Ea; [|discriminate].
    rewrite (IH _ _ H). destruct (isDir x); [|reflexivity].
    rewrite (update_same _ _ _ Ea). reflexivity.
Qed.

(** The machine after [POST /api/folders] has run on an accepted name. *)
Lemma createFolder_run app name s w :
  validateFolderName name = Valid s ->
  let p := join [getWorkspacePath app; s] in
  let failed := mkCreateResponse 500 (CreateFailure "Failed to create folder") in
  createFolder app name w
  = match statOutcome (root w) p with
    | inl _ =>
        (inl (mkCreateResponse 409
                (CreateFailure ("Folder " ++ quoted s ++ " already exists"))),
         logged (Access p) w)
    | inr _ =>
        match pathError p with
        | Some _ =>
            (inl failed,
             mkWorld (madeBefore (clock w (tick w)) (root w) p)
                     ((log w ++ [Access p]) ++ [Mkdir p])
                     (clock w) (S (tick w)))
        | None =>
            match mkdirp (clock w (tick w)) (root w) (segments p) with
            | Some r' =>
                let w' := mkWorld r' (((log w ++ [Access p]) ++ [Mkdir p]) ++ [Stat p])
                                  (clock w) (S (tick w)) in
                match statOutcome r' p with
                | inl stats =>
                    (inl (mkCreateResponse 201
                            (Created ("Folder " ++ quoted s ++ " created successfully")
                                     (mkFolder s p (st_birthtime stats)
                                               (st_mtime stats) (st_size stats)))),
                     w')
                | inr _ => (inl failed, w')
                end
            | None =>
                (inl failed,
                 mkWorld (root w) ((log w ++ [Access p]) ++ [Mkdir p])
                         (clock w) (S (tick w)))
            end
        end
    end.
Proof.
  intros Hv p failed. unfold createFolder. rewrite Hv. fold p.
  unfold tryCatch at 1. unfold bind at 1. unfold tryCatch at 1. unfold bind at 1.
  rewrite access_run.
  destruct (statOutcome (root w) p) as [st|e]; [reflexivity|].
  change (ret false (logged (Access p) w))
    with (@inl bool Errno false, logged (Access p) w).
  cbv iota beta. unfold bind at 1.
  rewrite WriteFacts.mkdir_run. cbv zeta. unfold logged.
  cbn [root log clock tick].
  destruct (pathError p); [reflexivity|].
  destruct (mkdirp (clock w (tick w)) (root w) (segments p)) as [r'|];
    [|reflexivity].
  unfold bind. rewrite stat_run. unfold logged. cbn [root log clock tick].
  destruct (statOutcome r' p); reflexivity.
Qed.

(** X10.  [POST /api/folders] with an accepted name other than [.] and
    [..] works on the entry of that name in the workspace directory and
    on nothing else: whatever the answer, every entry off the way to it
    is what it was; the answer is 201 only where nothing sat there, and
    an empty directory sits there afterwards; with any other answer the
    tree is what it was, unless the system finds the path too long:
    the directories missing before the component that is too long have
    then been made. *)
Theorem new_folder_is_an_entry_of_the_workspace app name s w :
  validateFolderName name = Valid s ->
  isAbsolute (getWorkspacePath app) = true ->
  s <> "." -> s <> ".." ->
  let target := (segments (getWorkspacePath app) ++ [s])%list in
  segments (join [getWorkspacePath app; s]) = target
  /\ exists response w',
      createFolder app name w = (inl response, w')
      /\ (forall q, diverge target q = true ->
                    lookup (root w') q = lookup (root w) q)
      /\ (createStatus response = 201 ->
          lookup (root w) target = None
          /\ lookup (root w') target
             = Some (Dir (fresh (clock w (tick w)) newDirSize) []))
      /\ (createStatus response <> 201 ->
          pathError (join [getWorkspacePath app; s]) <> Some ENAMETOOLONG ->
          root w' = root w).
Proof.
  intros Hv Habs H1 H2 target.
  pose proof (child_segments _ _ Habs (valid_entryName _ _ Hv H1 H2)) as Hseg.
  fold target in Hseg. split; [exact Hseg|].
  rewrite (createFolder_run _ _ _ _ Hv). cbv zeta.
  set (p := join [getWorkspacePath app; s]) in *.
  destruct (statOutcome (root w) p) as [st|e] eqn:Es.
  { eexists. eexists. split; [reflexivity|]. cbn [root createStatus].
    split; [reflexivity|]. split; [discriminate | reflexivity]. }
  destruct (pathError p) as [pe|] eqn:Ep.
  { eexists. eexists. split; [reflexivity|]. cbn [root createStatus].
    split; [intros q Hq; rewrite <- Hseg in Hq; apply (madeBefore_frame _ _ _ _ Hq)|].
    split; [discriminate|]. intros _ Hpe.
    apply (madeBefore_refused _ _ _ _ Ep). congruence. }
  destruct (mkdirp (clock w (tick w)) (root w) (segments p)) as [r'|] eqn:Em.
  2:{ eexists. eexists. split; [reflexivity|]. cbn [root createStatus].
      split; [reflexivity|]. split; [discriminate | reflexivity]. }
  assert (Hframe : forall q, diverge target q = true ->
                             lookup r' q = lookup (root w) q).
  { intros q Hq. rewrite <- Hseg in Hq. apply (mkdirp_frame _ _ _ _ _ Em Hq). }
  destruct (lookup (root w) (segments p)) as [x|] eqn:El.
  - (* something sits there: the tree stays, and so does the failure *)
    rewrite (mkdirp_existing _ _ _ _ El) in Em.
    destruct (isDir x); [|discriminate]. inversion Em; subst r'.
    rewrite Es. eexists. eexists. split; [reflexivity|]. cbn [root createStatus].
    split; [reflexivity|]. split; [discriminate | reflexivity].
  - pose proof (mkdirp_fresh _ _ _ _ El Em) as Hnew.
    rewrite (ProjectChangeFacts.statOutcome_directory _ _ _ _ Hnew eq_refl).
    eexists. eexists. split; [reflexivity|]. cbn [root createStatus].
    split; [exact Hframe|]. rewrite <- Hseg.
    split; [intros _; split; [exact El | exact Hnew] | congruence].
Qed.

(** The folder [My Project] in the sample workspace. *)
Lemma new_folder_sample :
  (validateFolderName (NameString "My Project") = Valid "my-project"
   /\ isAbsolute (getWorkspacePath Sample.app) = true
   /\ "my-project" <> "." /\ "my-project" <> "..")
  /\ segments (join [getWorkspacePath Sample.app; "my-project"])
     = ["srv"; "Workspace"; "my-project"]
  /\ exists response w',
      createFolder Sample.app (NameString "My Project") Sample.world
      = (inl response, w')
      /\ createStatus response = 201
      /\ lookup (root w') ["srv"; "Workspace"; "proj"] = Some Sample.proj.
Proof.
  split; [repeat split; try reflexivity; discriminate|].
  destruct (new_folder_is_an_entry_of_the_workspace
              Sample.app (NameString "My Project") "my-project" Sample.world
              eq_refl eq_refl ltac:(discriminate) ltac:(discriminate))
    as (Hseg & response & w' & E & Hframe & _).
  split; [exact Hseg|]. exists response, w'. split; [exact E|].
  split.
  - vm_compute in E. inversion E. reflexivity.
  - rewrite (Hframe ["srv"; "Workspace"; "proj"] eq_refl). reflexivity.
Defined.

End FolderCreateFacts.

(** ** The creation routes of the file-system endpoints *)

Module EndpointFacts.
Import JsString Path Fs Async FsPromises FsMore Http ProjectRoutes FolderRoutes.
Import RunSpec FsSpec TreeChangeFacts.
Local Open Scope Z_scope.

Lemma mkdirPlain_run p w :
  mkdirPlain p w
  = let w1 := mkWorld (root w) (log w ++ [Mkdir p]) (clock w) (S (tick w)) in
    match pathError p with
    | Some e => (inr e, w1)
    | None =>
        match insertAt (clock w (tick w))
                       (Dir (fresh (clock w (tick w)) newDirSize) [])
                       (root w) (segments p) with
        | inl r' =>
            (inl tt, mkWorld r' (log w ++ [Mkdir p]) (clock w) (S (tick w)))
        | inr e => (inr e, w1)
        end
    end.
Proof.
  unfold mkdirPlain, checkPath, bind, record, getRoot, now, setRoot, lift, ret,
    throw.
  cbn [root log clock tick]. cbv zeta.
  destruct (pathError p); [reflexivity|].
  destruct (insertAt _ _ (root w) (segments p)); reflexivity.
Qed.

Lemma writeFileExclusive_run p w :
  writeFileExclusive p [] w
  = let w1 := mkWorld (root w) (log w ++ [WriteFile p]) (clock w) (S (tick w)) in
    match pathError p with
    | Some e => (inr e, w1)
    | None =>
        if trailing p then (inr EISDIR, w1)
        else
          match insertAt (clock w (tick w))
                         (File (fresh (clock w (tick w)) 0) [])
                         (root w) (segments p) with
          | inl r' =>
              (inl tt,
               mkWorld r' (log w ++ [WriteFile p]) (clock w) (S (tick w)))
          | inr e => (inr e, w1)
          end
    end.
Proof.
  unfold writeFileExclusive, checkPath, bind, record, getRoot, now, setRoot,
    lift, ret, throw.
  cbn [root log clock tick]. cbv zeta.
  destruct (pathError p); [reflexivity|].
  destruct (trailing p); [reflexivity|].
  change (Utf8.encode []) with (@nil Z). cbn [List.length Z.of_nat].
  destruct (insertAt _ _ (root w) (segments p)); reflexivity.
Qed.

Lemma endpointCreateFile_run app fp given w :
  given <> "" ->
  let p := join [getWorkspacePath app; fp; sanitizeFolderName given] in
  FileSystemEndpoints.createFile app (NameString fp) (NameString given) w
  = match writeFileExclusive p [] w with
    | (inl _, w') =>
        (inl (FileSystemEndpoints.Succeeded 201
                ("File " ++ FileSystemEndpoints.sq ++ sanitizeFolderName given
                         ++ FileSystemEndpoints.sq ++ " created successfully.")),
         w')
    | (inr _, w') => (inl (FileSystemEndpoints.Refused 500 ""), w')
    end.
Proof.
  intros Hne p. unfold FileSystemEndpoints.createFile.
  destruct (String.eqb_spec given "") as [E|_]; [contradiction|].
  cbv zeta. unfold FileSystemEndpoints.joinBelow. fold p.
  unfold bind at 1. unfold ret at 1. cbv iota beta.
  unfold tryCatch, bind.
  destruct (writeFileExclusive p [] w) as [[u|e] w']; reflexivity.
Qed.

Lemma endpointCreateFolder_run app fp name s w :
  FileSystemEndpoints.validateFolderName name = Valid s ->
  let p := join [getWorkspacePath app; fp; s] in
  FileSystemEndpoints.createFolder app (NameString fp) name w
  = match mkdirPlain p w with
    | (inl _, w') =>
        (inl (FileSystemEndpoints.Succeeded 201
                ("Folder " ++ FileSystemEndpoints.sq ++ s
                           ++ FileSystemEndpoints.sq ++ " created successfully.")),
         w')
    | (inr _, w') => (inl (FileSystemEndpoints.Refused 500 ""), w')
    end.
Proof.
  intros Hv p. unfold FileSystemEndpoints.createFolder. rewrite Hv.
  unfold FileSystemEndpoints.joinBelow. fold p.
  unfold bind at 1. unfold ret at 1. cbv iota beta.
  unfold tryCatch, bind.
  destruct (mkdirPlain p w) as [[u|e] w']; reflexivity.
Qed.

(** X11.  The two creation routes of the file-system endpoints, given a
    [folder_path] that is a string, always answer, and create or do
    nothing: on success the new empty file (resp. directory) sits where
    nothing sat, in a directory that was there already, and every entry
    off the way is what it was; with any other answer the tree is what it
    was, so that no file is ever replaced and no parent directory ever
    made.  Without a [folder_path] in the body the folder route, given an
    acceptable name, throws before it answers. *)
Theorem endpoints_create_and_never_replace app folder_path name w :
  (exists outcome w',
      FileSystemEndpoints.createFile app (NameString folder_path) name w
      = (inl outcome, w')
      /\ match outcome with
         | FileSystemEndpoints.Succeeded _ _ =>
             exists given,
               name = NameString given
               /\ createdAt (File (fresh (clock w (tick w)) 0) [])
                            (segments (join [getWorkspacePath app; folder_path;
                                             sanitizeFolderName given]))
                            (root w) (root w')
         | FileSystemEndpoints.Refused _ _ => root w' = root w
         end)
  /\ (exists outcome w',
         FileSystemEndpoints.createFolder app (NameString folder_path) name w
         = (inl outcome, w')
         /\ match outcome with
            | FileSystemEndpoints.Succeeded _ _ =>
                exists s,
                  FileSystemEndpoints.validateFolderName name = Valid s
                  /\ createdAt (Dir (fresh (clock w (tick w)) newDirSize) [])
                               (segments (join [getWorkspacePath app; folder_path; s]))
                               (root w) (root w')
            | FileSystemEndpoints.Refused _ _ => root w' = root w
            end)
  /\ (forall s,
         FileSystemEndpoints.validateFolderName name = Valid s ->
         FileSystemEndpoints.createFolder app NameUndefined name w
         = (inr EINVAL, w)).
Proof.
  split; [|split].
  - destruct name as [| | | |given|];
      try (eexists; eexists; split; [reflexivity | reflexivity]).
    destruct (String.eqb_spec given "") as [->|Hne];
      [eexists; eexists; split; [reflexivity | reflexivity]|].
    rewrite (endpointCreateFile_run _ _ _ _ Hne). cbv zeta.
    rewrite writeFileExclusive_run. cbv zeta.
    destruct (pathError _); [eexists; eexists; split; reflexivity|].
    destruct (trailing _); [eexists; eexists; split; reflexivity|].
    destruct (insertAt _ _ (root w) _) as [r'|e] eqn:Ei;
      [|eexists; eexists; split; reflexivity].
    eexists. eexists. split; [reflexivity|]. exists given.
    split; [reflexivity|]. apply (insertAt_new _ _ _ _ _ Ei).
  - destruct (FileSystemEndpoints.validateFolderName name) as [error|s] eqn:Hv.
    { unfold FileSystemEndpoints.createFolder. rewrite Hv.
      eexists. eexists. split; reflexivity. }
    rewrite (endpointCreateFolder_run _ _ _ _ _ Hv). cbv zeta.
    rewrite mkdirPlain_run. cbv zeta.
    destruct (pathError _); [eexists; eexists; split; reflexivity|].
    destruct (insertAt _ _ (root w) _) as [r'|e] eqn:Ei;
      [|eexists; eexists; split; reflexivity].
    eexists. eexists. split; [reflexivity|]. exists s.
    split; [reflexivity|]. apply (insertAt_new _ _ _ _ _ Ei).
  - intros s Hv. unfold FileSystemEndpoints.createFolder. rewrite Hv. reflexivity.
Qed.

(** X12.  The endpoints accept fewer names than [/api/folders]: a name
    they accept is accepted there too, with the same sanitized form, and
    has at most 20 characters; a name they refuse and that route accepts
    has a sanitized form of more than 20 characters. *)
Theorem endpoints_accept_fewer_names name :
  match FileSystemEndpoints.validateFolderName name with
  | Valid s =>
      FolderRoutes.validateFolderName name = Valid s
      /\ (String.length s <= 20)%nat
  | Invalid _ =>
      forall s, FolderRoutes.validateFolderName name = Valid s ->
                (20 < String.length s <= 50)%nat
  end.
Proof.
  unfold FileSystemEndpoints.validateFolderName, FolderRoutes.validateFolderName.
  destruct name as [| | | |given|]; try discriminate.
  destruct (given =? "")%string; [discriminate|]. cbv zeta.
  destruct ((sanitizeFolderName given =? "")%string
            || (String.length (sanitizeFolderName given) =? 0)%nat);
    [discriminate|].
  destruct (Nat.ltb_spec 20 (String.length (sanitizeFolderName given))) as [H20|H20].
  - intros s. destruct (Nat.ltb_spec 50 (String.length (sanitizeFolderName given)));
      [discriminate|].
    destruct (includes reserved (toLowerCase (sanitizeFolderName given)));
      [discriminate|].
    intros E. inversion E; subst. lia.
  - destruct (Nat.ltb_spec 50 (String.length (sanitizeFolderName given)));
      [lia|].
    destruct (includes reserved (toLowerCase (sanitizeFolderName given)));
      [discriminate|].
    split; [reflexivity | exact H20].
Qed.

End EndpointFacts.

(** ** The health routes *)

Module HealthFacts.
Import JsString Path Fs Async FsPromises Http ProjectRoutes FolderRoutes.
Import HealthRoutes RunSpec FsSpec HealthSpec RunFacts ReadOnlyFacts FolderListFacts.
Local Open Scope Z_scope.

Local Arguments health {ServerInfo SystemInfo}.
Local Arguments healthDetailed {ProcessInfo OsInfo}.
Local Arguments mkHealthResponse {ServerInfo SystemInfo}.
Local Arguments Report {ServerInfo SystemInfo}.
Local Arguments workspace {ServerInfo SystemInfo}.
Local Arguments success {ServerInfo SystemInfo}.
Local Arguments server {ServerInfo SystemInfo}.
Local Arguments system {ServerInfo SystemInfo}.
Local Arguments timestamp {ServerInfo SystemInfo}.
Local Arguments mkDetailedResponse {ProcessInfo OsInfo}.
Local Arguments DetailedReport {ProcessInfo OsInfo}.
Local Arguments mkDetailedData {ProcessInfo OsInfo}.

(** What [readdir] answers on tree [r]. *)
Lemma readdir_run p w :
  readdir p w
  = (match find (root w) p with
     | inl (Dir m es) => if readFails m then inr EACCES else inl es
     | inl _ => inr ENOTDIR
     | inr e => inr e
     end, logged (Readdir p) w).
Proof.
  unfold readdir, bind, record, getRoot, lift, readdirNode, logged.
  cbn [root log clock tick].
  destruct (find (root w) p) as [[m d|m es]|e]; try reflexivity.
  unfold ret at 1. cbv iota beta. destruct (readFails m); reflexivity.
Qed.

Section Health.
Variables ServerInfo SystemInfo : Type.

Ltac reported :=
  match goal with
  | |- exists data w',
        (inl {| healthStatus := _; healthBody := @HealthRoutes.Report _ _ ?D |}, ?W)
        = _ /\ _ =>
      exists D, W; split; [reflexivity|]
  end.

Lemma health_run app (serverInfo : ServerInfo)
        (systemInfo : SystemInfo) w :
  exists data w',
    health app serverInfo systemInfo w
    = (inl (mkHealthResponse (if accessible (workspace data) then 200 else 503)
                             (Report data)), w')
    /\ root w' = root w
    /\ success data = accessible (workspace data)
    /\ server data = serverInfo /\ system data = systemInfo
    /\ health_path (workspace data) = getWorkspacePath app
    /\ accessible (workspace data)
       = match statOutcome (root w) (getWorkspacePath app) with
         | inl _ => true
         | inr _ => false
         end
    /\ folderCount (workspace data)
       = match statOutcome (root w) (getWorkspacePath app),
               find (root w) (getWorkspacePath app) with
         | inl _, inl (Dir m items) =>
             if readFails m then 0%nat
             else List.length (directoryNames items)
         | _, _ => 0%nat
         end.
Proof.
  unfold health. unfold tryCatch at 1. unfold bind at 1.
  unfold tryCatch at 1. unfold bind at 1. rewrite access_run.
  destruct (statOutcome (root w) (getWorkspacePath app)) as [st|e].
  - unfold ret at 1. cbv iota beta. unfold bind at 1. unfold tryCatch, bind at 1.
    rewrite readdir_run. change (root (logged _ w)) with (root w).
    destruct (find (root w) (getWorkspacePath app)) as [[m d|m items]|e'];
      [| destruct (readFails m) |];
      cbv beta iota zeta delta [bind ret now negb timestamp server workspace system];
      reported; repeat split.
    unfold directoryNames. rewrite length_map. reflexivity.
  - cbv beta iota zeta delta [bind ret now negb timestamp server workspace system].
    reported. repeat split.
Qed.

(** X13.  [GET /api/health] always answers with a report and leaves the
    tree as it was.  The answer is 200 and [success] where [access] to
    the workspace succeeds, 503 and no [success] where it fails; the
    server and system figures are passed on; [folderCount] is the number
    of directories among the entries of the workspace, and 0 where the
    workspace is out of reach or cannot be listed. *)
Theorem health_reports_the_workspace app (serverInfo : ServerInfo)
        (systemInfo : SystemInfo) w :
  exists data w',
    health app serverInfo systemInfo w
    = (inl (mkHealthResponse (if accessible (workspace data) then 200 else 503)
                             (Report data)), w')
    /\ root w' = root w
    /\ success data = accessible (workspace data)
    /\ server data = serverInfo /\ system data = systemInfo
    /\ health_path (workspace data) = getWorkspacePath app
    /\ accessible (workspace data)
       = match statOutcome (root w) (getWorkspacePath app) with
         | inl _ => true
         | inr _ => false
         end
    /\ folderCount (workspace data)
       = match statOutcome (root w) (getWorkspacePath app),
               find (root w) (getWorkspacePath app) with
         | inl _, inl (Dir m items) =>
             if readFails m then 0%nat
             else List.length (directoryNames items)
         | _, _ => 0%nat
         end.
Proof. apply health_run. Qed.

(** X14.  Where the health route answers 200 and the folder list
    answers with folders, on the same tree, the [folderCount] of the one
    is the [count] of the other. *)
Theorem health_counts_the_listed_folders app (serverInfo : ServerInfo)
        (systemInfo : SystemInfo) w data w1 count folders w2 :
  health app serverInfo systemInfo w
  = (inl (mkHealthResponse 200 (Report data)), w1) ->
  listFolders app w = (inl (json (FoldersBody count folders)), w2) ->
  folderCount (workspace data) = count.
Proof.
  intros E1 E2.
  destruct (health_run app serverInfo systemInfo w)
    as (data0 & w0 & E0 & _ & _ & _ & _ & _ & Hacc & Hcount).
  rewrite E0 in E1. inversion E1 as [[Hst Hd Hw]]. subst data0.
  destruct (accessible (workspace data)); [|discriminate Hst].
  clear E0 E1 Hst Hw.
  unfold listFolders, tryCatch in E2. unfold bind at 1 in E2.
  rewrite readdir_run in E2.
  destruct (statOutcome (root w) (getWorkspacePath app)); [|discriminate Hacc].
  destruct (find (root w) (getWorkspacePath app)) as [[m d|m items]|e];
    try discriminate E2.
  destruct (readFails m); [discriminate E2|].
  unfold bind in E2.
  destruct (collectFolders_run (getWorkspacePath app) items
              (logged (Readdir (getWorkspacePath app)) w))
    as (fs & w' & E & _ & _ & _ & Hn & _).
  rewrite E in E2. inversion E2; subst.
  rewrite Hcount, <- Hn, length_map.
  symmetry. apply Permutation_length, SortFacts.sort_perm.
Qed.

End Health.

(** The sample workspace of three folders and a file. *)
Lemma health_counts_sample :
  exists data w1 folders w2,
    (health Sample.app tt tt Sample.foldersWorld
     = (inl (mkHealthResponse 200 (Report data)), w1)
     /\ listFolders Sample.app Sample.foldersWorld
        = (inl (json (FoldersBody 3 folders)), w2))
    /\ folderCount (workspace data) = 3%nat.
Proof.
  destruct (health Sample.app tt tt Sample.foldersWorld)
    as [r1 w1] eqn:E1.
  destruct (listFolders Sample.app Sample.foldersWorld) as [r2 w2] eqn:E2.
  assert (H1 : exists data, r1 = inl (mkHealthResponse 200 (Report data)))
    by (vm_compute in E1; inversion E1; eexists; reflexivity).
  assert (H2 : exists folders, r2 = inl (json (FoldersBody 3 folders)))
    by (vm_compute in E2; inversion E2; eexists; reflexivity).
  destruct H1 as (data & ->). destruct H2 as (folders & ->).
  exists data, w1, folders, w2. split; [split; reflexivity|].
  exact (health_counts_the_listed_folders
           unit unit Sample.app tt tt Sample.foldersWorld
           data w1 3%nat folders w2 E1 E2).
Defined.


Lemma summarize_run ws items :
  forall details w,
  exists new w',
    summarize ws items details w
    = (inl (mkWorkspaceDetails (details_accessible details)
                               (details_folders details ++ new)
                               (totalSize details + sumOfSizes new)
                               (details_error details)), w')
    /\ onlyReads w w'
    /\ map summary_name new = filter (examinable (root w) ws) (directoryNames items)
    /\ Forall (fun f =>
                 exists stats,
                   statOutcome (root w) (Path.join [ws; summary_name f]) = inl stats
                   /\ summary_size f = st_size stats
                   /\ summary_created f = st_birthtime stats) new.
Proof.
  induction items as [|[k x] items IH]; intros details w.
  - exists [], w. cbn [summarize]. unfold sumOfSizes. cbn [map fold_right].
    rewrite app_nil_r, Z.add_0_r. destruct details.
    split; [reflexivity|]. split; [apply onlyReads_refl|].
    split; [reflexivity | constructor].
  - cbn [summarize]. unfold directoryNames. cbn [filter snd].
    destruct (isDir x).
    + unfold bind at 1. unfold tryCatch, bind at 1. rewrite stat_run.
      assert (H0 : onlyReads w (logged (Stat (Path.join [ws; k])) w))
        by (apply onlyReads_log; reflexivity).
      cbn [map fst filter]. unfold examinable at 1.
      destruct (statOutcome (root w) (Path.join [ws; k])) as [st|e] eqn:Es.
      * unfold ret at 1. cbv iota beta.
        destruct (IH (mkWorkspaceDetails
                        (details_accessible details)
                        (details_folders details
                           ++ [mkFolderSummary k (st_birthtime st) (st_size st)])
                        (totalSize details + st_size st)
                        (details_error details))
                     (logged (Stat (Path.join [ws; k])) w))
          as (new & w' & E & H1 & Hn & Hall).
        rewrite E. cbn [details_accessible details_folders totalSize details_error].
        exists (mkFolderSummary k (st_birthtime st) (st_size st) :: new), w'.
        split.
        { rewrite <- app_assoc. unfold sumOfSizes. cbn [map fold_right summary_size].
          fold (sumOfSizes new). f_equal. f_equal. f_equal. lia. }
        split; [exact (onlyReads_trans _ _ _ H0 H1)|].
        split.
        { cbn [map summary_name]. f_equal. exact Hn. }
        constructor; [|exact Hall].
        exists st. cbn [summary_name summary_size summary_created]. auto.
      * unfold ret at 1. cbv iota beta.
        destruct (IH details (logged (Stat (Path.join [ws; k])) w))
          as (new & w' & E & H1 & Hn & Hall).
        rewrite E. exists new, w'. split; [reflexivity|].
        split; [exact (onlyReads_trans _ _ _ H0 H1)|].
        split; [exact Hn | exact Hall].
    + apply IH.
Qed.

Section Detailed.
Variables ProcessInfo OsInfo : Type.

(** X15.  [GET /api/health/detailed] always answers 200 and only reads.
    Its [totalSize] is the sum of the sizes of the folders it lists, and
    these are, in the order of the directory, the directories of the
    workspace on which [stat] succeeds, each with the size and creation
    time [stat] gives: a directory that cannot be examined is left out
    (the folder list keeps it, with size 0).  Where the workspace is out
    of reach, no folder is listed and the error is recorded. *)
Theorem detailed_health_sums_the_examinable_folders
        app (processInfo : ProcessInfo) (osInfo : OsInfo) w :
  exists at_ details w',
    healthDetailed app processInfo osInfo w
    = (inl (mkDetailedResponse 200
              (DetailedReport (mkDetailedData at_ details processInfo osInfo))),
       w')
    /\ root w' = root w
    /\ totalSize details = sumOfSizes (details_folders details)
    /\ Forall (fun f =>
                 exists stats,
                   statOutcome (root w)
                               (Path.join [getWorkspacePath app; summary_name f])
                   = inl stats
                   /\ summary_size f = st_size stats
                   /\ summary_created f = st_birthtime stats)
              (details_folders details)
    /\ match statOutcome (root w) (getWorkspacePath app),
             find (root w) (getWorkspacePath app) with
       | inl _, inl (Dir m items) =>
           details_accessible details = true
           /\ (readFails m = false ->
               details_error details = None
               /\ map summary_name (details_folders details)
                  = filter (examinable (root w) (getWorkspacePath app))
                           (directoryNames items))
       | inl _, _ => details_folders details = []
       | inr e, _ =>
           details_accessible details = false
           /\ details_folders details = []
           /\ details_error details = Some e
       end.
Proof.
  unfold healthDetailed, tryCatch. unfold bind at 1. unfold workspaceDetails.
  rewrite access_run.
  destruct (statOutcome (root w) (getWorkspacePath app)) as [st|e].
  2:{ eexists. eexists. eexists. split; [reflexivity|]. cbn.
      repeat split; try constructor. }
  rewrite readdir_run. change (root (logged _ w)) with (root w).
  destruct (find (root w) (getWorkspacePath app)) as [[m d|m items]|e'];
    try (eexists; eexists; eexists; split; [reflexivity|]; cbn;
         repeat split; try constructor).
  destruct (readFails m).
  { eexists. eexists. eexists. split; [reflexivity|]. cbn.
    repeat split; try (intros; discriminate); try constructor. }
  destruct (summarize_run (getWorkspacePath app) items
              (mkWorkspaceDetails true [] 0 None)
              (logged (Readdir (getWorkspacePath app))
                      (logged (Access (getWorkspacePath app)) w)))
    as (new & w' & E & (Hr & _) & Hn & Hall).
  rewrite E. eexists. eexists. eexists. split; [reflexivity|].
  cbn [root log clock tick details_folders totalSize details_accessible
       details_error List.app]. cbn [logged root] in Hr, Hn, Hall.
  split; [exact Hr|]. split; [reflexivity|]. split; [exact Hall|].
  split; [reflexivity|]. intros _. split; [reflexivity | exact Hn].
Qed.

End Detailed.

End HealthFacts.

(** ** Start of the server *)

Module ServerFacts.
Import JsString Path Fs Async FsPromises Http ProjectRoutes FolderRoutes Server.
Import RunSpec WriteSpec FsSpec RunFacts FsFacts TreeChangeFacts.
Local Open Scope Z_scope.




End ServerFacts.

(** ** The page *)

Module ClientFacts.
Import JsString Http FolderRoutes FolderNameSpec ClientSpec FolderNameFacts.
Import FolderCreateFacts PathFacts.

Lemma entity_cases c :
  (Client.entity c = None /\ c <> "&"%char /\ markup c = false)
  \/ (c = "&"%char /\ Client.entity c = Some "&amp;")
  \/ (c = "<"%char /\ Client.entity c = Some "&lt;")
  \/ (c = ">"%char /\ Client.entity c = Some "&gt;")
  \/ (c = ascii_of_nat 34 /\ Client.entity c = Some "&quot;")
  \/ (c = "'"%char /\ Client.entity c = Some "&#039;").
Proof.
  unfold Client.entity, markup. cbn [existsb].
  destruct (Ascii.eqb_spec c "&") as [->|H1]; [right; left; split; reflexivity|].
  destruct (Ascii.eqb_spec c "<") as [->|H2];
    [right; right; left; split; reflexivity|].
  destruct (Ascii.eqb_spec c ">") as [->|H3];
    [right; right; right; left; split; reflexivity|].
  destruct (Ascii.eqb_spec c (ascii_of_nat 34)) as [->|H4];
    [right; right; right; right; left; split; reflexivity|].
  destruct (Ascii.eqb_spec c "'") as [->|H5];
    [right; right; right; right; right; split; reflexivity|].
  left. repeat split; assumption.
Qed.

Lemma replaceEntities_inert s :
  forallb (fun c => negb (markup c)) (chars (Client.replaceEntities s)) = true.
Proof.
  induction s as [|c s IH]; [reflexivity|]. cbn [Client.replaceEntities].
  destruct (entity_cases c)
    as [(E & _ & Hm)|[(-> & E)|[(-> & E)|[(-> & E)|[(-> & E)|(-> & E)]]]]];
    rewrite E; try (rewrite chars_app, forallb_app, IH; reflexivity).
  cbn [chars list_ascii_of_string forallb]. fold (chars (Client.replaceEntities s)).
  rewrite Hm, IH. reflexivity.
Qed.

Lemma replaceEntities_plain s :
  forallb (fun c => negb (markup c) && negb (Ascii.eqb c "&")) (chars s) = true ->
  Client.replaceEntities s = s.
Proof.
  induction s as [|c s IH]; [reflexivity|].
  cbn [chars list_ascii_of_string forallb]. fold (chars s). intros H.
  apply andb_true_iff in H. destruct H as [Hc Hs].
  apply andb_true_iff in Hc. destruct Hc as [Hm Ha].
  apply negb_true_iff in Hm, Ha. cbn [Client.replaceEntities].
  destruct (entity_cases c)
    as [(E & _ & _)|[(-> & E)|[(-> & E)|[(-> & E)|[(-> & E)|(-> & E)]]]]];
    try discriminate.
  rewrite E, (IH Hs). reflexivity.
Qed.

Lemma replaceEntities_injective a :
  forall b, Client.replaceEntities a = Client.replaceEntities b -> a = b.
Proof.
  induction a as [|c a IH]; intros b H.
  - destruct b as [|d b]; [reflexivity|]. cbn [Client.replaceEntities] in H.
    destruct (entity_cases d)
      as [(E & _ & _)|[(-> & E)|[(-> & E)|[(-> & E)|[(-> & E)|(-> & E)]]]]];
      rewrite E in H; discriminate H.
  - destruct b as [|d b]; cbn [Client.replaceEntities] in H.
    + destruct (entity_cases c)
        as [(E & _ & _)|[(-> & E)|[(-> & E)|[(-> & E)|[(-> & E)|(-> & E)]]]]];
        rewrite E in H; discriminate H.
    + destruct (entity_cases c)
        as [(E & Hc & _)|[(-> & E)|[(-> & E)|[(-> & E)|[(-> & E)|(-> & E)]]]]];
        rewrite E in H;
        destruct (entity_cases d)
          as [(E' & Hd & _)|[(-> & E')|[(-> & E')|[(-> & E')|[(-> & E')|(-> & E')]]]]];
        rewrite E' in H; cbn [append] in H;
        try discriminate H;
        try (injection H as H0 H; congruence);
        try (injection H as H; f_equal; apply IH; exact H).
      injection H as H0 H. subst d. f_equal. apply IH, H.
Qed.

(** X17.  [escapeHtml] gives the empty string for what is no string;
    its result holds no angle bracket and no quote; a text without these
    and without ampersand comes back as it is; and two texts with one
    result are one text. *)
Theorem escaped_text_is_inert_and_faithful :
  (forall text,
      (forall s, text <> NameString s) -> Client.escapeHtml text = "")
  /\ (forall text,
         forallb (fun c => negb (markup c)) (chars (Client.escapeHtml text)) = true)
  /\ (forall s,
         forallb (fun c => negb (markup c) && negb (Ascii.eqb c "&")) (chars s)
         = true ->
         Client.escapeHtml (NameString s) = s)
  /\ (forall a b,
         Client.escapeHtml (NameString a) = Client.escapeHtml (NameString b) ->
         a = b).
Proof.
  split.
  { intros text H. destruct text; try reflexivity. exfalso. apply (H s). reflexivity. }
  split.
  { intros text. destruct text; try reflexivity. apply replaceEntities_inert. }
  split; [exact replaceEntities_plain | exact replaceEntities_injective].
Qed.

Lemma filter_kept l :
  existsb invalidChar l = false ->
  filter (fun c => negb (invalidChar c)) l = l
  /\ Forall (fun c => invalidChar c = false) l.
Proof.
  induction l as [|c l IH]; [split; [reflexivity | constructor]|].
  cbn [existsb filter]. intros H. apply orb_false_iff in H.
  destruct H as [Hc Hl]. rewrite Hc. cbn [negb].
  destruct (IH Hl) as [-> HF]. split; [reflexivity | constructor; assumption].
Qed.

Lemma spacesToHyphen_length l :
  forall b, (List.length (spacesToHyphen b l) <= List.length l)%nat.
Proof.
  induction l as [|c l IH]; intros b; cbn [spacesToHyphen List.length]; [lia|].
  pose proof (IH true). pose proof (IH false).
  destruct (isSpace c); [destruct b|]; cbn [List.length]; lia.
Qed.

Lemma spacesToHyphen_hyphen l :
  existsb isSpace l = true -> In "-"%char (spacesToHyphen false l).
Proof.
  induction l as [|c l IH]; [discriminate|]. cbn [existsb spacesToHyphen].
  destruct (isSpace c); [left; reflexivity|]. cbn [orb]. intros H.
  right. apply IH, H.
Qed.

Lemma length_chars s : List.length (chars s) = String.length s.
Proof.
  induction s as [|c s IH]; [reflexivity|].
  cbn [chars list_ascii_of_string List.length String.length]. fold (chars s).
  rewrite IH. reflexivity.
Qed.

(** The sanitized form of a name without stripped characters: its white
    space made hyphens, lowercased. *)
Lemma sanitize_unstripped t :
  existsb invalidChar (chars t) = false ->
  chars (sanitizeFolderName t)
  = map lowerChar (spacesToHyphen false (chars t)).
Proof.
  intros H. destruct (filter_kept _ H) as [Hf HF].
  unfold sanitizeFolderName, trim, toLowerCase. rewrite Hf, !chars_ofChars.
  assert (Hs : Forall (fun c => isSpace c = false)
                      (map lowerChar (spacesToHyphen false (chars t)))).
  { apply Forall_map. eapply Forall_impl; [|apply (spacesToHyphen_kept false _ HF)].
    intros c [H1 H2]. apply (lowerChar_clean c H1 H2). }
  rewrite (trimStart_id _ Hs), (trimStart_id _ (Forall_rev Hs)), rev_involutive.
  reflexivity.
Qed.

Lemma reserved_hyphen r : In r reserved -> ~ In "-"%char (chars r).
Proof.
  intros H.
  assert (Hall : forallb (fun r => negb (existsb (Ascii.eqb "-") (chars r))) reserved
                 = true) by reflexivity.
  rewrite forallb_forall in Hall. specialize (Hall r H).
  apply negb_true_iff in Hall. intros Hin.
  assert (E : existsb (Ascii.eqb "-") (chars r) = true).
  { apply existsb_exists. exists "-"%char. split; [exact Hin | reflexivity]. }
  congruence.
Qed.

(** X18.  For names of characters below U+0100, which is what a
    [string] holds: a name the form accepts is sent trimmed, and the
    server then either accepts it, its sanitized form being the name
    with its white space made hyphens and lowercased, or refuses it as
    reserved; the latter only for the device names [com1] to [com9] and
    [lpt1] to [lpt9], in any letter case, which the form does not know
    of.  The server never finds such a name empty or too long.  Nothing
    is said of names with other characters: lowercasing can make those
    longer (U+0130 becomes two code units), and such a name of fifty
    characters is one the form accepts and the server finds too
    long. *)
Theorem names_the_form_accepts name :
  Client.validateFolderName name = true ->
  exists given,
    name = NameString given
    /\ (validateFolderName (NameString (trim given))
        = Valid (sanitizeFolderName (trim given))
        \/ (validateFolderName (NameString (trim given))
            = Invalid "Reserved folder name not allowed"
            /\ In (toLowerCase (trim given)) devicePorts)).
Proof.
  unfold Client.validateFolderName. destruct name as [| | | |given|]; try discriminate.
  destruct (given =? "")%string; [discriminate|]. cbv zeta.
  set (t := trim given).
  destruct (String.eqb_spec t "") as [E|Hne]; [discriminate|]. cbn [orb].
  destruct (String.length t =? 0)%nat; [discriminate|].
  destruct (Nat.ltb_spec 50 (String.length t)) as [|Hlen]; [discriminate|].
  destruct (existsb invalidChar (chars t)) eqn:Hinv; [discriminate|].
  destruct (includes Client.reserved (toLowerCase t)) eqn:Hres; [discriminate|].
  intros _. exists given. split; [reflexivity|]. fold t.
  pose proof (sanitize_unstripped t Hinv) as Hchars.
  pose proof (sanitize_chars t) as Hclean.
  assert (Hlen' : (String.length (sanitizeFolderName t) <= 50)%nat).
  { rewrite <- length_chars, Hchars, length_map.
    pose proof (spacesToHyphen_length (chars t) false) as Hl.
    rewrite length_chars in Hl. lia. }
  assert (Hne' : sanitizeFolderName t <> "").
  { intros E. rewrite E in Hchars. destruct t as [|c t']; [congruence|].
    cbn [chars list_ascii_of_string spacesToHyphen] in Hchars.
    destruct (isSpace c); discriminate Hchars. }
  assert (Hv : validateFolderName (NameString t)
               = if includes reserved (sanitizeFolderName t)
                 then Invalid "Reserved folder name not allowed"
                 else Valid (sanitizeFolderName t)).
  { unfold validateFolderName.
    destruct (String.eqb_spec t "") as [E|_]; [contradiction|]. cbv zeta.
    destruct (String.eqb_spec (sanitizeFolderName t) "") as [E|_];
      [contradiction|].
    cbn [orb]. rewrite (toLowerCase_clean _ Hclean).
    apply Nat.ltb_ge in Hlen'. rewrite Hlen'.
    destruct (sanitizeFolderName t) as [|c0 rest]; [congruence | reflexivity]. }
  rewrite Hv.
  destruct (includes reserved (sanitizeFolderName t)) eqn:Hr; [|left; reflexivity].
  right. split; [reflexivity|].
  apply includes_In in Hr.
  assert (Hsp : existsb isSpace (chars t) = false).
  { destruct (existsb isSpace (chars t)) eqn:Hsp; [|reflexivity].
    exfalso. apply (reserved_hyphen _ Hr). rewrite Hchars.
    change "-"%char with (lowerChar "-"). apply in_map.
    apply spacesToHyphen_hyphen, Hsp. }
  assert (Hlow : sanitizeFolderName t = toLowerCase t).
  { rewrite <- (ofChars_chars (sanitizeFolderName t)), Hchars.
    rewrite spacesToHyphen_nospace; [reflexivity|].
    apply Forall_forall. intros c Hc.
    destruct (isSpace c) eqn:Ec; [|reflexivity].
    assert (existsb isSpace (chars t) = true)
      by (apply existsb_exists; exists c; split; assumption).
    congruence. }
  rewrite Hlow in Hr.
  change reserved with (Client.reserved ++ devicePorts)%list in Hr.
  apply in_app_or in Hr. destruct Hr as [Hr|Hr]; [|exact Hr].
  apply includes_In in Hr. congruence.
Qed.

(** [ My Project ] is accepted by both; [COM1] by the form only. *)
Lemma names_the_form_accepts_sample :
  (Client.validateFolderName (NameString " My Project ") = true
   /\ validateFolderName (NameString "My Project") = Valid "my-project")
  /\ Client.validateFolderName (NameString "COM1") = true
  /\ validateFolderName (NameString "COM1")
     = Invalid "Reserved folder name not allowed".
Proof.
  split; [|split; reflexivity].
  split; [reflexivity|].
  destruct (names_the_form_accepts (NameString " My Project ") eq_refl)
    as (given & E & [H|[H _]]); inversion E; subst given.
  - exact H.
  - vm_compute in H. discriminate H.
Defined.

End ClientFacts.

(** ** Refused requests, and the deletion of a folder *)

Module GuardFacts.
Import JsString Path Fs Async FsPromises FsMore Http ProjectRoutes FolderRoutes.
Import ProjectRoutesMore RunSpec FsSpec RunFacts TreeChangeFacts.
Local Open Scope Z_scope.

(** X19.  A request the security check refuses is answered 403 by each
    of the five checked routes before any call to the filesystem is
    made, and before the content of a save is looked at: the machine is
    what it was, log included. *)
Theorem refused_requests_reach_no_file app pn fp content w :
  insideProject app pn fp = false ->
  getFile app pn fp w = (inl accessDenied, w)
  /\ putFile app pn fp content w = (inl accessDenied, w)
  /\ postFile app pn fp content w = (inl accessDenied, w)
  /\ deleteFile app pn fp w = (inl accessDenied, w)
  /\ postFolder app pn fp w
     = (inl (mkFolderResponse 403
               (FolderFailure
                  "Access denied: Folder path outside project directory")), w).
Proof.
  intros H. unfold getFile, putFile, postFile, deleteFile, postFolder.
  rewrite H. repeat split; reflexivity.
Qed.

(** The file next to the sample workspace, asked for through [proj]. *)
Lemma refused_requests_sample :
  insideProject Sample.app "proj" "../../secret.txt" = false
  /\ deleteFile Sample.app "proj" "../../secret.txt" Sample.world
     = (inl accessDenied, Sample.world)
  /\ putFile Sample.app "proj" "../../secret.txt" (JsString [120]) Sample.world
     = (inl accessDenied, Sample.world).
Proof.
  split; [reflexivity|].
  destruct (refused_requests_reach_no_file
              Sample.app "proj" "../../secret.txt" (JsString [120]) Sample.world
              eq_refl) as (_ & H2 & _ & H4 & _).
  split; [exact H4 | exact H2].
Defined.



End GuardFacts.

(** ** The listing of the file-system endpoints *)

Module ListingFacts.
Import JsString Path Fs Async FsPromises Http ProjectRoutes EndpointListing.
Import RunSpec FsSpec HealthSpec RunFacts ReadOnlyFacts.
Local Open Scope Z_scope.

Lemma statEach_run base items :
  forall w, exists settled w',
    statEach base items w = (inl settled, w')
    /\ onlyReads w w'
    /\ match promiseAll settled with
       | inl contents =>
           forallb (fun e => examinable (root w) base (fst e)) items = true
           /\ map entry_name contents = map fst items
           /\ map entry_isFolder contents = map (fun e => isDir (snd e)) items
           /\ Forall (fun c =>
                        exists stats,
                          statOutcome (root w) (join [base; entry_name c])
                          = inl stats
                          /\ entry_size c = st_size stats
                          /\ entry_modified c = st_mtime stats) contents
       | inr _ =>
           forallb (fun e => examinable (root w) base (fst e)) items = false
       end.
Proof.
  induction items as [|[k x] items IH]; intros w.
  - exists [], w. split; [reflexivity|]. split; [apply onlyReads_refl|].
    cbn [promiseAll forallb map]. repeat split. constructor.
  - cbn [statEach]. unfold bind at 1. unfold tryCatch, bind at 1.
    rewrite stat_run.
    assert (H0 : onlyReads w (logged (Stat (join [base; k])) w))
      by (apply onlyReads_log; reflexivity).
    destruct (IH (logged (Stat (join [base; k])) w))
      as (settled & w' & E & H1 & Hall).
    change (root (logged (Stat (join [base; k])) w)) with (root w) in Hall.
    cbn [forallb fst].
    assert (He : examinable (root w) base k
                 = match statOutcome (root w) (join [base; k]) with
                   | inl _ => true
                   | inr _ => false
                   end) by reflexivity.
    destruct (statOutcome (root w) (join [base; k])) as [st|e] eqn:Es;
      rewrite He.
    + unfold ret at 1. cbv iota beta. unfold bind. rewrite E.
      eexists. exists w'. split; [reflexivity|].
      split; [exact (onlyReads_trans _ _ _ H0 H1)|].
      cbn [promiseAll andb]. destruct (promiseAll settled) as [contents|e'].
      * destruct Hall as (Ha & Hn & Hd & Hs).
        split; [exact Ha|]. cbn [map entry_name entry_isFolder fst snd].
        split; [f_equal; exact Hn|]. split; [f_equal; exact Hd|].
        constructor; [|exact Hs].
        exists st. cbn [entry_name entry_size entry_modified]. auto.
      * exact Hall.
    + unfold ret at 1. cbv iota beta. unfold bind. rewrite E.
      eexists. exists w'. split; [reflexivity|].
      split; [exact (onlyReads_trans _ _ _ H0 H1) | reflexivity].
Qed.

(** X21.  [GET /arborescence] without [folder_path] lists the workspace
    itself.  With a string it always answers and only reads; the
    answer is 200 only where the directory can be read and [stat]
    succeeds on every one of its entries, and then the contents are the
    entries in the order of the directory, each with its type and the
    size and time [stat] gives; one entry that cannot be examined makes
    the whole answer a 500, as does a path that holds no directory. *)
Theorem one_failing_stat_fails_the_listing app fp w :
  arborescence app NameUndefined w = arborescence app (NameString "") w
  /\ exists response w',
      arborescence app (NameString fp) w = (inl response, w')
      /\ onlyReads w w'
      /\ match find (root w) (join [getWorkspacePath app; fp]) with
         | inl (Dir m items) =>
             if readFails m
                || negb (forallb
                           (fun e => examinable (root w)
                                       (join [getWorkspacePath app; fp]) (fst e))
                           items)
             then response = mkListingResponse 500 ListingFailure
             else
               exists contents,
                 response = mkListingResponse 200 (Contents contents)
                 /\ map entry_name contents = map fst items
                 /\ map entry_isFolder contents
                    = map (fun e => isDir (snd e)) items
                 /\ Forall (fun c =>
                              exists stats,
                                statOutcome
                                  (root w)
                                  (join [join [getWorkspacePath app; fp];
                                         entry_name c])
                                = inl stats
                                /\ entry_size c = st_size stats
                                /\ entry_modified c = st_mtime stats) contents
         | _ => response = mkListingResponse 500 ListingFailure
         end.
Proof.
  split; [reflexivity|].
  unfold arborescence, basePathOf. unfold bind at 1. unfold ret at 1.
  cbv iota beta. set (base := join [getWorkspacePath app; fp]).
  unfold tryCatch. unfold bind at 1. rewrite HealthFacts.readdir_run.
  assert (H0 : onlyReads w (logged (Readdir base) w))
    by (apply onlyReads_log; reflexivity).
  destruct (find (root w) base) as [[m d|m items]|e];
    try (eexists; eexists; split; [reflexivity|]; split; [exact H0 | reflexivity]).
  destruct (readFails m).
  { eexists. eexists. split; [reflexivity|]. split; [exact H0 | reflexivity]. }
  cbn [orb]. unfold bind at 1.
  destruct (statEach_run base items (logged (Readdir base) w))
    as (settled & w' & E & H1 & Hall).
  change (root (logged (Readdir base) w)) with (root w) in Hall.
  rewrite E. unfold bind, lift.
  destruct (promiseAll settled) as [contents|e'].
  - destruct Hall as (Ha & Hrest). rewrite Ha. cbn [negb].
    eexists. eexists. split; [reflexivity|].
    split; [exact (onlyReads_trans _ _ _ H0 H1)|].
    exists contents. split; [reflexivity | exact Hrest].
  - rewrite Hall. cbn [negb].
    eexists. eexists. split; [reflexivity|].
    split; [exact (onlyReads_trans _ _ _ H0 H1) | reflexivity].
Qed.

End ListingFacts.

(** ** Saving twice *)

Module SecondSaveFacts.
Import JsString Fs Async FsPromises Http ProjectRoutes.
Import RunSpec ReadSpec PathSpec WriteSpec FsSpec.
Import RunFacts ReadFacts PathFacts FsFacts TreeChangeFacts SaveFacts.
Local Open Scope Z_scope.

Lemma writeAt_parent t data p x :
  forall n n',
    writeAt t data n (p ++ [x]) = inl n' ->
    exists m es, lookup n' p = Some (Dir m es).
Proof.
  induction p as [|c p IH]; intros n n' H.
  - destruct n as [m d|m es]; try discriminate. cbn [List.app writeAt] in H.
    destruct (assoc x es) as [[my dy|my esy]|]; try discriminate H;
      inversion H; subst; eexists; eexists; reflexivity.
  - destruct n as [m d|m es]; try discriminate. cbn [List.app writeAt] in H.
    destruct (assoc c es) as [y|] eqn:Ea.
    + destruct (writeAt t data y (p ++ [x])) as [y'|] eqn:Ey; [|discriminate].
      inversion H; subst. cbn [lookup].
      rewrite (assoc_update_same _ _ _ _ Ea). apply (IH _ _ Ey).
    + destruct (p ++ [x])%list eqn:Ep; [|discriminate H].
      apply app_eq_nil in Ep. destruct Ep as [_ Ep]. discriminate Ep.
Qed.

(** X22.  A save that was answered with 200 can be repeated: a second
    save of the same path, with whatever text, is answered with 200
    too; the file then holds the UTF-8 encoding of the second text, the
    size answered is its length in bytes, and every entry off the way
    to the path is what it was after the first save. *)
Theorem a_second_save_replaces_the_first
        app pn fp text1 text2 w message saved w1 :
  insideProject app pn fp = true ->
  Path.isAbsolute (getWorkspacePath app) = true ->
  putFile app pn fp (JsString text1) w
  = (inl (json (SavedBody message saved)), w1) ->
  exists saved2 w2 m2,
    putFile app pn fp (JsString text2) w1
    = (inl (json (SavedBody "File saved successfully" saved2)), w2)
    /\ lookup (root w2) (segments (fullFilePath app pn fp))
       = Some (File m2 (Utf8.encode text2))
    /\ info_size saved2 = Z.of_nat (List.length (Utf8.encode text2))
    /\ (forall q, diverge (segments (fullFilePath app pn fp)) q = true ->
                  lookup (root w2) q = lookup (root w1) q).
Proof.
  intros Hin Habs. rewrite (putFile_run _ _ _ _ _ Hin). cbv zeta.
  set (full := fullFilePath app pn fp). set (dir := Path.dirname full).
  destruct (pathError dir) eqn:Hdname; [discriminate|].
  destruct (mkdirp (clock w (tick w)) (root w) (segments dir)) as [r1|] eqn:Em;
    [|discriminate].
  destruct (pathError full) eqn:Hname; [discriminate|].
  destruct (trailing full) eqn:Htr; [discriminate|].
  destruct (writeAt (clock w (S (tick w))) (Utf8.encode text1) r1 (segments full))
    as [r2|e] eqn:Ew; [|discriminate].
  destruct (writeAt_lookup _ _ _ _ _ Ew) as (m1 & Hl & _).
  unfold statOutcome at 1. unfold find. rewrite Hl, Htr. cbn [andb meta].
  destruct (statFails m1) eqn:Hs1; [discriminate|].
  intros E. inversion E; subst w1. clear E.
  destruct (WriteFacts.fullFilePath_shape app pn fp Habs Htr) as (last & Hsegs).
  fold full in Hsegs. fold dir in Hsegs.
  rewrite Hsegs in Ew, Hl.
  destruct (writeAt_parent _ _ _ _ _ _ Ew) as (md & esd & Hd).
  rewrite (putFile_run _ _ _ _ _ Hin). cbv zeta. fold full. fold dir.
  unfold afterWrite. cbn [root log clock tick].
  rewrite Hdname, (FolderCreateFacts.mkdirp_existing _ _ _ _ Hd). cbn [isDir].
  rewrite Hname, Htr, Hsegs.
  destruct (writeAt_file (clock w (S (S (S (tick w))))) (Utf8.encode text2)
                         (segments dir) last r2
                         (ex_intro _ md (ex_intro _ esd Hd)))
    as (r3 & m3 & Hw3 & Hl3 & Hsz3 & _ & Hsf3 & _).
  { rewrite Hl. exact I. }
  rewrite Hw3. rewrite Hl in Hsf3. cbn [meta] in Hsf3. rewrite Hs1 in Hsf3.
  assert (Hl3' : lookup r3 (segments full) = Some (File m3 (Utf8.encode text2)))
    by (rewrite Hsegs; exact Hl3).
  rewrite (WriteFacts.statOutcome_file _ _ _ _ Hl3' Htr Hsf3).
  eexists. eexists. exists m3. split; [reflexivity|]. cbn [root].
  split; [exact Hl3|].
  split; [cbn [info_size st_size statsOf meta]; exact Hsz3|].
  intros q Hq. apply (writeAt_frame _ _ _ _ _ _ Hw3 Hq).
Qed.

(** Saving [k.txt] twice in the sample project. *)
Lemma a_second_save_sample :
  exists w1,
    (insideProject Sample.app "proj" "n/m/k.txt" = true
     /\ Path.isAbsolute (getWorkspacePath Sample.app) = true
     /\ putFile Sample.app "proj" "n/m/k.txt" (JsString [104; 105]) Sample.world
        = (inl (json (SavedBody "File saved successfully"
                        (mkFileInfo "k.txt" "n/m/k.txt" 2 1001 None))), w1))
    /\ exists saved2 w2 m2,
        putFile Sample.app "proj" "n/m/k.txt" (JsString [233]) w1
        = (inl (json (SavedBody "File saved successfully" saved2)), w2)
        /\ lookup (root w2) ["srv"; "Workspace"; "proj"; "n"; "m"; "k.txt"]
           = Some (File m2 [195; 169])
        /\ info_size saved2 = 2.
Proof.
  exists (snd (putFile Sample.app "proj" "n/m/k.txt" (JsString [104; 105])
                       Sample.world)).
  assert (E : putFile Sample.app "proj" "n/m/k.txt" (JsString [104; 105])
                      Sample.world
              = (inl (json (SavedBody "File saved successfully"
                              (mkFileInfo "k.txt" "n/m/k.txt" 2 1001 None))),
                 snd (putFile Sample.app "proj" "n/m/k.txt" (JsString [104; 105])
                              Sample.world)))
    by (vm_compute; reflexivity).
  split; [repeat split; try reflexivity; exact E|].
  destruct (a_second_save_replaces_the_first
              Sample.app "proj" "n/m/k.txt" [104; 105] [233] Sample.world _ _ _
              eq_refl eq_refl E) as (saved2 & w2 & m2 & E2 & Hl & Hsz & _).
  exists saved2, w2, m2. split; [exact E2|]. split; [exact Hl | exact Hsz].
Defined.

End SecondSaveFacts.

(** ** A creation that fails half-way *)

Module CreationFacts.
Import JsString Fs Async FsPromises Http ProjectRoutes.
Import RunSpec ReadSpec PathSpec WriteSpec FsSpec.
Import RunFacts ReadFacts PathFacts FsFacts TreeChangeFacts.
Local Open Scope Z_scope.




End CreationFacts.
